(** * Noctool traceroute core: a shallow embedding and its properties

    The development follows the JavaScript services of the repository:
    [TracerouteStatistics], [HopProcessor], [TracerouteExecutor],
    [TracerouteService] and [ContinuousTracerouteManager].

    Conventions of the embedding.
    - A JavaScript number that holds a latency is a rational ([Q]); the
      comparisons of the source against its constant thresholds are exact on
      rationals, and the arithmetic of [calculateTrend] is done in exact
      rational arithmetic extended with the values a division by zero
      produces ([JsNum]).
    - [null] / [undefined] is [None].
    - A promise is described by the instant at which it settles and the
      way it settles ([Async.Promise]); time is a natural number of
      milliseconds.
    - [Date.now()] and the random parts of identifiers are explicit
      arguments. *)

From Stdlib Require Import ZArith QArith List Bool Lia Sorting.Permutation Sorting.Sorted.
From Stdlib Require Import Qabs Lqa.
From stdpp Require Import gmap strings list pretty sorting.
Import ListNotations.

Local Open Scope Z_scope.

(** ** JavaScript values *)

Module Js.

(** Numbers as the results of the arithmetic of [calculateTrend]: a finite
    value, one of the two infinities, or NaN. *)
Inductive JsNum : Type :=
| Fin (q : Q)
| PosInf
| NegInf
| NaN.

Definition Qltb (a b : Q) : bool := negb (Qle_bool b a).
Definition Qgtb (a b : Q) : bool := Qltb b a.
Definition Qzerob (a : Q) : bool := Qeq_bool a 0.

(** [a - b] *)
Definition sub (a b : JsNum) : JsNum :=
  match a, b with
  | NaN, _ | _, NaN => NaN
  | Fin x, Fin y => Fin (x - y)
  | PosInf, PosInf | NegInf, NegInf => NaN
  | PosInf, _ => PosInf
  | NegInf, _ => NegInf
  | Fin _, PosInf => NegInf
  | Fin _, NegInf => PosInf
  end.

(** sign of a finite value, zero counted as positive zero *)
Definition nonneg (x : Q) : bool := Qle_bool 0 x.

Definition flip (a : JsNum) : JsNum :=
  match a with PosInf => NegInf | NegInf => PosInf | _ => a end.

(** [a / b] *)
Definition div (a b : JsNum) : JsNum :=
  match a, b with
  | NaN, _ | _, NaN => NaN
  | Fin x, Fin y =>
      if Qzerob y then
        (if Qzerob x then NaN else if nonneg x then PosInf else NegInf)
      else Fin (x / y)
  | Fin _, _ => Fin 0
  | _, PosInf | _, NegInf => NaN
  | inf, Fin y => if nonneg y then inf else flip inf
  end.

(** [a * b] *)
Definition mul (a b : JsNum) : JsNum :=
  match a, b with
  | NaN, _ | _, NaN => NaN
  | Fin x, Fin y => Fin (x * y)
  | Fin x, inf | inf, Fin x =>
      if Qzerob x then NaN else if nonneg x then inf else flip inf
  | PosInf, PosInf | NegInf, NegInf => PosInf
  | _, _ => NegInf
  end.

(** [a > c] and [a < c] against a finite constant *)
Definition gt (a : JsNum) (c : Q) : bool :=
  match a with Fin x => Qgtb x c | PosInf => true | _ => false end.
Definition lt (a : JsNum) (c : Q) : bool :=
  match a with Fin x => Qltb x c | NegInf => true | _ => false end.

(** [data.reduce((a, b) => a + b, 0)] on finite numbers *)
Definition sum (data : list Q) : Q := fold_left Qplus data 0%Q.

(** [data.slice(-n)] for a non-negative [n] *)
Definition slice_last {A} (n : nat) (l : list A) : list A :=
  skipn (length l - n)%nat l.

Definition len {A} (l : list A) : Q := inject_Z (Z.of_nat (length l)).

End Js.

(** ** TracerouteStatistics *)

Module TracerouteStatistics.
Import Js.

Inductive Trend : Type :=
| insufficient_data
| increasing
| decreasing
| stable.

(** [calculateTrend(data)] *)
Definition calculateTrend (data : list Q) : Trend :=
  if (length data <? 3)%nat then insufficient_data
  else
    let firstHalf := firstn (length data / 2)%nat data in
    let secondHalf := skipn (length data / 2)%nat data in
    let firstAvg := div (Fin (sum firstHalf)) (Fin (len firstHalf)) in
    let secondAvg := div (Fin (sum secondHalf)) (Fin (len secondHalf)) in
    let change := mul (div (sub secondAvg firstAvg) firstAvg) (Fin 100) in
    if gt change 5 then increasing
    else if lt change (-5) then decreasing
    else stable.

(** The mean of a non-empty list, as a rational. *)
Definition mean (l : list Q) : Q := (sum l / len l)%Q.


End TracerouteStatistics.

(** ** HopProcessor: data *)

Module HopProcessor.
Import Js.

(** Result of the reachability probe ([ping.promise.probe]) and of
    [pingHopWithRetry]: [{alive, time, packetLoss, error}].  [packetLoss]
    is kept as the number [parseFloat] reads from it. *)
Record PingResult : Type := mkPingResult {
  alive : bool;
  time : option Q;
  pr_packetLoss : option Q;
  error : option string
}.

(** The fields only [addRecentPing], [addTimeoutPing] and
    [populatePingHistory] write.  [responseTime = None] is the string
    ['timeout']. *)
Record PingDetail : Type := mkPingDetail {
  pd_timeout : Z;
  responseTime : option Q;
  isTimeout : bool;
  isLongTimeout : bool;
  isSlowPing : bool
}.

Record PingEntry : Type := mkPingEntry {
  pingNumber : Z;
  pe_timestamp : Z;
  latency : option Q;
  pe_isReachable : bool;
  detail : option PingDetail
}.

Record RunEntry : Type := mkRunEntry {
  re_runNumber : option Z;
  re_timestamp : Z;
  re_times : list Q;
  re_avgLatency : option Q;
  re_isReachable : bool
}.

(** The hop object built by [processHop] and enriched afterwards.  The two
    display-only annotations [latencyAnalysis] and [networkBehavior] that
    [trace] attaches are left out: they are computed by total functions
    from the fields below and nothing reads them back. *)
Record Hop : Type := mkHop {
  hop : Z;
  ip : option string;
  hostname : option string;
  times : list Q;
  pingResults : option (list PingResult);
  isReachable : bool;
  avgLatency : option Q;
  packetLoss : option Q;
  pingCount : option Z;
  hopKey : option string;
  runNumber : option Z;
  sessionId : option string;
  timestamp : Z;
  successfulPings : option Z;
  history : option (list RunEntry);
  pingHistory : option (list PingEntry)
}.

Definition set_pingHistory (h : Hop) (ph : list PingEntry) : Hop :=
  mkHop (hop h) (ip h) (hostname h) (times h) (pingResults h) (isReachable h)
        (avgLatency h) (packetLoss h) (pingCount h) (hopKey h) (runNumber h)
        (sessionId h) (timestamp h) (successfulPings h) (history h) (Some ph).

Definition set_histories (h : Hop) (rh : list RunEntry) (ph : list PingEntry) : Hop :=
  mkHop (hop h) (ip h) (hostname h) (times h) (pingResults h) (isReachable h)
        (avgLatency h) (packetLoss h) (pingCount h) (hopKey h) (runNumber h)
        (sessionId h) (timestamp h) (successfulPings h) (Some rh) (Some ph).

(** The assignments of a probed hop in [trace] and [pingHop]. *)
Definition set_ping (h : Hop) (prs : option (list PingResult)) (reach : bool)
    (lat loss : option Q) (cnt succ : option Z) : Hop :=
  mkHop (hop h) (ip h) (hostname h) (times h) prs reach lat loss cnt
        (hopKey h) (runNumber h) (sessionId h) (timestamp h) succ
        (history h) (pingHistory h).

Definition set_hostname (h : Hop) (n : option string) : Hop :=
  mkHop (hop h) (ip h) n (times h) (pingResults h) (isReachable h)
        (avgLatency h) (packetLoss h) (pingCount h) (hopKey h) (runNumber h)
        (sessionId h) (timestamp h) (successfulPings h) (history h) (pingHistory h).

(** The validated configuration, as [validateConfig] returns it, with the
    [continuousPing] flag [processHop] reads. *)
Inductive Protocol : Type := icmp | udp | tcp.

Record Config : Type := mkConfig {
  target : string;
  maxHops : Z;
  timeout : Z;
  protocol : Protocol;
  port : option Z;
  resolveHosts : bool;
  hostnameTimeout : Z;
  pingHops : bool;
  realTime : bool;
  interval : Z;
  skipSlowHops : bool;
  slowHopThreshold : Z;
  skipPacketLoss : bool;
  prioritizeFastHops : bool;
  maxHopsToProcess : Z;
  continuousPing : bool
}.

(** *** Truthiness *)

(** [x || null] for a number-or-null [x]: zero is falsy. *)
Definition truthyQ (o : option Q) : option Q :=
  match o with
  | Some q => if Qzerob q then None else Some q
  | None => None
  end.

(** [x || d] for integers *)
Definition orZ (o : option Z) (d : Z) : Z :=
  match o with
  | Some n => if n =? 0 then d else n
  | None => d
  end.

(** [x || d] for latencies *)
Definition orQ (o : option Q) (d : Q) : Q :=
  match truthyQ o with Some q => q | None => d end.

(** [hop.packetLoss && parseFloat(hop.packetLoss) > 0] *)
Definition hasPacketLoss (h : Hop) : bool :=
  match packetLoss h with Some v => Qgtb v 0 | None => false end.

(** [arr.push(e); if (arr.length > n) arr.shift()] *)
Definition pushBounded {A} (n : nat) (arr : list A) (e : A) : list A :=
  let arr' := arr ++ [e] in
  if (n <? length arr')%nat then tl arr' else arr'.

(** *** Slow-hop analysis *)

Inductive Behavior : Type :=
| VERY_SLOW_HOP | SLOW_HOP | MODERATELY_SLOW_HOP | INCREASING_LATENCY
| PACKET_LOSS | CONFIGURED_SKIP | PACKET_LOSS_SKIP | NORMAL.

(** [{isSlow, shouldSkip, behavior}]; the message strings are not kept. *)
Record Analysis : Type := mkAnalysis {
  isSlow : bool;
  shouldSkip : bool;
  behavior : option Behavior
}.

(** mean of the latencies of the last three pings, [p.latency || 0] each *)
Definition avgRecentLatency (ph : list PingEntry) : Q :=
  let recentPings := slice_last 3 ph in
  (sum (map (fun p => orQ (latency p) 0) recentPings) / len recentPings)%Q.

(** [analyzeSlowHop(hop)] *)
Definition analyzeSlowHop (h : Hop) : Analysis :=
  match truthyQ (avgLatency h) with
  | Some pingLatency =>
      let a0 :=
        if Qgtb pingLatency 100 then mkAnalysis true true (Some VERY_SLOW_HOP)
        else if Qgtb pingLatency 50 then mkAnalysis true true (Some SLOW_HOP)
        else if Qgtb pingLatency 20 then mkAnalysis true false (Some MODERATELY_SLOW_HOP)
        else mkAnalysis false false None in
      let a1 :=
        match pingHistory h with
        | Some ((_ :: _) as ph) =>
            if Qgtb (avgRecentLatency ph) (pingLatency * (3 # 2))
            then mkAnalysis true true (Some INCREASING_LATENCY)
            else a0
        | _ => a0
        end in
      let a2 :=
        if hasPacketLoss h then mkAnalysis true true (Some PACKET_LOSS) else a1 in
      if isSlow a2 then a2 else mkAnalysis false false None
  | None => mkAnalysis false false None
  end.

(** [{shouldSkip, behavior}] of [shouldSkipHop] *)
Record SkipDecision : Type := mkSkip {
  sd_shouldSkip : bool;
  sd_behavior : option Behavior
}.

(** [shouldSkipHop(hop, config)] *)
Definition shouldSkipHop (h : Hop) (config : Config) : SkipDecision :=
  let slowHopAnalysis := analyzeSlowHop h in
  if shouldSkip slowHopAnalysis then mkSkip true (behavior slowHopAnalysis)
  else if skipSlowHops config
          && match truthyQ (avgLatency h) with
             | Some pingLatency =>
                 Qgtb pingLatency (inject_Z (orZ (Some (slowHopThreshold config)) 50))
             | None => false
             end
  then mkSkip true (Some CONFIGURED_SKIP)
  else if skipPacketLoss config && hasPacketLoss h
  then mkSkip true (Some PACKET_LOSS_SKIP)
  else mkSkip false (Some NORMAL).

(** [getHopPriority(hop, config)] *)
Definition getHopPriority (h : Hop) : Z :=
  let slowHopAnalysis := analyzeSlowHop h in
  let pingLatency := orQ (avgLatency h) 0 in
  if Qltb pingLatency 5 then 1
  else if Qltb pingLatency 10 then 2
  else if Qltb pingLatency 20 then 3
  else if Qltb pingLatency 50 then 4
  else if shouldSkip slowHopAnalysis then 999
  else 5.

End HopProcessor.

(** ** Promises with logical time *)

Module Async.

Inductive Outcome (A : Type) : Type :=
| Fulfilled (a : A)
| Rejected (msg : string).
Arguments Fulfilled {A} a.
Arguments Rejected {A} msg.

(** [None]: the promise stays pending for ever; [Some (t, o)]: it settles
    at instant [t] with outcome [o].  Every rejection carries an [Error]
    with a message, as the ones of this code base do. *)
Definition Promise (A : Type) : Type := option (nat * Outcome A).

(** [new Promise((_, reject) => setTimeout(() => reject(new Error(msg)), ms))]
    created at instant [t0] *)
Definition timer {A} (t0 ms : nat) (msg : string) : Promise A :=
  Some ((t0 + ms)%nat, Rejected msg).

(** [Promise.race([p, q])]: the first to settle wins; when both settle in
    the same millisecond the second one ([q], the timer in this code base)
    is taken to have fired first. *)
Definition race {A} (p q : Promise A) : Promise A :=
  match p, q with
  | None, _ => q
  | _, None => p
  | Some (tp, _), Some (tq, _) => if (tp <? tq)%nat then p else q
  end.

(** [try { return await p } catch (error) { return handler(error.message) }] *)
Definition catching {A} (p : Promise A) (handler : string -> A) : Promise A :=
  match p with
  | Some (t, Rejected msg) => Some (t, Fulfilled (handler msg))
  | _ => p
  end.

(** [p.then(f)] for a continuation that does not throw *)
Definition andThen {A B} (p : Promise A) (f : A -> B) : Promise B :=
  match p with
  | Some (t, Fulfilled a) => Some (t, Fulfilled (f a))
  | Some (t, Rejected msg) => Some (t, Rejected msg)
  | None => None
  end.

(** [Promise.allSettled(ps)] called at instant [t0]: pending while one of
    [ps] is, then fulfilled with every outcome, in the order of [ps]. *)
Fixpoint allSettled {A} (t0 : nat) (ps : list (Promise A))
    : Promise (list (Outcome A)) :=
  match ps with
  | [] => Some (t0, Fulfilled [])
  | p :: rest =>
      match p, allSettled t0 rest with
      | Some (t, o), Some (t', Fulfilled os) =>
          Some (Nat.max t t', Fulfilled (o :: os))
      | _, _ => None
      end
  end.

Definition settleTime {A} (p : Promise A) : option nat :=
  match p with Some (t, _) => Some t | None => None end.

End Async.

(** ** HopProcessor: probing and histories *)

Module HopOps.
Import Js Async HopProcessor.

(** What the external probe [ping.promise.probe(ip, opts)] does for one
    call: it throws before handing out a promise, or its promise is
    fulfilled or rejected after some delay, or never settles. *)
Inductive ProbeBehaviour : Type :=
| ProbeThrows (msg : string)
| ProbeAnswers (after : nat) (r : PingResult)
| ProbeFails (after : nat) (msg : string)
| ProbeHangs.

Definition probePromise (t0 : nat) (b : ProbeBehaviour) : Promise PingResult :=
  match b with
  | ProbeAnswers d r => Some ((t0 + d)%nat, Fulfilled r)
  | ProbeFails d msg => Some ((t0 + d)%nat, Rejected msg)
  | _ => None
  end.

(** [{alive: false, time: null, error: error.message}] *)
Definition errorResult (msg : string) : PingResult :=
  mkPingResult false None None (Some msg).

(** [pingHopWithRetry(ip, timeout)] called at instant [t0], [b] being what
    the probe does for this call *)
Definition pingHopWithRetry (b : ProbeBehaviour) (t0 timeout : nat)
    : Promise PingResult :=
  match b with
  | ProbeThrows msg => Some (t0, Fulfilled (errorResult msg))
  | _ =>
      let timeoutPromise := timer t0 timeout "Ping timeout" in
      let pingPromise := probePromise t0 b in
      catching (race pingPromise timeoutPromise) errorResult
  end.

Definition pingHistoryOf (h : Hop) : list PingEntry :=
  match pingHistory h with Some ph => ph | None => [] end.

(** [pingNumber || hop.pingCount || 1] *)
Definition pingNumberOf (pn : option Z) (h : Hop) : Z :=
  orZ pn (orZ (pingCount h) 1).

(** [addRecentPing(hop, pingResult, timeout, pingNumber)] at instant [now] *)
Definition addRecentPing (h : Hop) (r : PingResult) (timeout : Z)
    (pn : option Z) (now : Z) : Hop :=
  let isTimeout := negb (alive r) || match time r with None => true | _ => false end in
  let isLongTimeout := isTimeout && (1000 <=? timeout) in
  let isSlowPing :=
    alive r && match truthyQ (time r) with Some t => Qgtb t 100 | None => false end in
  let pingEntry :=
    mkPingEntry (pingNumberOf pn h) now (truthyQ (time r)) (alive r)
      (Some (mkPingDetail timeout (truthyQ (time r)) isTimeout isLongTimeout isSlowPing)) in
  set_pingHistory h (pushBounded 20 (pingHistoryOf h) pingEntry).

(** [addTimeoutPing(hop, timeout, pingNumber)] at instant [now] *)
Definition addTimeoutPing (h : Hop) (timeout : Z) (pn : option Z) (now : Z) : Hop :=
  let timeoutEntry :=
    mkPingEntry (pingNumberOf pn h) now None false
      (Some (mkPingDetail timeout None true (1000 <=? timeout) false)) in
  set_pingHistory h (pushBounded 20 (pingHistoryOf h) timeoutEntry).

(** [populatePingHistory(hop)] at instant [now] *)
Definition populatePingHistory (h : Hop) (now : Z) : Hop :=
  let ph := pingHistoryOf h in
  match truthyQ (avgLatency h) with
  | Some lat =>
      let existingPing :=
        find (fun p => (pingNumber p =? orZ (pingCount h) 1)
                       && (pe_timestamp p =? timestamp h)) ph in
      match existingPing with
      | Some _ => set_pingHistory h ph
      | None =>
          let e :=
            mkPingEntry (orZ (pingCount h) 1)
              (if timestamp h =? 0 then now else timestamp h)
              (Some lat) (isReachable h)
              (Some (mkPingDetail 1000 (Some lat) (negb (isReachable h))
                       (Qle_bool 1000 lat) (Qgtb lat 100))) in
          set_pingHistory h (pushBounded 20 ph e)
      end
  | None => set_pingHistory h ph
  end.

(** The template [`${hop}_${ip || 'unknown'}`] *)
Definition keyOf (n : Z) (addr : option string) : string :=
  pretty n +:+ "_" +:+
    match addr with
    | Some s => if String.eqb s "" then "unknown" else s
    | None => "unknown"
    end.

(** [hopData.hopKey || `${hopData.hop}_${hopData.ip || 'unknown'}`] *)
Definition hopKeyOf (hopData : Hop) : string :=
  match hopKey hopData with
  | Some k => if String.eqb k "" then keyOf (hop hopData) (ip hopData) else k
  | None => keyOf (hop hopData) (ip hopData)
  end.

Definition runEntryOf (hopData : Hop) : RunEntry :=
  mkRunEntry (runNumber hopData) (timestamp hopData) (times hopData)
             (avgLatency hopData) (isReachable hopData).

(** The entry [updateHopHistory] pushes when [hopData.avgLatency] is a
    truthy number. *)
Definition pingEntryOf (hopData : Hop) : option PingEntry :=
  match truthyQ (avgLatency hopData) with
  | Some lat =>
      Some (mkPingEntry (orZ (pingCount hopData) 1) (timestamp hopData)
                        (Some lat) (isReachable hopData) None)
  | None => None
  end.

(** [if (arr.length > n) arr.shift()] *)
Definition shiftIfOver {A} (n : nat) (arr : list A) : list A :=
  if (n <? length arr)%nat then tl arr else arr.

(** [updateHopHistory(hopData, allHops)]: the record it returns and the
    map afterwards.  [None] is the [TypeError] of [push] on a stored record
    that has no [history] or [pingHistory] array. *)
Definition updateHopHistory (hopData : Hop) (allHops : gmap string Hop)
    : option (Hop * gmap string Hop) :=
  let hopKey := hopKeyOf hopData in
  let allHops1 :=
    match allHops !! hopKey with
    | Some _ => allHops
    | None => <[hopKey := set_histories hopData [] []]> allHops
    end in
  match allHops1 !! hopKey with
  | Some stored =>
      match history stored, pingHistory stored with
      | Some rh, Some ph =>
          let rh1 := rh ++ [runEntryOf hopData] in
          let ph1 :=
            match pingEntryOf hopData with
            | Some e => ph ++ [e]
            | None => ph
            end in
          let ph2 := shiftIfOver 20 ph1 in
          let rh2 := shiftIfOver 10 rh1 in
          let stored' := set_histories stored rh2 ph2 in
          Some (stored', <[hopKey := stored']> allHops1)
      | _, _ => None
      end
  | None => None
  end.

(** The session's hop map after a sequence of observations. *)
Fixpoint updateAll (obs : list Hop) (allHops : gmap string Hop)
    : option (gmap string Hop) :=
  match obs with
  | [] => Some allHops
  | hopData :: rest =>
      match updateHopHistory hopData allHops with
      | Some (_, allHops') => updateAll rest allHops'
      | None => None
      end
  end.

End HopOps.

(** ** HopProcessor: processHop *)

Module HopBuild.
Import Js Async HopProcessor HopOps.

(** A raw hop as the discovery process emits it: [{hop, ip, rtt1}];
    [raw_rtt1 = None] is the marker ['*'], otherwise the number
    [parseFloat] reads. *)
Record RawHop : Type := mkRaw {
  raw_hop : Z;
  raw_ip : option string;
  raw_rtt1 : option Q
}.

(** The payload of a hop event: a raw hop, or something [processHop]
    cannot read (a string [JSON.parse] refuses, [null], ...), with the
    message of the error that reading it throws. *)
Inductive HopPayload : Type :=
| Payload (r : RawHop)
| Malformed (msg : string).

(** What [dns.reverse(ip)] does for one address. *)
Inductive DnsBehaviour : Type :=
| DnsAnswers (after : nat) (names : list string)
| DnsFails (after : nat) (msg : string)
| DnsHangs.

Definition truthyS (o : option string) : option string :=
  match o with
  | Some s => if String.eqb s "" then None else Some s
  | None => None
  end.

(** [resolveHostnameWithTimeout(ip, timeoutMs)] awaited inside the
    [try]/[catch] of [processHop]: the host name, or [null] when the lookup
    fails or loses against the timer. *)
Definition resolvedHostname (d : DnsBehaviour) (timeoutMs : nat) : option string :=
  match d with
  | DnsAnswers after names =>
      if (after <? timeoutMs)%nat then truthyS (head names) else None
  | _ => None
  end.

(** [pingHop(hopInfo)] at instant [t0]; [None] when the awaited promise
    never settles. *)
Definition pingHop (b : ProbeBehaviour) (t0 : nat) (hopInfo : Hop) : option Hop :=
  match pingHopWithRetry b t0 300 with
  | Some (t, Fulfilled pingResult) =>
      let h1 := set_ping hopInfo (Some [pingResult]) (alive pingResult)
                  (time pingResult) (pr_packetLoss pingResult)
                  (pingCount hopInfo) (successfulPings hopInfo) in
      Some (addRecentPing h1 pingResult 300 None (Z.of_nat t))
  | Some (t, Rejected msg) =>
      let h1 := set_ping hopInfo (Some [errorResult msg]) false
                  (avgLatency hopInfo) (packetLoss hopInfo)
                  (pingCount hopInfo) (successfulPings hopInfo) in
      Some (addRecentPing h1 (mkPingResult false None None None) 300 None (Z.of_nat t))
  | None => None
  end.

(** [processHop(hopData, config, runNumber, sessionId, pingImmediately)]
    at instant [t0], with the ping counters before and after.  The result
    is [None] when an awaited promise never settles, [Rejected] when the
    payload cannot be read. *)
Definition processHop (hopData : HopPayload) (config : Config)
    (runNumber : option Z) (sessionId : option string) (pingImmediately : bool)
    (dns : string -> DnsBehaviour) (probe : string -> ProbeBehaviour) (t0 : nat)
    (hopPingCounters : gmap string Z)
    : gmap string Z * option (Outcome Hop) :=
  match hopData with
  | Malformed msg => (hopPingCounters, Some (Rejected msg))
  | Payload raw =>
      let hopKey := keyOf (raw_hop raw) (raw_ip raw) in
      let pingCount := (default 0 (hopPingCounters !! hopKey) + 1)%Z in
      let counters := <[hopKey := pingCount]> hopPingCounters in
      let hopInfo :=
        mkHop (raw_hop raw)
              (if decide (raw_ip raw = Some "*") then None else raw_ip raw)
              None
              (match raw_rtt1 raw with Some t => [t] | None => [] end)
              None false None None
              (if continuousPing config then Some pingCount else None)
              (Some hopKey) runNumber sessionId (Z.of_nat t0) None None None in
      let hopInfo1 :=
        match truthyS (ip hopInfo) with
        | Some addr =>
            if resolveHosts config
            then set_hostname hopInfo
                   (resolvedHostname (dns addr)
                      (Z.to_nat (orZ (Some (hostnameTimeout config)) 5000)))
            else hopInfo
        | None => hopInfo
        end in
      match truthyS (ip hopInfo1) with
      | Some addr =>
          if pingImmediately && pingHops config
          then (counters, Fulfilled <$> pingHop (probe addr) t0 hopInfo1)
          else (counters, Some (Fulfilled hopInfo1))
      | None => (counters, Some (Fulfilled hopInfo1))
      end
  end.

End HopBuild.

(** ** TracerouteExecutor *)

Module TracerouteExecutor.
Import Async HopProcessor HopBuild.

(** What the discovery process does once started: the events its tracer
    emits, in order.  [EvTimer] is the executor's own timer firing (it is
    armed only when [timeout > 0]). *)
Inductive TracerEvent : Type :=
| EvPid (p : Z)
| EvDestination (dest : string)
| EvHop (payload : HopPayload)
| EvClose (code : Z)
| EvError (msg : string)
| EvTimer.

(** Either [tracer.trace(target)] throws, or the process runs. *)
Inductive Discovery : Type :=
| StartThrows (msg : string)
| Runs (events : list TracerEvent).

(** The value [execute] resolves with. *)
Record ExecResult : Type := mkExecResult {
  er_success : bool;
  er_error : option string;
  er_ipAddress : option string;
  er_rawHops : list HopPayload;
  er_pid : option Z;
  er_exitCode : option Z
}.

Definition execFailure (msg : string) : ExecResult :=
  mkExecResult false (Some msg) None [] None None.

(** The updates handed to the [onHopUpdate] callback. *)
Inductive Update : Type :=
| UHop (rawData : HopPayload) (current : nat)
| UComplete (data : ExecResult).

(** The variables of one [execute] call, with the entry of the process in
    [activeProcesses] ([ex_registered]) and the settlement of the promise
    [execute] returns ([ex_settled]; the first settlement stays). *)
Record ExecState : Type := mkExecState {
  ex_hops : list HopPayload;
  ex_destination : option string;
  ex_pid : option Z;
  ex_isCompleted : bool;
  ex_registered : bool;
  ex_settled : option (Outcome ExecResult)
}.

Definition execStart : ExecState := mkExecState [] None None false true None.

Definition settle {A} (cur : option (Outcome A)) (o : Outcome A) : option (Outcome A) :=
  match cur with Some _ => cur | None => Some o end.

(** [e.message || 'Traceroute failed'] *)
Definition orFailed (msg : string) : string :=
  if String.eqb msg "" then "Traceroute failed" else msg.

(** One tracer event handled by the listeners [execute] installs: the
    state afterwards and the updates sent to the callback. *)
Definition execStep (config : Config) (st : ExecState) (ev : TracerEvent)
    : ExecState * list Update :=
  match ev with
  | EvPid p =>
      (mkExecState (ex_hops st) (ex_destination st) (Some p) (ex_isCompleted st)
                   (ex_registered st) (ex_settled st), [])
  | EvDestination dest =>
      (mkExecState (ex_hops st) (Some dest) (ex_pid st) (ex_isCompleted st)
                   (ex_registered st) (ex_settled st), [])
  | EvHop payload =>
      (mkExecState (ex_hops st ++ [payload]) (ex_destination st) (ex_pid st)
                   (ex_isCompleted st) (ex_registered st) (ex_settled st),
       [UHop payload (S (length (ex_hops st)))])
  | EvClose code =>
      if ex_isCompleted st then (st, [])
      else if (code =? 0) || negb (Nat.eqb (length (ex_hops st)) 0) then
        let result := mkExecResult true None (ex_destination st) (ex_hops st)
                        (ex_pid st) (Some code) in
        (mkExecState (ex_hops st) (ex_destination st) (ex_pid st) true false
                     (settle (ex_settled st) (Fulfilled result)),
         [UComplete result])
      else
        (mkExecState (ex_hops st) (ex_destination st) (ex_pid st) true false
           (settle (ex_settled st)
              (Fulfilled (execFailure ("Traceroute failed with exit code " +:+ pretty code)))),
         [])
  | EvError msg =>
      if ex_isCompleted st then (st, [])
      else
        (mkExecState (ex_hops st) (ex_destination st) (ex_pid st) true false
           (settle (ex_settled st) (Fulfilled (execFailure (orFailed msg)))), [])
  | EvTimer =>
      if ex_isCompleted st || negb (0 <? timeout config) then (st, [])
      else
        (mkExecState (ex_hops st) (ex_destination st) (ex_pid st) true false
           (settle (ex_settled st)
              (Fulfilled (execFailure "Traceroute operation timed out"))), [])
  end.

Fixpoint execRun (config : Config) (st : ExecState) (events : list TracerEvent)
    : ExecState * list Update :=
  match events with
  | [] => (st, [])
  | ev :: rest =>
      let '(st1, us1) := execStep config st ev in
      let '(st2, us2) := execRun config st1 rest in
      (st2, us1 ++ us2)
  end.

(** [execute(config, onHopUpdate)]: the updates the callback receives and
    the settlement of the returned promise ([None]: still pending when the
    events end). *)
Definition execute (config : Config) (d : Discovery)
    : list Update * option (Outcome ExecResult) :=
  if String.eqb (target config) "" then
    ([], Some (Fulfilled (execFailure "Target is required")))
  else
    match d with
    | StartThrows msg => ([], Some (Rejected msg))
    | Runs events =>
        let '(st, us) := execRun config execStart events in
        (us, ex_settled st)
    end.

(** Whether the entry of the process is still in [activeProcesses] once
    the events are over: [cleanupProcess] removes it on close, error,
    timeout and on a start that throws. *)
Definition stillRegistered (config : Config) (d : Discovery) : bool :=
  if String.eqb (target config) "" then false
  else
    match d with
    | StartThrows _ => false
    | Runs events => ex_registered (fst (execRun config execStart events))
    end.

End TracerouteExecutor.

(** ** TracerouteConfig *)

Module TracerouteConfig.
Import HopProcessor.

(** The request object; an absent property is [None]. *)
Record RawConfig : Type := mkRawConfig {
  rc_target : option string;
  rc_maxHops : option Z;
  rc_timeout : option Z;
  rc_protocol : option string;
  rc_port : option Z;
  rc_resolveHosts : option bool;
  rc_hostnameTimeout : option Z;
  rc_pingHops : option bool;
  rc_realTime : option bool;
  rc_interval : option Z;
  rc_skipSlowHops : option bool;
  rc_slowHopThreshold : option Z;
  rc_skipPacketLoss : option bool;
  rc_prioritizeFastHops : option bool;
  rc_maxHopsToProcess : option Z
}.

Definition isSpace (c : Ascii.ascii) : bool :=
  let n := Ascii.nat_of_ascii c in
  (Nat.eqb n 32 || (Nat.leb 9 n && Nat.leb n 13))%bool.

Fixpoint trimStart (s : string) : string :=
  match s with
  | String c rest => if isSpace c then trimStart rest else s
  | EmptyString => s
  end.

Fixpoint trimEnd (s : string) : string :=
  match s with
  | String c rest =>
      match trimEnd rest with
      | EmptyString => if isSpace c then EmptyString else String c EmptyString
      | r => String c r
      end
  | EmptyString => EmptyString
  end.

(** [target.trim()] on ASCII white space *)
Definition trim (s : string) : string := trimEnd (trimStart s).

Definition parseProtocol (s : string) : option Protocol :=
  if String.eqb s "icmp" then Some icmp
  else if String.eqb s "udp" then Some udp
  else if String.eqb s "tcp" then Some tcp
  else None.

(** [validateConfig(config)]: the message of the error it throws, or the
    canonical configuration. *)
Definition validateConfig (config : RawConfig) : string + Config :=
  let maxHops := default 30 (rc_maxHops config) in
  let timeout := default 0 (rc_timeout config) in
  let protocol := default "icmp" (rc_protocol config) in
  let hostnameTimeout := default 5000 (rc_hostnameTimeout config) in
  let interval := default 1000 (rc_interval config) in
  let maxHopsToProcess := default 15 (rc_maxHopsToProcess config) in
  match rc_target config with
  | None => inl "Target is required and must be a string"
  | Some target =>
      if String.eqb target "" then inl "Target is required and must be a string"
      else if (maxHops <? 1) || (64 <? maxHops) then
        inl "Max hops must be between 1 and 64"
      else if timeout <? 0 then inl "Timeout must be non-negative"
      else if (hostnameTimeout <? 1000) || (30000 <? hostnameTimeout) then
        inl "Hostname timeout must be between 1000 and 30000 ms"
      else if (maxHopsToProcess <? 1) || (maxHops <? maxHopsToProcess) then
        inl ("Max hops to process must be between 1 and " +:+ pretty maxHops)
      else if (interval <? 1000) || (60000 <? interval) then
        inl "Interval must be between 1000 and 60000 ms"
      else
        match parseProtocol protocol with
        | None => inl "Protocol must be one of: icmp, udp, tcp"
        | Some proto =>
            let port := match rc_port config with
                        | Some p => if p =? 0 then None else Some p
                        | None => None
                        end in
            if match proto, port with
               | (udp | tcp), Some p => (p <? 1) || (65535 <? p)
               | _, _ => false
               end
            then inl "Port must be between 1 and 65535"
            else
              inr (mkConfig (trim target) maxHops timeout proto port
                     (default true (rc_resolveHosts config))
                     hostnameTimeout
                     (default true (rc_pingHops config))
                     (default true (rc_realTime config))
                     interval
                     (default true (rc_skipSlowHops config))
                     (default 50 (rc_slowHopThreshold config))
                     (default true (rc_skipPacketLoss config))
                     (default true (rc_prioritizeFastHops config))
                     maxHopsToProcess
                     false)
        end
  end.

(** The value [resolveTarget] resolves with. *)
Record ResolvedTarget : Type := mkResolved {
  rt_ip : string;
  rt_hostname : option string
}.

End TracerouteConfig.

(** ** TracerouteService: the single run *)

Module TracerouteService.
Import Js Async HopProcessor HopOps HopBuild TracerouteExecutor TracerouteConfig.

(** An element of [hopAnalysis]: [{hop, analysis, priority}].  [idx] is the
    position of the hop object in the array [hops]; it stands for the
    identity of the object, which the arrays [hops], [validHops] and
    [hopAnalysis] share. *)
Record Item : Type := mkItem {
  idx : nat;
  item_hop : Hop;
  analysis : SkipDecision;
  priority : Z
}.

Definition ipIs (h : Hop) (s : string) : bool :=
  match ip h with Some a => String.eqb a s | None => false end.

(** [hop.ip && hop.ip !== 'Request timed out.' && hop.ip !== '*' &&
    hop.ip !== 'unknown'] *)
Definition isValidHop (h : Hop) : bool :=
  match truthyS (ip h) with
  | Some _ =>
      negb (ipIs h "Request timed out.") && negb (ipIs h "*") && negb (ipIs h "unknown")
  | None => false
  end.

Definition validHops (hops : list Hop) : list (nat * Hop) :=
  filter (fun p => isValidHop (snd p) = true) (imap (fun i h => (i, h)) hops).

Definition analyze (config : Config) (p : nat * Hop) : Item :=
  mkItem (fst p) (snd p) (shouldSkipHop (snd p) config) (getHopPriority (snd p)).

Definition skipped (it : Item) : bool := sd_shouldSkip (analysis it).

(** [arr.sort((a, b) => a.priority - b.priority)]: the sort is stable, as
    [Array.prototype.sort] is. *)
Fixpoint insertByPriority (x : Item) (l : list Item) : list Item :=
  match l with
  | [] => [x]
  | y :: rest =>
      if priority x <=? priority y then x :: l
      else y :: insertByPriority x rest
  end.

Fixpoint sortByPriority (l : list Item) : list Item :=
  match l with
  | [] => []
  | x :: rest => insertByPriority x (sortByPriority rest)
  end.

(** The three arrays the filtering step of [trace] builds. *)
Record Classes : Type := mkClasses {
  skippedHops : list Item;
  finalHopsToPing : list Item;
  limitedHops : list Item
}.

Definition classify (config : Config) (hopAnalysis : list Item) : Classes :=
  let hopsToPing := filter (fun it => skipped it = false) hopAnalysis in
  let skippedHops := filter (fun it => skipped it = true) hopAnalysis in
  if negb (maxHopsToProcess config =? 0)
     && (maxHopsToProcess config <? Z.of_nat (length hopsToPing))
  then
    let sortedHops := sortByPriority hopsToPing in
    mkClasses skippedHops
              (firstn (Z.to_nat (maxHopsToProcess config)) sortedHops)
              (skipn (Z.to_nat (maxHopsToProcess config)) sortedHops)
  else mkClasses skippedHops hopsToPing [].

(** The body of the callback of [finalHopsToPing.map]: the promise of the
    probed hop. *)
Definition pingItem (b : ProbeBehaviour) (t0 : nat) (h : Hop) : Promise Hop :=
  match pingHopWithRetry b t0 1000 with
  | Some (t, Fulfilled pingResult) =>
      let avgLatency := if alive pingResult then truthyQ (time pingResult) else None in
      let h1 := set_ping h (Some [pingResult]) (alive pingResult) avgLatency
                  (Some (if alive pingResult then 0 else 100)%Q)
                  (Some 1) (Some (if alive pingResult then 1 else 0)) in
      Some (t, Fulfilled (addRecentPing h1 pingResult 1000 (Some 1) (Z.of_nat t)))
  | Some (t, Rejected msg) =>
      let h1 := set_ping h (pingResults h) false None (packetLoss h)
                  (Some 0) (Some 0) in
      Some (t, Fulfilled (addTimeoutPing h1 1000 (Some 1) (Z.of_nat t)))
  | None => None
  end.

(** [pingPromises]: the [j]-th call of the probe behaves as [probe j]. *)
Definition pingPromises (probe : nat -> ProbeBehaviour) (t0 : nat)
    (final : list Item) : list (Promise Hop) :=
  imap (fun j it => pingItem (probe j) t0 (item_hop it)) final.

(** The probe step: [await Promise.allSettled(pingPromises)]. *)
Definition probeBatch (probe : nat -> ProbeBehaviour) (t0 : nat)
    (final : list Item) : Promise (list (Outcome Hop)) :=
  allSettled t0 (pingPromises probe t0 final).

(** The hop objects of [hops] after the batch: each probed object carries
    what its own callback wrote. *)
Fixpoint writeBack (hops : list Hop) (final : list Item) (outs : list (Outcome Hop))
    : list Hop :=
  match final, outs with
  | it :: final', Fulfilled h :: outs' => writeBack (<[idx it := h]> hops) final' outs'
  | _ :: final', Rejected _ :: outs' => writeBack hops final' outs'
  | _, _ => hops
  end.

(** The body of the final [hops.forEach]. *)
Definition backfill (now : Z) (h : Hop) : Hop :=
  let h1 :=
    match pingHistory h with
    | Some (_ :: _) => h
    | _ => populatePingHistory h now
    end in
  match truthyS (ip h1) with
  | Some _ =>
      if negb (ipIs h1 "Request timed out.") && negb (ipIs h1 "*")
         && negb (isReachable h1)
      then addTimeoutPing h1 1000 (Some 1) now
      else h1
  | None => h1
  end.

(** The enrichment the [complete] update triggers: the hops afterwards, or
    [None] when the awaited batch never settles. *)
Definition enrich (config : Config) (probe : nat -> ProbeBehaviour) (t0 : nat)
    (hops : list Hop) : option (list Hop) :=
  let valid := validHops hops in
  if pingHops config && negb (Nat.eqb (length valid) 0) then
    let cls := classify config (map (analyze config) valid) in
    match probeBatch probe t0 (finalHopsToPing cls) with
    | Some (t, Fulfilled outs) =>
        Some (map (backfill (Z.of_nat t)) (writeBack hops (finalHopsToPing cls) outs))
    | _ => None
    end
  else Some hops.

(** The object [trace] resolves with; the [statistics] property, computed
    from [hops] by [calculateStatistics], is not kept. *)
Record TraceResult : Type := mkTraceResult {
  success : bool;
  tr_error : option string;
  tr_target : option string;
  ipAddress : option string;
  tr_hops : list Hop;
  totalHops : nat;
  tr_pid : option Z
}.

Definition traceFailure (msg : string) : TraceResult :=
  mkTraceResult false (Some msg) None None [] 0 None.

(** The variables of the promise executor inside [trace]. *)
Record TraceState : Type := mkTraceState {
  ts_hops : list Hop;
  ts_isCompleted : bool;
  ts_settled : option (Outcome TraceResult);
  ts_counters : gmap string Z
}.

(** The callback [trace] hands to [execute], run on one update.  The
    callback is called with [onHopUpdate = null]; each call runs to its end
    before the next update arrives. *)
Definition onUpdate (config : Config) (resolved : ResolvedTarget)
    (dns : string -> DnsBehaviour) (probe : nat -> ProbeBehaviour) (t0 : nat)
    (st : TraceState) (u : Update) : TraceState :=
  match u with
  | UHop rawData _ =>
      match processHop rawData config None None false dns (fun _ => ProbeHangs) t0
              (ts_counters st) with
      | (counters, Some (Fulfilled processedHop)) =>
          mkTraceState (ts_hops st ++ [processedHop]) (ts_isCompleted st)
                       (ts_settled st) counters
      | (counters, Some (Rejected msg)) =>
          if ts_isCompleted st
          then mkTraceState (ts_hops st) true (ts_settled st) counters
          else mkTraceState (ts_hops st) true (settle (ts_settled st) (Rejected msg))
                            counters
      | (counters, None) =>
          mkTraceState (ts_hops st) (ts_isCompleted st) (ts_settled st) counters
      end
  | UComplete data =>
      if ts_isCompleted st then st
      else
        match enrich config probe t0 (ts_hops st) with
        | Some hops =>
            let result :=
              mkTraceResult true None (Some (target config))
                (match truthyS (er_ipAddress data) with
                 | Some d => Some d
                 | None => Some (rt_ip resolved)
                 end)
                hops (length hops) (er_pid data) in
            mkTraceState hops true (settle (ts_settled st) (Fulfilled result))
                         (ts_counters st)
        | None => mkTraceState (ts_hops st) true (ts_settled st) (ts_counters st)
        end
  end.

(** [trace(config)]: how the promise it returns settles; [None] when it
    stays pending.  [resolved] is the outcome of [resolveTarget] and
    [discovery] what the discovery process does. *)
Definition trace (config : RawConfig) (resolved : Outcome ResolvedTarget)
    (discovery : Discovery) (dns : string -> DnsBehaviour)
    (probe : nat -> ProbeBehaviour) (t0 : nat)
    : option (Outcome TraceResult) :=
  match validateConfig config with
  | inl msg => Some (Fulfilled (traceFailure msg))
  | inr validatedConfig =>
      match resolved with
      | Rejected msg => Some (Fulfilled (traceFailure msg))
      | Fulfilled resolvedTarget =>
          let '(updates, executed) := execute validatedConfig discovery in
          let st :=
            fold_left (onUpdate validatedConfig resolvedTarget dns probe t0)
                      updates (mkTraceState [] false None ∅) in
          match executed with
          | Some (Rejected msg) =>
              if ts_isCompleted st then ts_settled st
              else settle (ts_settled st) (Fulfilled (traceFailure (orFailed msg)))
          | _ => ts_settled st
          end
      end
  end.

End TracerouteService.

(** ** ContinuousTracerouteManager *)

Module ContinuousTracerouteManager.
Import Async HopProcessor HopOps HopBuild TracerouteExecutor.

(** The object stored in [activeSessions].  [isRunning], [runCount] and
    [currentRunPromise] are the values the local variables had when the
    object was built; [allHops] is the very [Map] of the closure and is
    read from [SessionVars]. *)
Record SessionInfo : Type := mkSessionInfo {
  s_target : string;
  s_config : Config;
  s_isRunning : bool;
  s_runCount : Z;
  s_startTime : Z;
  s_currentRunPromise : option unit
}.

(** The local variables of one [startContinuousSession] call, which
    [runTraceroute] and the [stop] closure share.  [v_process] is the
    identifier under which the executor registered the discovery that is in
    flight ([execute] keeps it to itself). *)
Record SessionVars : Type := mkSessionVars {
  v_isRunning : bool;
  v_runCount : Z;
  v_allHops : gmap string Hop;
  v_startTime : Z;
  v_process : option string
}.

Inductive Event : Type :=
| ContinuousHop (sessionId : string) (runNumber : Z) (data : Hop) (allHops : list Hop)
| RunComplete (sessionId : string) (runNumber : Z) (result : ExecResult)
| RunError (sessionId : string) (runNumber : Z) (error : string).

(** The manager with the two collaborators it holds: the executor's
    [activeProcesses] and the hop processor's [hopPingCounters]; the
    pending [setTimeout(runTraceroute, interval)] calls; and the calls made
    to [onHopUpdate] and [onComplete], oldest first. *)
Record Manager : Type := mkManager {
  activeSessions : gmap string SessionInfo;
  closures : gmap string SessionVars;
  activeProcesses : gset string;
  hopPingCounters : gmap string Z;
  timers : list (string * Z);
  emitted : list Event
}.

Definition empty : Manager := mkManager ∅ ∅ ∅ ∅ [] [].

(** [{success, sessionId?, error?, message?}] *)
Record Reply : Type := mkReply {
  r_success : bool;
  r_sessionId : option string;
  r_error : option string;
  r_message : option string
}.

(** [runTraceroute()] up to its [await]: the guard, the increment and the
    start of the discovery, registered by the executor as [processId]. *)
Definition runTracerouteBegin (sessionId processId : string) (m : Manager) : Manager :=
  match closures m !! sessionId with
  | Some vs =>
      if v_isRunning vs then
        let vs' := mkSessionVars true (v_runCount vs + 1) (v_allHops vs)
                                 (v_startTime vs) (Some processId) in
        mkManager (activeSessions m) (<[sessionId := vs']> (closures m))
                  ({[processId]} ∪ activeProcesses m) (hopPingCounters m)
                  (timers m) (emitted m)
      else m
  | None => m
  end.

(** [startContinuousSession(config, onHopUpdate, onComplete)] with both
    callbacks given; [sessionId] is the identifier it generates and [now]
    the value of [Date.now()]. *)
Definition startContinuousSession (config : Config) (sessionId processId : string)
    (now : Z) (m : Manager) : Manager * Reply :=
  if String.eqb (target config) "" then
    (m, mkReply false None (Some "Target is required") None)
  else
    let info := mkSessionInfo (target config) config true 0 now None in
    let vs := mkSessionVars true 0 ∅ now None in
    let m1 := mkManager (<[sessionId := info]> (activeSessions m))
                        (<[sessionId := vs]> (closures m))
                        (activeProcesses m) (hopPingCounters m)
                        (timers m) (emitted m) in
    (runTracerouteBegin sessionId processId m1,
     mkReply true (Some sessionId) None (Some "Continuous traceroute started")).

(** The callback [runTraceroute] hands to [execute], run on one update:
    the hop map, the counters and the calls to [onHopUpdate] afterwards. *)
Definition onHopEvent (config : Config) (sessionId : string) (runCount : Z)
    (dns : string -> DnsBehaviour) (probe : string -> ProbeBehaviour) (t0 : nat)
    (acc : gmap string Hop * gmap string Z * list Event) (u : Update)
    : gmap string Hop * gmap string Z * list Event :=
  let '(allHops, counters, evs) := acc in
  match u with
  | UHop rawData _ =>
      match processHop rawData config (Some runCount) (Some sessionId) true
              dns probe t0 counters with
      | (counters', Some (Fulfilled processedHop)) =>
          match updateHopHistory processedHop allHops with
          | Some (updatedHop, allHops') =>
              (allHops', counters',
               evs ++ [ContinuousHop sessionId runCount updatedHop
                         (snd <$> map_to_list allHops')])
          | None => (allHops, counters', evs)
          end
      | (counters', _) => (allHops, counters', evs)
      end
  | UComplete _ => acc
  end.

(** The rest of [runTraceroute()], from the discovery [d] of the run to
    the scheduling of the next run.  Nothing happens past the [await] when
    the promise of [execute] never settles. *)
Definition runTracerouteEnd (sessionId : string) (d : Discovery)
    (dns : string -> DnsBehaviour) (probe : string -> ProbeBehaviour) (t0 : nat)
    (config : Config) (m : Manager) : Manager :=
  match closures m !! sessionId with
  | Some vs =>
      let '(updates, executed) := execute config d in
      let '(allHops, counters, hopEvents) :=
        fold_left (onHopEvent config sessionId (v_runCount vs) dns probe t0)
                  updates (v_allHops vs, hopPingCounters m, []) in
      let processes :=
        match v_process vs with
        | Some p => if stillRegistered config d then activeProcesses m
                    else activeProcesses m ∖ {[p]}
        | None => activeProcesses m
        end in
      match executed with
      | None =>
          mkManager (activeSessions m)
            (<[sessionId := mkSessionVars (v_isRunning vs) (v_runCount vs) allHops
                              (v_startTime vs) (v_process vs)]> (closures m))
            processes counters (timers m) (emitted m ++ hopEvents)
      | Some outcome =>
          let completion :=
            match outcome with
            | Fulfilled result => RunComplete sessionId (v_runCount vs) result
            | Rejected msg => RunError sessionId (v_runCount vs) msg
            end in
          mkManager (activeSessions m)
            (<[sessionId := mkSessionVars (v_isRunning vs) (v_runCount vs) allHops
                              (v_startTime vs) None]> (closures m))
            processes counters
            (if v_isRunning vs then timers m ++ [(sessionId, interval config)]
             else timers m)
            (emitted m ++ hopEvents ++ [completion])
      end
  | None => m
  end.

(** The [stop] closure stored in the session object. *)
Definition sessionStop (sessionId : string) (m : Manager) : Manager :=
  mkManager (delete sessionId (activeSessions m))
    (match closures m !! sessionId with
     | Some vs => <[sessionId := mkSessionVars false (v_runCount vs) (v_allHops vs)
                                   (v_startTime vs) (v_process vs)]> (closures m)
     | None => closures m
     end)
    (activeProcesses m) (hopPingCounters m) (timers m) (emitted m).

(** [stopContinuousSession(sessionId)] *)
Definition stopContinuousSession (sessionId : string) (m : Manager) : Manager * Reply :=
  match activeSessions m !! sessionId with
  | Some _ =>
      let m1 := sessionStop sessionId m in
      (mkManager (delete sessionId (activeSessions m1)) (closures m1)
                 (activeProcesses m1) (hopPingCounters m1) (timers m1) (emitted m1),
       mkReply true None None (Some "Continuous traceroute stopped"))
  | None =>
      (mkManager (delete sessionId (activeSessions m)) (closures m)
                 (activeProcesses m) (hopPingCounters m) (timers m) (emitted m),
       mkReply true None None (Some "Session already stopped or not found"))
  end.

(** An element of the array [getActiveSessions] returns. *)
Record SessionReport : Type := mkReport {
  rep_sessionId : string;
  rep_target : string;
  rep_runCount : Z;
  rep_startTime : Z;
  rep_duration : Z;
  rep_isRunning : bool
}.

(** [getActiveSessions()] at instant [now] *)
Definition getActiveSessions (now : Z) (m : Manager) : list SessionReport :=
  (fun p : string * SessionInfo =>
     mkReport (fst p) (s_target (snd p)) (s_runCount (snd p)) (s_startTime (snd p))
              (now - s_startTime (snd p)) (s_isRunning (snd p)))
    <$> map_to_list (activeSessions m).

(** A pending timer of the session fires: [runTraceroute()] starts again. *)
Definition timerFires (sessionId processId : string) (m : Manager) : Manager :=
  match list_find (fun p => fst p = sessionId) (timers m) with
  | Some (i, _) =>
      runTracerouteBegin sessionId processId
        (mkManager (activeSessions m) (closures m) (activeProcesses m)
                   (hopPingCounters m) (delete i (timers m)) (emitted m))
  | None => m
  end.

End ContinuousTracerouteManager.

(** ** HopProcessor: counters and latency discrepancy *)

Module HopAnalysis.
Import Js HopProcessor HopOps.

(** [getHopPingStatistics(hopKey)]: the number both [totalPings] and
    [pingCount] carry, [hopPingCounters.get(hopKey) || 0]. *)
Definition getHopPingStatistics (hopKey : string) (hopPingCounters : gmap string Z) : Z :=
  orZ (hopPingCounters !! hopKey) 0.

(** [resetPingCounters(hopKey)]: one counter is deleted when a truthy key
    is given, all of them otherwise. *)
Definition resetPingCounters (hopKey : option string) (hopPingCounters : gmap string Z)
    : gmap string Z :=
  match hopKey with
  | Some k => if String.eqb k "" then ∅ else delete k hopPingCounters
  | None => ∅
  end.

(** [Math.max(x, ...l)] and [Math.min(x, ...l)] *)
Definition maxOf (x : Q) (l : list Q) : Q :=
  fold_left (fun a b => if Qltb a b then b else a) l x.
Definition minOf (x : Q) (l : list Q) : Q :=
  fold_left (fun a b => if Qltb b a then b else a) l x.

(** [hop.times && hop.times.length > 0 ? Math.max(...hop.times) : null] *)
Definition tracerouteLatency (h : Hop) : option Q :=
  match times h with
  | [] => None
  | x :: rest => Some (maxOf x rest)
  end.

Inductive DiscrepancyLevel : Type :=
| SEVERE_DISCREPANCY | HIGH_DISCREPANCY | MODERATE_DISCREPANCY
| LOW_DISCREPANCY | NORMAL_LEVEL.

(** [getDiscrepancyAnalysis(tracerouteLatency, pingLatency, discrepancyPercent)] *)
Definition getDiscrepancyAnalysis (discrepancyPercent : Q) : DiscrepancyLevel :=
  if Qgtb discrepancyPercent 200 then SEVERE_DISCREPANCY
  else if Qgtb discrepancyPercent 100 then HIGH_DISCREPANCY
  else if Qgtb discrepancyPercent 50 then MODERATE_DISCREPANCY
  else if Qgtb discrepancyPercent 20 then LOW_DISCREPANCY
  else NORMAL_LEVEL.

Record Discrepancy : Type := mkDiscrepancy {
  d_tracerouteLatency : Q;
  d_pingLatency : Q;
  discrepancy : Q;
  discrepancyPercent : Q;
  isSignificant : bool;
  d_analysis : DiscrepancyLevel
}.

(** [analyzeLatencyDiscrepancy(hop)].  Both latencies are truthy where the
    division is made, so its divisor [Math.max(t, p)] is not zero. *)
Definition analyzeLatencyDiscrepancy (h : Hop) : option Discrepancy :=
  match truthyQ (tracerouteLatency h), truthyQ (avgLatency h) with
  | Some t, Some p =>
      let d := Qabs (t - p) in
      let pct := (d / maxOf t [p] * 100)%Q in
      Some (mkDiscrepancy t p d pct (Qgtb pct 50) (getDiscrepancyAnalysis pct))
  | _, _ => None
  end.

(** The [behavior] property of what [getNetworkBehaviorAnalysis] returns. *)
Inductive NetworkBehavior : Type :=
| SlowHop (b : option Behavior)
| PROTOCOL_FILTERING
| RATE_LIMITING
| LOAD_BALANCING
| NORMAL_VARIATION
| NORMAL_BEHAVIOR
| UNKNOWN.

(** [getNetworkBehaviorAnalysis(hop).behavior].  [analyzeSlowHop] always
    returns an object, so the first guard of the source never holds. *)
Definition getNetworkBehaviorAnalysis (h : Hop) : NetworkBehavior :=
  let discrepancy := analyzeLatencyDiscrepancy h in
  let slowHopAnalysis := analyzeSlowHop h in
  if isSlow slowHopAnalysis then SlowHop (behavior slowHopAnalysis)
  else
    match discrepancy with
    | Some d =>
        match d_analysis d with
        | SEVERE_DISCREPANCY => PROTOCOL_FILTERING
        | HIGH_DISCREPANCY => RATE_LIMITING
        | MODERATE_DISCREPANCY => LOAD_BALANCING
        | LOW_DISCREPANCY => NORMAL_VARIATION
        | NORMAL_LEVEL => NORMAL_BEHAVIOR
        end
    | None => UNKNOWN
    end.

End HopAnalysis.

(** ** TracerouteStatistics: aggregates *)

Module StatisticsCalc.
Import Js HopProcessor HopOps HopAnalysis.

Record Statistics : Type := mkStatistics {
  st_totalHops : nat;
  st_reachableHops : nat;
  st_unreachableHops : nat;
  st_pingedHops : nat;
  st_avgLatency : Q;
  st_maxLatency : Q;
  st_minLatency : Q;
  st_avgPingLatency : Q;
  st_maxPingLatency : Q;
  st_minPingLatency : Q;
  st_packetLossRate : Q;
  dist_reachable : list Z;
  dist_unreachable : list Z;
  dist_pingable : list Z
}.

(** [hop.times.length > 0 || hop.isReachable] *)
Definition countsReachable (h : Hop) : bool :=
  negb (Nat.eqb (length (times h)) 0) || isReachable h.

(** [hop.pingResults !== null] *)
Definition wasPinged (h : Hop) : bool :=
  match pingResults h with Some _ => true | None => false end.

(** average, maximum and minimum of a list of samples; all three are 0 for
    the empty list *)
Definition summarize (samples : list Q) : Q * Q * Q :=
  match samples with
  | [] => (0, 0, 0)%Q
  | x :: rest => ((sum samples / len samples)%Q, maxOf x rest, minOf x rest)
  end.

(** [calculateStatistics(hops)] *)
Definition calculateStatistics (hops : list Hop) : Statistics :=
  let reachable := List.filter countsReachable hops in
  let unreachable := List.filter (fun h => negb (countsReachable h)) hops in
  let pinged := List.filter wasPinged hops in
  let allTimes := flat_map times hops in
  let pingLatencies := omap avgLatency hops in
  let totalPings := length pinged in
  let successfulPings := length (List.filter isReachable hops) in
  let '(avgL, maxL, minL) := summarize allTimes in
  let '(avgP, maxP, minP) := summarize pingLatencies in
  mkStatistics (length hops) (length reachable) (length unreachable) (length pinged)
    avgL maxL minL avgP maxP minP
    (if (0 <? totalPings)%nat
     then (inject_Z (Z.of_nat totalPings - Z.of_nat successfulPings)
           / inject_Z (Z.of_nat totalPings) * 100)%Q
     else 0%Q)
    (map hop reachable) (map hop unreachable)
    (map hop (List.filter isReachable pinged)).

(** [calculateVariance(data)] *)
Definition calculateVariance (data : list Q) : Q :=
  if (length data <? 2)%nat then 0%Q
  else
    let mean := (sum data / len data)%Q in
    let squaredDiffs := map (fun x => ((x - mean) * (x - mean))%Q) data in
    (sum squaredDiffs / len data)%Q.

Record Stability : Type := mkStability {
  stabilityRate : Q;
  totalRuns : nat;
  reachableRuns : nat;
  lastSeen : option Z
}.

(** The entry [calculateHopStability] writes for one hop, if any. *)
Definition stabilityOf (h : Hop) : option Stability :=
  match history h with
  | Some hist =>
      if (1 <? length hist)%nat then
        let reachableCount := length (List.filter re_isReachable hist) in
        Some (mkStability
                (inject_Z (Z.of_nat reachableCount) / inject_Z (Z.of_nat (length hist)) * 100)%Q
                (length hist) reachableCount
                (last hist ≫= re_runNumber))
      else None
  | None => None
  end.

(** [calculateHopStability(allHops)] *)
Definition calculateHopStability (allHops : gmap string Hop) : gmap string Stability :=
  omap stabilityOf allHops.

Inductive Grade : Type := excellent | good | fair | poor.

Inductive Recommendation : Type :=
| HighPacketLoss
| HighLatency
| ManyUnreachable.

Record Summary : Type := mkSummary {
  overall : Grade;
  sm_latency : Grade;
  reliability : Grade;
  recommendations : list Recommendation
}.

(** [generatePerformanceSummary(stats)] *)
Definition generatePerformanceSummary (stats : Statistics) : Summary :=
  let loss := st_packetLossRate stats in
  let avg := st_avgLatency stats in
  mkSummary
    (if Qltb loss 5 && Qltb avg 50 then excellent
     else if Qltb loss 10 && Qltb avg 100 then good
     else if Qltb loss 20 && Qltb avg 200 then fair
     else poor)
    (if Qltb avg 20 then excellent
     else if Qltb avg 50 then good
     else if Qltb avg 100 then fair
     else poor)
    (if Qltb loss 1 then excellent
     else if Qltb loss 5 then good
     else if Qltb loss 10 then fair
     else poor)
    ((if Qgtb loss 10 then [HighPacketLoss] else [])
     ++ (if Qgtb avg 100 then [HighLatency] else [])
     ++ (if Qgtb (inject_Z (Z.of_nat (st_unreachableHops stats)))
                 (inject_Z (Z.of_nat (st_totalHops stats)) * (3 # 10))
         then [ManyUnreachable] else [])).

End StatisticsCalc.

(** ** Stopping every session *)

Module Shutdown.
Import HopProcessor TracerouteExecutor ContinuousTracerouteManager.

(** [getActiveSessionCount()] and [isSessionActive(sessionId)] *)
Definition getActiveSessionCount (m : Manager) : nat := size (activeSessions m).
Definition isSessionActive (sessionId : string) (m : Manager) : bool :=
  bool_decide (is_Some (activeSessions m !! sessionId)).

(** [stopAllSessions()]: [stopContinuousSession] on every key of the
    registry, one after the other. *)
Definition stopAllSessions (m : Manager) : Manager :=
  fold_left (fun acc k => fst (stopContinuousSession k acc))
            (fst <$> map_to_list (activeSessions m)) m.

(** [stopAllProcesses()] of the executor: [cleanupProcess] runs on every
    registered process (it calls [tracer.stop()] where the tracer has one)
    and deletes its entry.  The result is the set of processes it ran on
    and the manager afterwards. *)
Definition stopAllProcesses (m : Manager) : gset string * Manager :=
  (activeProcesses m,
   mkManager (activeSessions m) (closures m) ∅ (hopPingCounters m) (timers m) (emitted m)).

(** [TracerouteService.stopAll()] *)
Definition stopAll (m : Manager) : gset string * Manager :=
  let '(stopped, m1) := stopAllProcesses m in
  (stopped, stopAllSessions m1).

End Shutdown.

(** ** Notions the properties are stated with *)

Module Notions.
Import Js Async HopProcessor HopOps HopBuild TracerouteStatistics TracerouteExecutor
       TracerouteConfig TracerouteService ContinuousTracerouteManager.

(** The latency [getHopPriority] ranks by: [hop.avgLatency || 0]. *)
Definition rankedLatency (h : Hop) : Q := orQ (avgLatency h) 0.

Definition byPriority (a b : Item) : Prop := priority a <= priority b.

(** An observation of the hop of index [n] whose discovery address is
    [addr], as [processHop] builds it: the index, the address (the marker
    ['*'] read as [null]) and the key derived from both. *)
Definition observes (n : Z) (addr : option string) (o : Hop) : Prop :=
  hop o = n /\
  ip o = (if decide (addr = Some "*") then None else addr) /\
  hopKey o = Some (keyOf n addr).

Definition runHistoryOf (h : Hop) : list RunEntry :=
  match history h with Some rh => rh | None => [] end.

(** The probe gives no answer before the timer of [timeout] ms fires. *)
Definition probeLost (b : ProbeBehaviour) (timeout : nat) : Prop :=
  match b with
  | ProbeAnswers after _ => (timeout <= after)%nat
  | _ => True
  end.

(** The probe of a hop fails: no answer in time, or the answer "not
    alive". *)
Definition probeFailed (b : ProbeBehaviour) (timeout : nat) : Prop :=
  match b with
  | ProbeAnswers after r => (timeout <= after)%nat \/ alive r = false
  | _ => True
  end.

Definition isErrorResult (r : PingResult) : Prop :=
  alive r = false /\ time r = None /\ exists msg, error r = Some msg.

(** An entry of the ping history that records a timeout. *)
Definition timeoutEntry (e : PingEntry) : Prop :=
  pe_isReachable e = false /\
  exists d, detail e = Some d /\ isTimeout d = true.

(** The states the manager goes through. *)
Inductive reachable : Manager -> Prop :=
| reach_empty : reachable empty
| reach_start config sessionId processId now m :
    reachable m ->
    reachable (fst (startContinuousSession config sessionId processId now m))
| reach_end sessionId d dns probe t0 config m :
    reachable m ->
    reachable (runTracerouteEnd sessionId d dns probe t0 config m)
| reach_timer sessionId processId m :
    reachable m -> reachable (timerFires sessionId processId m)
| reach_stop sessionId m :
    reachable m -> reachable (fst (stopContinuousSession sessionId m)).

Definition runCountOf (sessionId : string) (m : Manager) : option Z :=
  v_runCount <$> closures m !! sessionId.

Definition isRunningOf (sessionId : string) (m : Manager) : option bool :=
  v_isRunning <$> closures m !! sessionId.

End Notions.

(** ** Sample hops, configurations and sessions *)

Module Samples.
Import Js Async HopProcessor HopOps HopBuild TracerouteStatistics TracerouteExecutor
       TracerouteConfig TracerouteService ContinuousTracerouteManager.

Import Notions.

Definition plainHop (n : Z) (addr : string) (lat : option Q) : Hop :=
  mkHop n (Some addr) None [] None false lat None None None None None 0 None None None.

(** A hop answering in 4 ms whose last recorded ping took 10 ms. *)
Definition degradingHop : Hop :=
  set_pingHistory (plainHop 3 "10.0.0.3" (Some 4%Q))
    [mkPingEntry 1 0 (Some 10%Q) true None].

(** A hop answering in exactly 50 ms, with no history and no loss. *)
Definition borderHop : Hop := plainHop 4 "10.0.0.4" (Some 50%Q).

(** A validated configuration with [skipSlowHops = true],
    [slowHopThreshold = 50] and the given [maxHopsToProcess]. *)
Definition sampleConfig (limit : Z) : Config :=
  mkConfig "example.org" 30 0 icmp None false 5000 true true 1000
           true 50 true true limit false.

Definition hop10 : Hop := plainHop 1 "10.0.0.1" (Some 10%Q).
Definition hop60 : Hop := plainHop 2 "10.0.0.2" (Some 60%Q).
Definition hop200 : Hop := plainHop 3 "10.0.0.3" (Some 200%Q).

Definition hop30 : Hop := plainHop 1 "10.0.1.1" (Some 30%Q).
Definition hop3 : Hop := plainHop 2 "10.0.1.2" (Some 3%Q).
Definition hop12 : Hop := plainHop 3 "10.0.1.3" (Some 12%Q).

Definition classesOf (config : Config) (hops : list Hop) : Classes :=
  classify config (map (analyze config) (validHops hops)).

(** Two observations of hop 3 at 10.0.0.3, the second one with a probe
    latency. *)
Definition seenOnce : Hop :=
  mkHop 3 (Some "10.0.0.3") None [] None false None None None
        (Some (keyOf 3 (Some "10.0.0.3"))) (Some 1) (Some "s") 100 None None None.
Definition seenTwice : Hop :=
  mkHop 3 (Some "10.0.0.3") None [] None true (Some 12%Q) None None
        (Some (keyOf 3 (Some "10.0.0.3"))) (Some 2) (Some "s") 200 None None None.

(** Five hops, the third of which never answers. *)
Definition oneHang (j : nat) : ProbeBehaviour :=
  if Nat.eqb j 2 then ProbeHangs
  else ProbeAnswers 5 (mkPingResult true (Some 5%Q) (Some 0%Q) None).

Definition fiveItems : list Item :=
  map (fun n => mkItem n (plainHop (Z.of_nat n) "10.0.0.9" None)
                       (mkSkip false (Some NORMAL)) 1)
      (seq 0 5).

(** A request for [example.org] with reverse DNS switched off. *)
Definition request : RawConfig :=
  mkRawConfig (Some "example.org") None None None None (Some false)
              None None None None None None None None None.

Definition resolvedOk : Outcome ResolvedTarget :=
  Fulfilled (mkResolved "93.184.216.34" None).

Definition sessionConfig : Config := sampleConfig 15.

(** The manager once a session "s1" has been started: its first run is in
    flight, the discovery being registered by the executor as "p1". *)
Definition started : Manager :=
  fst (startContinuousSession sessionConfig "s1" "p1" 0 empty).

Definition noDns : string -> DnsBehaviour := fun _ => DnsHangs.
Definition noProbe : string -> ProbeBehaviour := fun _ => ProbeHangs.

End Samples.

(** ** Further notions and samples *)

Module MoreNotions.
Import Js Async HopProcessor HopOps HopBuild HopAnalysis StatisticsCalc TracerouteExecutor
       TracerouteConfig TracerouteService ContinuousTracerouteManager Shutdown.

(** The latencies of a hop are not negative. *)
Definition nonnegLatencies (h : Hop) : Prop :=
  Forall (fun x => (0 <= x)%Q) (times h) /\
  forall p, avgLatency h = Some p -> (0 <= p)%Q.

(** The hop carries no probe data. *)
Definition unprobed (h : Hop) : Prop := avgLatency h = None /\ packetLoss h = None.

(** The address of the hop is one the back-fill of [trace] accepts. *)
Definition usableIp (h : Hop) : Prop :=
  truthyS (ip h) <> None /\ ipIs h "Request timed out." = false /\ ipIs h "*" = false.

Definition isCompleteUpdate (u : Update) : bool :=
  match u with UComplete _ => true | UHop _ _ => false end.

(** The event ends the discovery process. *)
Definition endsDiscovery (ev : TracerEvent) : Prop :=
  match ev with EvClose _ | EvError _ => True | _ => False end.

(** No hop is marked reachable without having been probed. *)
Definition reachableOnlyIfPinged (hops : list Hop) : Prop :=
  Forall (fun h => isReachable h = true -> wasPinged h = true) hops.

(** A closure that is still running belongs to a registered session. *)
Definition runningIsRegistered (m : Manager) : Prop :=
  forall sessionId vs,
    closures m !! sessionId = Some vs -> v_isRunning vs = true ->
    is_Some (activeSessions m !! sessionId).

(** The reverse lookup gives no name before [timeoutMs]. *)
Definition noTimelyName (d : DnsBehaviour) (timeoutMs : nat) : Prop :=
  match d with
  | DnsAnswers after _ => (timeoutMs <= after)%nat
  | _ => True
  end.


(** What holds of the variables of an [execute] call between two events:
    the process is registered until the call completes, the promise is
    settled exactly when it has, and it is never rejected. *)
Definition execInv (st : ExecState) : Prop :=
  ex_registered st = negb (ex_isCompleted st) /\
  (ex_isCompleted st = true <-> is_Some (ex_settled st)) /\
  (forall msg, ex_settled st <> Some (Rejected msg)).

(** The index and the address of a hop. *)
Definition hopId (h : Hop) : Z * option string := (hop h, ip h).


End MoreNotions.

Module MoreSamples.
Import Js Async HopProcessor HopOps HopBuild HopAnalysis StatisticsCalc TracerouteExecutor
       TracerouteConfig TracerouteService ContinuousTracerouteManager Shutdown.
Import Notions Samples MoreNotions.

(** What [validateConfig] returns for [request]. *)
Definition requestValidated : Config :=
  mkConfig "example.org" 30 0 icmp None false 5000 true true 1000
           true 50 true true 15 false.

(** A hop seen at 12 ms by the discovery and probed at 30 ms. *)
Definition divergingHop : Hop :=
  mkHop 2 (Some "10.0.0.2") None [12%Q] None true (Some 30%Q) None None None None None
        0 None None None.

(** A hop probed at 80 ms. *)
Definition slowHop : Hop := plainHop 5 "10.0.0.5" (Some 80%Q).

(** An unprobed hop with a usable address, stamped at instant 7. *)
Definition silentHop : Hop :=
  mkHop 6 (Some "10.0.0.6") None [] None false None None None None None None
        7 None None None.


(** A hop probed with success at 9 ms. *)
Definition probedHop : Hop :=
  mkHop 7 (Some "10.0.0.7") None [8%Q] (Some [mkPingResult true (Some 9%Q) None None])
        true (Some 9%Q) (Some 0%Q) (Some 1) None None None 7 (Some 1) None None.

Definition rawHop1 : RawHop := mkRaw 1 (Some "10.0.0.1") (Some 2%Q).

End MoreSamples.

(** * Properties *)

(** ** Latency trend *)

Module StatisticsFacts.
Import Js TracerouteStatistics.
Import Notions Samples.

Lemma Qzerob_false (x : Q) : ~ (x == 0)%Q -> Qzerob x = false.
Proof.
  intros Hx. unfold Qzerob. destruct (Qeq_bool x 0) eqn:E; [|reflexivity].
  apply Qeq_bool_iff in E. contradiction.
Qed.

Lemma Qgtb_true (x c : Q) : (c < x)%Q -> Qgtb x c = true.
Proof.
  intros H. unfold Qgtb, Qltb. destruct (Qle_bool x c) eqn:E; [|reflexivity].
  apply Qle_bool_iff in E. exfalso. apply (Qlt_not_le _ _ H E).
Qed.

Lemma Qgtb_false (x c : Q) : (x <= c)%Q -> Qgtb x c = false.
Proof.
  intros H. unfold Qgtb, Qltb. apply Qle_bool_iff in H. rewrite H. reflexivity.
Qed.

Lemma Qltb_true (x c : Q) : (x < c)%Q -> Qltb x c = true.
Proof. intros H. apply (Qgtb_true c x H). Qed.

Lemma Qltb_false (x c : Q) : (c <= x)%Q -> Qltb x c = false.
Proof. intros H. apply (Qgtb_false c x H). Qed.





End StatisticsFacts.

Module TrendClaims.
Import Js TracerouteStatistics StatisticsFacts.
Import Notions Samples.




(** When the first-half mean is zero the division yields an infinity or
    NaN: a positive second-half mean reads as [increasing], a zero one as
    [stable]. *)
Example calculateTrend_zero_first_half :
  calculateTrend [0; 0; 0; 4]%Q = increasing /\
  calculateTrend [0; 0; 0; 0]%Q = stable.
Proof. split; vm_compute; reflexivity. Qed.

End TrendClaims.

(** ** Priority of a hop *)

Module PriorityClaims.
Import Js HopProcessor StatisticsFacts.
Import Notions Samples.

(** C4 (as amended).  [getHopPriority] returns 1 when the probe latency
    (a missing latency counting as 0) is below 5 ms, 2 when below 10 ms,
    3 when below 20 ms and 4 when below 50 ms, whatever the skip
    recommendation is; from 50 ms on it returns 999, the lowest priority,
    for a hop [analyzeSlowHop] recommends for skip, and 5 otherwise. *)
Theorem getHopPriority_bands (h : Hop) :
  ((rankedLatency h < 5)%Q -> getHopPriority h = 1) /\
  ((5 <= rankedLatency h)%Q -> (rankedLatency h < 10)%Q -> getHopPriority h = 2) /\
  ((10 <= rankedLatency h)%Q -> (rankedLatency h < 20)%Q -> getHopPriority h = 3) /\
  ((20 <= rankedLatency h)%Q -> (rankedLatency h < 50)%Q -> getHopPriority h = 4) /\
  ((50 <= rankedLatency h)%Q ->
   getHopPriority h = if shouldSkip (analyzeSlowHop h) then 999 else 5).
Proof.
  unfold getHopPriority, rankedLatency.
  set (l := orQ (avgLatency h) 0).
  assert (Hmono : forall a b : Q, (a <= l)%Q -> (b <= a)%Q -> Qltb l b = false).
  { intros a b Ha Hb. apply Qltb_false. apply (Qle_trans _ a); assumption. }
  repeat split.
  - intros H. rewrite (Qltb_true _ _ H). reflexivity.
  - intros H1 H2. rewrite (Qltb_false _ _ H1), (Qltb_true _ _ H2). reflexivity.
  - intros H1 H2.
    rewrite (Hmono 10%Q 5%Q H1), (Qltb_false _ _ H1), (Qltb_true _ _ H2);
      [reflexivity | discriminate].
  - intros H1 H2.
    rewrite (Hmono 20%Q 5%Q H1), (Hmono 20%Q 10%Q H1), (Qltb_false _ _ H1),
      (Qltb_true _ _ H2); [reflexivity | discriminate | discriminate].
  - intros H1.
    rewrite (Hmono 50%Q 5%Q H1), (Hmono 50%Q 10%Q H1), (Hmono 50%Q 20%Q H1),
      (Qltb_false _ _ H1); [reflexivity | discriminate ..].
Qed.

Lemma getHopPriority_bands_witness :
  getHopPriority degradingHop = 1 /\ getHopPriority borderHop = 5.
Proof.
  split.
  - apply (getHopPriority_bands degradingHop). vm_compute. reflexivity.
  - destruct (getHopPriority_bands borderHop) as (_ & _ & _ & _ & H).
    rewrite H; [reflexivity | vm_compute; discriminate].
Defined.

(** C4, as the claim states it: a hop recommended for skip is ranked
    last.  [degradingHop] is recommended for skip (its recent latency is
    more than 1.5 times its current one) and still gets priority 1, ahead
    of [borderHop], which is not recommended for skip and gets 5. *)
Lemma getHopPriority_skip_not_last :
  shouldSkip (analyzeSlowHop degradingHop) = true /\
  getHopPriority degradingHop = 1 /\
  shouldSkip (analyzeSlowHop borderHop) = false /\
  getHopPriority borderHop = 5.
Proof. repeat split; vm_compute; reflexivity. Qed.

(** Above 50 ms a hop is always recommended for skip, so 5 is the priority
    of the hops at exactly 50 ms only. *)
Lemma analyzeSlowHop_skips_above_50 (h : Hop) (lat : Q) :
  avgLatency h = Some lat -> (50 < lat)%Q -> shouldSkip (analyzeSlowHop h) = true.
Proof.
  intros E Hlat. unfold analyzeSlowHop, truthyQ. rewrite E.
  rewrite Qzerob_false.
  2:{ intros Hz. rewrite Hz in Hlat. discriminate Hlat. }
  rewrite (Qgtb_true lat 50 Hlat). cbv zeta.
  destruct (Qgtb lat 100); destruct (pingHistory h) as [[|e ph]|];
    try destruct (Qgtb (avgRecentLatency _) _);
    destruct (hasPacketLoss h); reflexivity.
Qed.

End PriorityClaims.

(** ** Skip and limit classes of a single run *)

Module ClassifyFacts.
Import Js HopProcessor TracerouteService.
Import Notions Samples.

#[local] Instance byPriority_trans : Transitive byPriority.
Proof. unfold byPriority. intros a b c Hab Hbc. lia. Qed.

Lemma insertByPriority_perm (x : Item) (l : list Item) :
  insertByPriority x l ≡ₚ x :: l.
Proof.
  induction l as [|y l IH]; cbn; [reflexivity|].
  destruct (priority x <=? priority y); [reflexivity|].
  rewrite IH. apply Permutation_swap.
Qed.

Lemma sortByPriority_perm (l : list Item) : sortByPriority l ≡ₚ l.
Proof.
  induction l as [|x l IH]; cbn; [reflexivity|].
  rewrite insertByPriority_perm, IH. reflexivity.
Qed.

Lemma insertByPriority_sorted (x : Item) (l : list Item) :
  StronglySorted byPriority l -> StronglySorted byPriority (insertByPriority x l).
Proof.
  induction l as [|y l IH]; intros Hs; cbn.
  - repeat constructor.
  - apply StronglySorted_cons in Hs as [Hy Hl].
    destruct (priority x <=? priority y) eqn:E.
    + apply Z.leb_le in E. apply StronglySorted_cons. split.
      * constructor; [exact E|].
        eapply Forall_impl; [exact Hy|]. intros z Hz. unfold byPriority in *. lia.
      * apply StronglySorted_cons. split; assumption.
    + apply Z.leb_gt in E. apply StronglySorted_cons. split; [|apply IH; exact Hl].
      rewrite insertByPriority_perm. constructor; [|exact Hy].
      unfold byPriority. lia.
Qed.

Lemma sortByPriority_sorted (l : list Item) :
  StronglySorted byPriority (sortByPriority l).
Proof.
  induction l as [|x l IH]; cbn; [constructor|].
  apply insertByPriority_sorted, IH.
Qed.

(** The sort keeps the order of the items of equal priority: among the
    items of one priority the output lists them as the input does. *)
Lemma insertByPriority_stable (p : Z) (x : Item) (l : list Item) :
  StronglySorted byPriority l ->
  filter (fun it => priority it = p) (insertByPriority x l)
  = filter (fun it => priority it = p) (x :: l).
Proof.
  induction l as [|y l IH]; intros Hs; cbn; [reflexivity|].
  apply StronglySorted_cons in Hs as [Hy Hl].
  destruct (priority x <=? priority y) eqn:E; [reflexivity|].
  apply Z.leb_gt in E.
  rewrite filter_cons. rewrite (IH Hl). rewrite !filter_cons.
  repeat case_decide; try reflexivity. lia.
Qed.

Lemma sortByPriority_stable (p : Z) (l : list Item) :
  filter (fun it => priority it = p) (sortByPriority l)
  = filter (fun it => priority it = p) l.
Proof.
  induction l as [|x l IH]; cbn; [reflexivity|].
  rewrite insertByPriority_stable by apply sortByPriority_sorted.
  rewrite !filter_cons, IH. reflexivity.
Qed.

Lemma keep_skip_perm (l : list Item) :
  l ≡ₚ filter (fun it => skipped it = true) l ++ filter (fun it => skipped it = false) l.
Proof.
  rewrite <- (filter_app_complement (fun it => skipped it = true) l) at 1.
  rewrite (list_filter_iff (fun it => skipped it = false)
                           (fun it => ~ skipped it = true)); [reflexivity|].
  intros it. destruct (skipped it); split; congruence.
Qed.

(** The hop objects of [hopAnalysis] are pairwise distinct. *)
Lemma hopAnalysis_NoDup (config : Config) (hops : list Hop) :
  NoDup (map (analyze config) (validHops hops)).
Proof.
  apply (NoDup_fmap_1 idx).
  change (map (analyze config) (validHops hops)) with (analyze config <$> validHops hops).
  rewrite <- list_fmap_compose.
  change (idx ∘ analyze config) with (@fst nat Hop).
  unfold validHops.
  apply (sublist_NoDup _ (fst <$> imap (fun i h => (i, h)) hops)).
  - rewrite fmap_imap.
    rewrite (imap_ext _ (fun j _ => j)) by reflexivity.
    rewrite (imap_seq_0 hops (fun j => j)), list_fmap_id. apply NoDup_seq.
  - apply fmap_sublist, sublist_filter.
Qed.

Lemma hopAnalysis_fields (config : Config) (hops : list Hop) (it : Item) :
  it ∈ map (analyze config) (validHops hops) ->
  skipped it = sd_shouldSkip (shouldSkipHop (item_hop it) config)
  /\ priority it = getHopPriority (item_hop it)
  /\ isValidHop (item_hop it) = true.
Proof.
  intros Hin. apply list_elem_of_fmap in Hin as (p & -> & Hp).
  unfold validHops in Hp. apply list_elem_of_filter in Hp as [Hv _].
  repeat split. exact Hv.
Qed.

End ClassifyFacts.

Module ClassifyClaims.
Import Js HopProcessor TracerouteService ClassifyFacts PriorityClaims.
Import Notions Samples.

(** C3.  In a single run the analysed valid hops fall into three disjoint
    classes: the skipped ones, which are exactly those [shouldSkipHop]
    recommends for skip; the probed ones; and the limited ones, none of
    which is recommended for skip.  When the hops kept exceed
    [maxHopsToProcess], exactly [maxHopsToProcess] of them are probed, they
    are the best by ascending priority, and the remainder is the limited
    class; otherwise every kept hop is probed.  With [skipSlowHops = true]
    and [slowHopThreshold = 50] the hops of latency 60 and 200 are
    recommended for skip and the hop of latency 10 is not; with
    [maxHopsToProcess = 1] and three kept hops of priorities 4, 1 and 3, the
    hop of priority 1 alone is probed and the two others are limited. *)
Theorem classify_partition :
  (forall (config : Config) (hops : list Hop),
     let hopAnalysis := map (analyze config) (validHops hops) in
     let c := classify config hopAnalysis in
     let kept := filter (fun it => skipped it = false) hopAnalysis in
     hopAnalysis ≡ₚ skippedHops c ++ finalHopsToPing c ++ limitedHops c /\
     NoDup (skippedHops c ++ finalHopsToPing c ++ limitedHops c) /\
     (forall it, it ∈ hopAnalysis ->
        (it ∈ skippedHops c <->
         sd_shouldSkip (shouldSkipHop (item_hop it) config) = true)) /\
     (forall it, it ∈ finalHopsToPing c ++ limitedHops c ->
        sd_shouldSkip (shouldSkipHop (item_hop it) config) = false) /\
     (0 < maxHopsToProcess config ->
      maxHopsToProcess config < Z.of_nat (length kept) ->
      Z.of_nat (length (finalHopsToPing c)) = maxHopsToProcess config /\
      finalHopsToPing c ++ limitedHops c ≡ₚ kept /\
      (forall a b, a ∈ finalHopsToPing c -> b ∈ limitedHops c ->
         getHopPriority (item_hop a) <= getHopPriority (item_hop b))) /\
     (Z.of_nat (length kept) <= maxHopsToProcess config ->
      finalHopsToPing c = kept /\ limitedHops c = [])) /\
  map (fun h => sd_shouldSkip (shouldSkipHop h (sampleConfig 15))) [hop10; hop60; hop200]
    = [false; true; true] /\
  map item_hop (skippedHops (classesOf (sampleConfig 15) [hop10; hop60; hop200]))
    = [hop60; hop200] /\
  map item_hop (finalHopsToPing (classesOf (sampleConfig 1) [hop30; hop3; hop12]))
    = [hop3] /\
  map item_hop (limitedHops (classesOf (sampleConfig 1) [hop30; hop3; hop12]))
    = [hop12; hop30] /\
  skippedHops (classesOf (sampleConfig 1) [hop30; hop3; hop12]) = [].
Proof.
  split; [|repeat split; vm_compute; reflexivity].
  intros config hops hopAnalysis c kept.
  pose proof (hopAnalysis_NoDup config hops) as Hnd. fold hopAnalysis in Hnd.
  pose proof (hopAnalysis_fields config hops) as Hfields. fold hopAnalysis in Hfields.
  assert (Hskip : skippedHops c = filter (fun it => skipped it = true) hopAnalysis).
  { unfold c, classify. destruct (_ && _); reflexivity. }
  assert (Hrest : finalHopsToPing c ++ limitedHops c ≡ₚ kept).
  { unfold c, classify. fold kept. destruct (_ && _); cbn.
    - rewrite take_drop. apply sortByPriority_perm.
    - rewrite app_nil_r. reflexivity. }
  assert (Hperm : hopAnalysis ≡ₚ skippedHops c ++ finalHopsToPing c ++ limitedHops c).
  { rewrite Hrest, Hskip. apply keep_skip_perm. }
  split; [exact Hperm|]. split; [rewrite <- Hperm; exact Hnd|].
  split; [|split; [|split]].
  - intros it Hin. destruct (Hfields it Hin) as (Hs & _ & _).
    rewrite Hskip, list_elem_of_filter, <- Hs. tauto.
  - intros it Hin. rewrite Hrest in Hin. unfold kept in Hin.
    apply list_elem_of_filter in Hin as [Hk Hin].
    destruct (Hfields it Hin) as (Hs & _ & _). rewrite <- Hs. exact Hk.
  - intros Hpos Hlim. split; [|split; [exact Hrest|]].
    + unfold c, classify. fold kept.
      assert (E1 : (maxHopsToProcess config =? 0) = false) by (apply Z.eqb_neq; lia).
      assert (E2 : (maxHopsToProcess config <? Z.of_nat (length kept)) = true)
        by (apply Z.ltb_lt; exact Hlim).
      rewrite E1, E2. cbn. rewrite length_take_le.
      * lia.
      * rewrite (Permutation_length (sortByPriority_perm kept)). lia.
    + intros a b Ha Hb.
      assert (Ha' : a ∈ hopAnalysis).
      { assert (H : a ∈ kept) by (rewrite <- Hrest; apply elem_of_app; left; exact Ha).
        apply list_elem_of_filter in H. tauto. }
      assert (Hb' : b ∈ hopAnalysis).
      { assert (H : b ∈ kept) by (rewrite <- Hrest; apply elem_of_app; right; exact Hb).
        apply list_elem_of_filter in H. tauto. }
      destruct (Hfields a Ha') as (_ & <- & _). destruct (Hfields b Hb') as (_ & <- & _).
      revert Ha Hb. unfold c, classify. fold kept.
      destruct (_ && _); cbn; [|intros _ Hb; apply elem_of_nil in Hb; contradiction].
      intros Ha Hb.
      apply (StronglySorted_app_1_elem_of byPriority
               (take (Z.to_nat (maxHopsToProcess config)) (sortByPriority kept))
               (drop (Z.to_nat (maxHopsToProcess config)) (sortByPriority kept)));
        [rewrite take_drop; apply sortByPriority_sorted | exact Ha | exact Hb].
  - intros Hle. unfold c, classify. fold kept.
    assert (E2 : (maxHopsToProcess config <? Z.of_nat (length kept)) = false)
      by (apply Z.ltb_ge; exact Hle).
    rewrite E2, andb_false_r. split; reflexivity.
Qed.

Lemma classify_partition_witness :
  Z.of_nat (length (finalHopsToPing (classesOf (sampleConfig 1) [hop30; hop3; hop12]))) = 1.
Proof.
  destruct classify_partition as [H _].
  destruct (H (sampleConfig 1) [hop30; hop3; hop12]) as (_ & _ & _ & _ & Hlim & _).
  apply Hlim; vm_compute; reflexivity.
Defined.

(** A hop that carries no probe data is not recommended for skip and has
    priority 1. *)
Lemma unprobed_hop_kept (h : Hop) (config : Config) :
  avgLatency h = None -> packetLoss h = None ->
  sd_shouldSkip (shouldSkipHop h config) = false /\ getHopPriority h = 1.
Proof.
  intros E1 E2.
  unfold shouldSkipHop, getHopPriority, analyzeSlowHop, hasPacketLoss, orQ.
  rewrite E1, E2. cbn. rewrite !andb_false_r. split; reflexivity.
Qed.

(** The hops [trace] analyses come from [processHop] with the probe
    deferred: they carry no probe data yet. *)
Lemma processHop_deferred_unprobed raw config rn sid dns probe t0 counters counters' o :
  HopBuild.processHop (HopBuild.Payload raw) config rn sid false dns probe t0 counters
    = (counters', Some (Async.Fulfilled o)) ->
  avgLatency o = None /\ packetLoss o = None.
Proof.
  unfold HopBuild.processHop. cbv zeta.
  set (h0 := mkHop _ _ _ _ _ _ _ _ _ _ _ _ _ _ _ _).
  set (h1 := match HopBuild.truthyS (ip h0) with Some _ => _ | None => _ end).
  assert (H1 : avgLatency h1 = None /\ packetLoss h1 = None).
  { unfold h1. destruct (HopBuild.truthyS (ip h0)); [destruct (resolveHosts config)|];
      split; reflexivity. }
  rewrite andb_false_l.
  destruct (HopBuild.truthyS (ip h1)); intros E; inversion E; subst; exact H1.
Qed.

End ClassifyClaims.

(** ** Hop history of a session *)

Module HistoryFacts.
Import Js Async HopProcessor HopOps HopBuild.
Import Notions Samples.

Lemma tl_drop {A} (k : nat) (l : list A) : tl (drop k l) = drop (S k) l.
Proof.
  revert k. induction l as [|x l IH]; intros [|k]; cbn; try reflexivity.
  apply IH.
Qed.

Lemma length_slice_last {A} (n : nat) (l : list A) :
  length (slice_last n l) = Nat.min (length l) n.
Proof. unfold slice_last. rewrite length_drop. lia. Qed.

(** Pushing onto the last [n] entries and shifting when the bound is
    passed leaves the last [n] entries of the longer sequence. *)
Lemma slice_last_push {A} (n : nat) (xs : list A) (x : A) :
  shiftIfOver n (slice_last n xs ++ [x]) = slice_last n (xs ++ [x]).
Proof.
  unfold shiftIfOver, slice_last.
  rewrite !length_app, length_drop. cbn [length].
  destruct (n <? length xs - (length xs - n) + 1)%nat eqn:E.
  - apply Nat.ltb_lt in E.
    assert (Hk : (length xs - n <= length xs)%nat) by lia.
    rewrite <- (drop_app_le xs [x] _ Hk), tl_drop. f_equal. lia.
  - apply Nat.ltb_ge in E.
    replace (length xs - n)%nat with 0%nat by lia.
    replace (length xs + 1 - n)%nat with 0%nat by lia. reflexivity.
Qed.

Lemma slice_last_keep {A} (n : nat) (xs : list A) :
  shiftIfOver n (slice_last n xs) = slice_last n xs.
Proof.
  unfold shiftIfOver. rewrite length_slice_last.
  assert (E : (n <? Nat.min (length xs) n)%nat = false) by (apply Nat.ltb_ge; lia).
  rewrite E. reflexivity.
Qed.

Lemma slice_last_nil {A} (n : nat) : slice_last n (@nil A) = [].
Proof. reflexivity. Qed.

Lemma keyOf_nonempty (n : Z) (addr : option string) : String.eqb (keyOf n addr) "" = false.
Proof.
  unfold keyOf. destruct (pretty n); reflexivity.
Qed.

Lemma observes_key (n : Z) (addr : option string) (o : Hop) :
  observes n addr o -> hopKeyOf o = keyOf n addr.
Proof.
  intros (_ & _ & Hk). unfold hopKeyOf. rewrite Hk, keyOf_nonempty. reflexivity.
Qed.

(** What [processHop] returns observes the raw hop it was given. *)
Lemma processHop_observes raw config rn sid now dns probe t0 counters counters' o :
  processHop (Payload raw) config rn sid now dns probe t0 counters
    = (counters', Some (Fulfilled o)) ->
  observes (raw_hop raw) (raw_ip raw) o.
Proof.
  unfold processHop. cbv zeta.
  set (h0 := mkHop _ _ _ _ _ _ _ _ _ _ _ _ _ _ _ _).
  set (h1 := match truthyS (ip h0) with Some _ => _ | None => _ end).
  assert (H1 : observes (raw_hop raw) (raw_ip raw) h1).
  { unfold h1. destruct (truthyS (ip h0)); [destruct (resolveHosts config)|];
      repeat split. }
  destruct (truthyS (ip h1)) as [addr|].
  - destruct (now && pingHops config).
    + unfold pingHop.
      destruct (pingHopWithRetry (probe addr) t0 300) as [[t [r|msg]]|]; cbn;
        intros E; inversion E; subst; destruct H1 as (? & ? & ?); repeat split; assumption.
    + intros E; inversion E; subst. exact H1.
  - intros E; inversion E; subst. exact H1.
Qed.

Section OneKey.
Variables (n : Z) (addr : option string).
Let key := keyOf n addr.

(** One observation of the hop, its record being in the map. *)
Lemma updateHopHistory_present (o stored : Hop) (m : gmap string Hop)
    (rh : list RunEntry) (ph : list PingEntry) :
  observes n addr o ->
  m !! key = Some stored ->
  history stored = Some rh -> pingHistory stored = Some ph ->
  let stored' :=
    set_histories stored
      (shiftIfOver 10 (rh ++ [runEntryOf o]))
      (shiftIfOver 20 (ph ++ option_list (pingEntryOf o))) in
  updateHopHistory o m = Some (stored', <[key := stored']> m).
Proof.
  intros Ho Hm Hrh Hph. unfold updateHopHistory.
  rewrite (observes_key n addr o Ho). fold key. rewrite Hm. cbn zeta.
  rewrite Hm, Hrh, Hph.
  destruct (pingEntryOf o); cbn [option_list]; rewrite ?app_nil_r; reflexivity.
Qed.

(** The first observation of the hop creates its record. *)
Lemma updateHopHistory_absent (o : Hop) (m : gmap string Hop) :
  observes n addr o ->
  m !! key = None ->
  let stored' :=
    set_histories o
      (slice_last 10 [runEntryOf o])
      (slice_last 20 (option_list (pingEntryOf o))) in
  updateHopHistory o m = Some (stored', <[key := stored']> m).
Proof.
  intros Ho Hm. unfold updateHopHistory.
  rewrite (observes_key n addr o Ho). fold key. rewrite Hm. cbn zeta.
  rewrite lookup_insert_eq. cbn [history pingHistory set_histories].
  rewrite insert_insert_eq.
  destruct (pingEntryOf o); cbn [option_list]; reflexivity.
Qed.

Lemma window_ping (ys : list PingEntry) (o : Hop) :
  shiftIfOver 20 (slice_last 20 ys ++ option_list (pingEntryOf o))
  = slice_last 20 (ys ++ option_list (pingEntryOf o)).
Proof.
  destruct (pingEntryOf o); cbn [option_list].
  - apply slice_last_push.
  - rewrite !app_nil_r. apply slice_last_keep.
Qed.

(** Observations of the hop applied to a map that holds its record:
    the record stays the only one under the key, the other keys are left
    alone, and both windows slide. *)
Lemma updateAll_present (obs : list Hop) :
  Forall (observes n addr) obs ->
  forall (m : gmap string Hop) (stored : Hop) (xs : list RunEntry) (ys : list PingEntry),
    m !! key = Some stored ->
    history stored = Some (slice_last 10 xs) ->
    pingHistory stored = Some (slice_last 20 ys) ->
    exists m' stored',
      updateAll obs m = Some m' /\
      m' !! key = Some stored' /\
      dom m' = dom m /\
      (forall k, k <> key -> m' !! k = m !! k) /\
      history stored' = Some (slice_last 10 (xs ++ map runEntryOf obs)) /\
      pingHistory stored' = Some (slice_last 20 (ys ++ omap pingEntryOf obs)).
Proof.
  induction 1 as [|o obs Ho _ IH]; intros m stored xs ys Hm Hrh Hph.
  - exists m, stored. cbn. rewrite !app_nil_r. repeat split; assumption.
  - cbn [updateAll].
    rewrite (updateHopHistory_present o stored m _ _ Ho Hm Hrh Hph).
    rewrite slice_last_push, window_ping.
    set (stored1 := set_histories stored _ _).
    destruct (IH (<[key := stored1]> m) stored1
                 (xs ++ [runEntryOf o]) (ys ++ option_list (pingEntryOf o)))
      as (m' & stored' & Hall & Hk & Hdom & Hother & Hh & Hp);
      [apply lookup_insert_eq | reflexivity | reflexivity |].
    exists m', stored'. split; [exact Hall|]. split; [exact Hk|].
    split; [|split; [|split]].
    + rewrite Hdom, dom_insert_L.
      apply subseteq_union_1_L, singleton_subseteq_l, elem_of_dom. eauto.
    + intros k Hne. rewrite (Hother k Hne). apply lookup_insert_ne. congruence.
    + rewrite Hh. cbn [map]. rewrite <- app_assoc. reflexivity.
    + rewrite Hp. cbn [omap list_omap].
      destruct (pingEntryOf o); cbn [option_list]; rewrite <- ?app_assoc; reflexivity.
Qed.

End OneKey.

End HistoryFacts.

Module HistoryClaims.
Import Js HopProcessor HopOps HistoryFacts.
Import Notions Samples.

(** C2.  A sequence of N >= 1 observations that carry the same hop index
    and address, applied by [updateHopHistory] to a session map that has no
    record of the hop yet, leaves exactly one record under the hop key and
    creates no other record; the run history of the record is the last
    min(N, 10) observations in the order they came, and its ping history
    is the last 20, at most, of the observations that carried a latency, in
    the order they came: the oldest entry leaves first. *)
Theorem updateHopHistory_windows (n : Z) (addr : option string)
    (obs : list Hop) (m0 : gmap string Hop) :
  Forall (observes n addr) obs ->
  obs <> [] ->
  m0 !! keyOf n addr = None ->
  exists (m : gmap string Hop) (stored : Hop),
    updateAll obs m0 = Some m /\
    m !! keyOf n addr = Some stored /\
    size m = S (size m0) /\
    (forall k, k <> keyOf n addr -> m !! k = m0 !! k) /\
    history stored = Some (slice_last 10 (map runEntryOf obs)) /\
    length (runHistoryOf stored) = Nat.min (length obs) 10 /\
    pingHistory stored = Some (slice_last 20 (omap pingEntryOf obs)) /\
    (length (pingHistoryOf stored) <= 20)%nat.
Proof.
  intros Hobs Hne Hm0. destruct obs as [|o rest]; [congruence|].
  apply Forall_cons in Hobs as [Ho Hrest].
  cbn [updateAll]. rewrite (updateHopHistory_absent n addr o m0 Ho Hm0).
  set (stored1 := set_histories o _ _).
  destruct (updateAll_present n addr rest Hrest (<[keyOf n addr := stored1]> m0) stored1
              [runEntryOf o] (option_list (pingEntryOf o)))
    as (m & stored & Hall & Hk & Hdom & Hother & Hh & Hp);
    [apply lookup_insert_eq | reflexivity | reflexivity |].
  assert (Hp' : pingHistory stored = Some (slice_last 20 (omap pingEntryOf (o :: rest)))).
  { rewrite Hp. cbn [omap list_omap app]. destruct (pingEntryOf o); reflexivity. }
  exists m, stored. split; [exact Hall|]. split; [exact Hk|].
  split; [|split; [|split; [|split; [|split]]]].
  - rewrite <- (size_dom (D := gset string) m), Hdom, size_dom.
    apply map_size_insert_None. exact Hm0.
  - intros k Hkne. rewrite (Hother k Hkne). apply lookup_insert_ne. congruence.
  - exact Hh.
  - unfold runHistoryOf. rewrite Hh.
    rewrite length_slice_last, length_app, length_map. reflexivity.
  - exact Hp'.
  - unfold pingHistoryOf. rewrite Hp'. rewrite length_slice_last. lia.
Qed.

Lemma updateHopHistory_windows_witness :
  exists (m : gmap string Hop) (stored : Hop),
    updateAll [seenOnce; seenTwice] ∅ = Some m /\
    m !! keyOf 3 (Some "10.0.0.3") = Some stored /\
    size m = 1%nat /\
    length (runHistoryOf stored) = 2%nat /\
    (length (pingHistoryOf stored) <= 20)%nat.
Proof.
  destruct (updateHopHistory_windows 3 (Some "10.0.0.3") [seenOnce; seenTwice] ∅)
    as (m & stored & H1 & H2 & H3 & _ & _ & H6 & _ & H8).
  - repeat constructor.
  - discriminate.
  - apply lookup_empty.
  - exists m, stored. rewrite map_size_empty in H3. repeat split; assumption.
Defined.

End HistoryClaims.

(** ** The probe and the probe batch *)

Module ProbeFacts.
Import Js Async HopProcessor HopOps TracerouteService.
Import Notions Samples.

Lemma errorResult_is_error (msg : string) : isErrorResult (errorResult msg).
Proof. repeat split. exists msg. reflexivity. Qed.

(** What [pingHopWithRetry] does, case by case. *)
Lemma pingHopWithRetry_cases (b : ProbeBehaviour) (t0 timeout : nat) :
  exists (t : nat) (r : PingResult),
    pingHopWithRetry b t0 timeout = Some (t, Fulfilled r) /\
    (t <= t0 + timeout)%nat /\
    (probeLost b timeout -> isErrorResult r) /\
    (forall after r', b = ProbeAnswers after r' -> (after < timeout)%nat -> r = r').
Proof.
  destruct b as [msg|after r|after msg|];
    unfold pingHopWithRetry, probePromise, timer, race.
  - exists t0, (errorResult msg). repeat split; try lia.
    + exists msg. reflexivity.
    + intros ? ? E. discriminate E.
  - destruct (t0 + after <? t0 + timeout)%nat eqn:E.
    + apply Nat.ltb_lt in E. exists (t0 + after)%nat, r.
      split; [reflexivity|]. split; [lia|]. split.
      * intros Hlost. unfold probeLost in Hlost. lia.
      * intros ? ? Eb ?. inversion Eb. reflexivity.
    + apply Nat.ltb_ge in E. exists (t0 + timeout)%nat, (errorResult "Ping timeout").
      split; [reflexivity|]. split; [lia|]. split.
      * intros _. apply errorResult_is_error.
      * intros a r' Eb Hlt. inversion Eb; subst. lia.
  - destruct (t0 + after <? t0 + timeout)%nat eqn:E.
    + apply Nat.ltb_lt in E. exists (t0 + after)%nat, (errorResult msg).
      split; [reflexivity|]. split; [lia|]. split.
      * intros _. apply errorResult_is_error.
      * intros ? ? Eb. discriminate Eb.
    + exists (t0 + timeout)%nat, (errorResult "Ping timeout").
      split; [reflexivity|]. split; [lia|]. split.
      * intros _. apply errorResult_is_error.
      * intros ? ? Eb. discriminate Eb.
  - exists (t0 + timeout)%nat, (errorResult "Ping timeout").
    split; [reflexivity|]. split; [lia|]. split.
    + intros _. apply errorResult_is_error.
    + intros ? ? Eb. discriminate Eb.
Qed.

Lemma last_pushBounded {A} (n : nat) (l : list A) (e : A) :
  (1 <= n)%nat -> last (pushBounded n l e) = Some e.
Proof.
  intros Hn. unfold pushBounded.
  destruct (n <? length (l ++ [e]))%nat eqn:E; [|apply last_snoc].
  apply Nat.ltb_lt in E. rewrite length_app in E. cbn in E.
  destruct l as [|x l]; [cbn in E; lia|]. cbn [app tl]. apply last_snoc.
Qed.

Lemma length_pushBounded {A} (n : nat) (l : list A) (e : A) :
  (length l <= n)%nat -> (length (pushBounded n l e) <= n)%nat.
Proof.
  intros Hl. unfold pushBounded.
  destruct (n <? length (l ++ [e]))%nat eqn:E.
  - destruct l as [|x l]; cbn in *; [lia|]. rewrite length_app. cbn. lia.
  - apply Nat.ltb_ge in E. exact E.
Qed.

(** What the callback of the probe batch does for one hop. *)
Lemma pingItem_cases (b : ProbeBehaviour) (t0 : nat) (h : Hop) :
  exists (t : nat) (h' : Hop),
    pingItem b t0 h = Some (t, Fulfilled h') /\
    (t <= t0 + 1000)%nat /\
    hop h' = hop h /\ ip h' = ip h /\
    (probeFailed b 1000 ->
     isReachable h' = false /\ avgLatency h' = None /\
     exists e, last (pingHistoryOf h') = Some e /\ timeoutEntry e).
Proof.
  unfold pingItem.
  destruct (pingHopWithRetry_cases b t0 1000) as (t & r & -> & Ht & Hlost & Hans).
  eexists t, _. split; [reflexivity|]. split; [exact Ht|].
  split; [reflexivity|]. split; [reflexivity|].
  intros Hfail.
  assert (Hdead : alive r = false).
  { destruct b as [msg|after r0|after msg|]; try (apply Hlost; exact I).
    destruct (Nat.lt_ge_cases after 1000) as [Hlt|Hge].
    - rewrite (Hans after r0 eq_refl Hlt). destruct Hfail as [Hf|Hf]; [lia|exact Hf].
    - apply Hlost. exact Hge. }
  cbn. rewrite Hdead. split; [reflexivity|]. split; [reflexivity|].
  unfold pingHistoryOf at 1. cbn [pingHistory set_pingHistory].
  eexists. split; [apply last_pushBounded; lia|].
  split; [reflexivity|].
  eexists. split; reflexivity.
Qed.

(** The batch settles once its slowest callback has, with one outcome per
    promise. *)
Lemma allSettled_all {A} (t0 bound : nat) (ps : list (Promise A)) :
  (forall j p, ps !! j = Some p ->
     exists t o, p = Some (t, o) /\ (t <= bound)%nat) ->
  (t0 <= bound)%nat ->
  exists t outs,
    allSettled t0 ps = Some (t, Fulfilled outs) /\ (t <= bound)%nat /\
    length outs = length ps /\
    (forall j p, ps !! j = Some p ->
       exists tj o, p = Some (tj, o) /\ outs !! j = Some o).
Proof.
  intros Hall Ht0. induction ps as [|p ps IH].
  - exists t0, []. repeat split; [exact Ht0|]. intros j p Hj. discriminate Hj.
  - destruct (Hall 0%nat p eq_refl) as (t & o & -> & Ht).
    destruct IH as (t' & outs & E & Ht' & Hlen & Hpt).
    { intros j q Hj. apply (Hall (S j) q Hj). }
    exists (Nat.max t t'), (o :: outs). cbn [allSettled]. rewrite E.
    split; [reflexivity|]. split; [lia|]. split; [cbn; lia|].
    intros [|j] q Hj.
    + inversion Hj; subst. exists t, o. split; reflexivity.
    + apply (Hpt j q Hj).
Qed.


End ProbeFacts.

Module ProbeClaims.
Import Js Async HopProcessor HopOps TracerouteService ProbeFacts.
Import Notions Samples.

(** C10.  For every behaviour of the probe and every timeout, the promise
    of [pingHopWithRetry] is fulfilled, never rejected and never left
    pending; when the probe throws, is rejected, never answers, or answers
    only once the timer has fired, the result has [alive = false] and
    [time = null] and carries the error message. *)
Theorem pingHopWithRetry_always_resolves (b : ProbeBehaviour) (t0 timeout : nat) :
  exists (t : nat) (r : PingResult),
    pingHopWithRetry b t0 timeout = Some (t, Fulfilled r) /\
    (probeLost b timeout ->
     alive r = false /\ time r = None /\ exists msg, error r = Some msg).
Proof.
  destruct (pingHopWithRetry_cases b t0 timeout) as (t & r & E & _ & Hlost & _).
  exists t, r. split; [exact E | exact Hlost].
Qed.

Lemma pingHopWithRetry_always_resolves_witness :
  exists (t : nat) (r : PingResult),
    pingHopWithRetry ProbeHangs 0 300 = Some (t, Fulfilled r) /\
    alive r = false /\ time r = None /\ exists msg, error r = Some msg.
Proof.
  destruct (pingHopWithRetry_always_resolves ProbeHangs 0 300) as (t & r & E & H).
  exists t, r. split; [exact E|]. apply H. exact I.
Defined.

(** C1.  The probe step over any batch of hops settles, whatever each
    probe does: it yields one outcome per hop, every one fulfilled with
    the hop as its own callback left it, no later than 1000 ms after the
    start.  The outcome of a hop is what probing that hop alone gives: it
    depends on no other probe of the batch.  A hop whose probe fails or
    times out is recorded as unreachable, with no latency, and the last
    entry of its ping history is a timeout entry. *)
Theorem probeBatch_settles_all (probe : nat -> ProbeBehaviour) (t0 : nat)
    (final : list Item) :
  exists (t : nat) (outs : list (Outcome Hop)),
    probeBatch probe t0 final = Some (t, Fulfilled outs) /\
    (t <= t0 + 1000)%nat /\
    length outs = length final /\
    (forall j it, final !! j = Some it ->
       exists tj h',
         pingItem (probe j) t0 (item_hop it) = Some (tj, Fulfilled h') /\
         outs !! j = Some (Fulfilled h') /\
         (tj <= t0 + 1000)%nat /\
         (probeFailed (probe j) 1000 ->
          isReachable h' = false /\ avgLatency h' = None /\
          exists e, last (pingHistoryOf h') = Some e /\ timeoutEntry e)).
Proof.
  unfold probeBatch, pingPromises.
  destruct (allSettled_all t0 (t0 + 1000)
              (imap (fun j it => pingItem (probe j) t0 (item_hop it)) final))
    as (t & outs & E & Ht & Hlen & Hpt).
  - intros j p Hj. rewrite list_lookup_imap in Hj.
    destruct (final !! j) as [it|]; [|discriminate Hj]. cbn in Hj. inversion Hj.
    destruct (pingItem_cases (probe j) t0 (item_hop it)) as (tj & h' & -> & Htj & _).
    exists tj, (Fulfilled h'). split; [reflexivity | exact Htj].
  - lia.
  - exists t, outs. rewrite length_imap in Hlen.
    split; [exact E|]. split; [exact Ht|]. split; [exact Hlen|].
    intros j it Hj.
    destruct (pingItem_cases (probe j) t0 (item_hop it))
      as (tj & h' & Ep & Htj & _ & _ & Hfail).
    exists tj, h'. split; [exact Ep|]. split; [|split; [exact Htj | exact Hfail]].
    destruct (Hpt j (pingItem (probe j) t0 (item_hop it))) as (tj' & o & Eo & Ho).
    + rewrite list_lookup_imap, Hj. reflexivity.
    + rewrite Ep in Eo. inversion Eo; subst. exact Ho.
Qed.

Lemma probeBatch_settles_all_witness :
  exists (t : nat) (outs : list (Outcome Hop)),
    probeBatch oneHang 0 fiveItems = Some (t, Fulfilled outs) /\
    (t <= 1000)%nat /\ length outs = 5%nat /\
    exists h', outs !! 2%nat = Some (Fulfilled h') /\ isReachable h' = false.
Proof.
  destruct (probeBatch_settles_all oneHang 0 fiveItems)
    as (t & outs & E & Ht & Hlen & Hpt).
  exists t, outs. split; [exact E|]. split; [exact Ht|]. split; [exact Hlen|].
  destruct (Hpt 2%nat (mkItem 2 (plainHop 2 "10.0.0.9" None)
                              (mkSkip false (Some NORMAL)) 1) eq_refl)
    as (tj & h' & _ & Ho & _ & Hfail).
  exists h'. split; [exact Ho|]. apply Hfail. exact I.
Defined.

End ProbeClaims.

(** ** The single-run entry point *)

Module TraceClaims.
Import Js Async HopProcessor HopOps HopBuild TracerouteExecutor TracerouteConfig
       TracerouteService ProbeFacts ProbeClaims.
Import Notions Samples.


(** A request that fails validation, a target that does not resolve and a
    discovery process that cannot be started all give a structured
    failure. *)
Lemma trace_structured_failures (config : RawConfig) (resolved : Outcome ResolvedTarget)
    (dns : string -> DnsBehaviour) (probe : nat -> ProbeBehaviour) (t0 : nat) (msg : string) :
  (validateConfig config = inl msg \/
   (exists c, validateConfig config = inr c) /\ resolved = Rejected msg) ->
  forall discovery,
    trace config resolved discovery dns probe t0 = Some (Fulfilled (traceFailure msg)).
Proof.
  intros [E|[[c E] ->]] discovery; unfold trace; rewrite E; reflexivity.
Qed.

(** A discovery of one hop that closes with code 0 gives a structured
    success. *)
Example trace_resolves_on_clean_run :
  (success <$>
     match trace request resolvedOk
             (Runs [EvHop (Payload (mkRaw 1 (Some "10.0.0.1") (Some 2%Q))); EvClose 0])
             (fun _ => DnsHangs) (fun _ => ProbeHangs) 0 with
     | Some (Fulfilled r) => Some r
     | _ => None
     end) = Some true.
Proof. vm_compute. reflexivity. Qed.

(** C6, the code at two inputs it can receive.  With a hop event whose
    payload [processHop] cannot read, the promise of [trace] is rejected
    with the error of [processHop]; with a discovery that ends in an error
    event, or exits with a non-zero code and no hop, [execute] resolves
    with [{success: false}], [trace] does not look at that value, and the
    promise of [trace] stays pending. *)
Theorem trace_escapes_structured_result
    (dns : string -> DnsBehaviour) (probe : nat -> ProbeBehaviour) (t0 : nat) :
  trace request resolvedOk
        (Runs [EvHop (Malformed "Unexpected token h in JSON at position 0"); EvClose 0])
        dns probe t0
    = Some (Rejected "Unexpected token h in JSON at position 0") /\
  trace request resolvedOk (Runs [EvError "spawn traceroute ENOENT"]) dns probe t0 = None /\
  trace request resolvedOk (Runs [EvClose 1]) dns probe t0 = None.
Proof. repeat split; vm_compute; reflexivity. Qed.

End TraceClaims.

(** ** Continuous sessions *)

Module SessionClaims.
Import Js Async HopProcessor HopOps HopBuild TracerouteExecutor
       ContinuousTracerouteManager.
Import Notions Samples.

(** [stopContinuousSession] does not reach the executor. *)
Lemma stopContinuousSession_processes (sessionId : string) (m : Manager) :
  activeProcesses (fst (stopContinuousSession sessionId m)) = activeProcesses m.
Proof. unfold stopContinuousSession. destruct (_ !! _); reflexivity. Qed.

(** Stopping removes the session, whether it was registered or not, and
    always answers with success. *)
Lemma stopContinuousSession_removes (sessionId : string) (m : Manager) :
  activeSessions (fst (stopContinuousSession sessionId m)) !! sessionId = None /\
  r_success (snd (stopContinuousSession sessionId m)) = true /\
  r_error (snd (stopContinuousSession sessionId m)) = None.
Proof.
  unfold stopContinuousSession. destruct (activeSessions m !! sessionId) eqn:E; cbn.
  - rewrite !lookup_delete_eq. repeat split.
  - rewrite lookup_delete_eq. repeat split.
Qed.

(** C7, the code on a session whose discovery is in flight.  Stopping
    "s1" answers with success, removes the session and clears the running
    flag of its closure, and a second stop answers with success as well; but
    the discovery "p1" is still registered with the executor afterwards:
    nothing terminated it. *)
Theorem stopContinuousSession_leaves_discovery :
  "p1" ∈ activeProcesses started /\
  r_success (snd (stopContinuousSession "s1" started)) = true /\
  activeSessions (fst (stopContinuousSession "s1" started)) !! "s1" = None /\
  isRunningOf "s1" (fst (stopContinuousSession "s1" started)) = Some false /\
  r_success (snd (stopContinuousSession "s1" (fst (stopContinuousSession "s1" started))))
    = true /\
  "p1" ∈ activeProcesses (fst (stopContinuousSession "s1" started)).
Proof.
  assert (Hp : "p1" ∈ activeProcesses started).
  { unfold started, startContinuousSession, runTracerouteBegin. cbn.
    rewrite lookup_insert_eq. cbn. apply elem_of_union_l, elem_of_singleton. reflexivity. }
  split; [exact Hp|].
  split; [apply stopContinuousSession_removes|].
  split; [apply stopContinuousSession_removes|].
  split; [vm_compute; reflexivity|].
  split; [apply stopContinuousSession_removes|].
  rewrite stopContinuousSession_processes. exact Hp.
Qed.

End SessionClaims.

Module SessionRunClaims.
Import Js Async HopProcessor HopOps HopBuild TracerouteExecutor
       ContinuousTracerouteManager SessionClaims.
Import Notions Samples.

Lemma runTracerouteBegin_sessions (sessionId processId : string) (m : Manager) :
  activeSessions (runTracerouteBegin sessionId processId m) = activeSessions m.
Proof.
  unfold runTracerouteBegin. destruct (_ !! _) as [vs|]; [|reflexivity].
  destruct (v_isRunning vs); reflexivity.
Qed.

(** The end of a run: the registry is left as it is; when the promise of
    the discovery settled and the session has not been stopped the next run
    is scheduled after the interval; and a rejected discovery is reported
    by a [run_error] event with the run number and the message. *)
Lemma runTracerouteEnd_effects (sessionId : string) (d : Discovery)
    (dns : string -> DnsBehaviour) (probe : string -> ProbeBehaviour) (t0 : nat)
    (config : Config) (m : Manager) (vs : SessionVars) :
  closures m !! sessionId = Some vs ->
  let m' := runTracerouteEnd sessionId d dns probe t0 config m in
  activeSessions m' = activeSessions m /\
  (forall outcome, snd (execute config d) = Some outcome ->
     (v_isRunning vs = true -> timers m' = timers m ++ [(sessionId, interval config)]) /\
     (forall msg, outcome = Rejected msg ->
        last (emitted m') = Some (RunError sessionId (v_runCount vs) msg))).
Proof.
  intros Hvs. unfold runTracerouteEnd. rewrite Hvs.
  destruct (execute config d) as [updates executed].
  destruct (fold_left _ updates _) as [[allHops counters] hopEvents].
  destruct executed as [outcome|]; cbn.
  - split; [reflexivity|]. intros o Eo. inversion Eo; subst o. split.
    + intros ->. reflexivity.
    + intros msg ->. rewrite app_assoc. apply last_snoc.
  - split; [reflexivity|]. intros o Eo. discriminate Eo.
Qed.

Lemma runTracerouteEnd_sessions sessionId d dns probe t0 config m :
  activeSessions (runTracerouteEnd sessionId d dns probe t0 config m) = activeSessions m.
Proof.
  destruct (closures m !! sessionId) as [vs|] eqn:E.
  - apply (runTracerouteEnd_effects sessionId d dns probe t0 config m vs E).
  - unfold runTracerouteEnd. rewrite E. reflexivity.
Qed.

(** The [runCount] property of a registered session object is never
    written after the object is built. *)
Lemma registered_runCount_zero (m : Manager) :
  reachable m ->
  forall sessionId info, activeSessions m !! sessionId = Some info -> s_runCount info = 0.
Proof.
  induction 1 as [|config sid pid now m _ IH|sid d dns probe t0 config m _ IH
                  |sid pid m _ IH|sid m _ IH]; intros k info Hk.
  - unfold empty in Hk. cbn [activeSessions] in Hk.
    rewrite lookup_empty in Hk. discriminate Hk.
  - unfold startContinuousSession in Hk.
    destruct (String.eqb (target config) ""); cbn in Hk; [apply (IH k info Hk)|].
    rewrite runTracerouteBegin_sessions in Hk. cbn in Hk.
    destruct (decide (sid = k)) as [->|Hne].
    + rewrite lookup_insert_eq in Hk. inversion Hk. reflexivity.
    + rewrite lookup_insert_ne in Hk by exact Hne. apply (IH k info Hk).
  - rewrite runTracerouteEnd_sessions in Hk. apply (IH k info Hk).
  - unfold timerFires in Hk. destruct (list_find _ _) as [[i p]|].
    + rewrite runTracerouteBegin_sessions in Hk. apply (IH k info Hk).
    + apply (IH k info Hk).
  - unfold stopContinuousSession in Hk.
    destruct (activeSessions m !! sid); cbn in Hk;
      repeat (apply lookup_delete_Some in Hk as [_ Hk]); apply (IH k info Hk).
Qed.

(** C9, the code on a running session.  Once the first run of "s1" has
    started the closure counts 1 run and [getActiveSessions] reports 0;
    once the second run has started the closure counts 2 and
    [getActiveSessions] still reports 0. *)
Theorem getActiveSessions_runCount_frozen :
  runCountOf "s1" started = Some 1 /\
  rep_runCount <$> getActiveSessions 5 started = [0] /\
  runCountOf "s1"
    (timerFires "s1" "p2"
       (runTracerouteEnd "s1" (Runs [EvClose 0]) noDns noProbe 0 sessionConfig started))
    = Some 2 /\
  rep_runCount <$>
    getActiveSessions 2000
      (timerFires "s1" "p2"
         (runTracerouteEnd "s1" (Runs [EvClose 0]) noDns noProbe 0 sessionConfig started))
    = [0].
Proof. repeat split; vm_compute; reflexivity. Qed.

(** C8, the code on a run whose discovery exits with code 1 and no hop.
    [execute] resolves with [{success: false}], so the run is reported by a
    [run_complete] event that carries that result, and by no [run_error]
    event; the session stays registered and the next run is scheduled after
    the interval. *)
Theorem failed_run_reported_as_complete :
  emitted (runTracerouteEnd "s1" (Runs [EvClose 1]) noDns noProbe 0 sessionConfig started)
    = [RunComplete "s1" 1 (execFailure "Traceroute failed with exit code 1")] /\
  rep_sessionId <$>
    getActiveSessions 5
      (runTracerouteEnd "s1" (Runs [EvClose 1]) noDns noProbe 0 sessionConfig started)
    = ["s1"] /\
  timers (runTracerouteEnd "s1" (Runs [EvClose 1]) noDns noProbe 0 sessionConfig started)
    = [("s1", 1000)].
Proof. repeat split; vm_compute; reflexivity. Qed.

(** A discovery that cannot be started is reported by [run_error]. *)
Example start_failure_reported_as_error :
  emitted (runTracerouteEnd "s1" (StartThrows "spawn ENOENT") noDns noProbe 0
             sessionConfig started)
    = [RunError "s1" 1 "spawn ENOENT"].
Proof. vm_compute. reflexivity. Qed.

End SessionRunClaims.

(** * Further properties of the code *)

(** ** Configuration, priority and discrepancy *)

Module ConfigProps.
Import Js HopProcessor HopOps HopBuild HopAnalysis TracerouteConfig TracerouteService.
Import Notions Samples MoreNotions MoreSamples StatisticsFacts.



(** X2.  A hop whose probe latency is above 50 ms is recommended for skip
    by [shouldSkipHop], whatever the configuration, and [getHopPriority]
    ranks it 999. *)
Theorem slow_hop_skipped_and_last (h : Hop) (config : Config) (lat : Q) :
  avgLatency h = Some lat -> (50 < lat)%Q ->
  sd_shouldSkip (shouldSkipHop h config) = true /\ getHopPriority h = 999.
Proof.
  intros E Hlat.
  pose proof (PriorityClaims.analyzeSlowHop_skips_above_50 h lat E Hlat) as Hskip.
  split.
  - unfold shouldSkipHop. rewrite Hskip. reflexivity.
  - unfold getHopPriority, orQ, truthyQ. rewrite E, Hskip.
    rewrite Qzerob_false by (intros Hz; rewrite Hz in Hlat; discriminate Hlat).
    rewrite !Qltb_false; [reflexivity | lra ..].
Qed.

Lemma slow_hop_skipped_and_last_witness :
  sd_shouldSkip (shouldSkipHop slowHop (sampleConfig 15)) = true /\
  getHopPriority slowHop = 999.
Proof.
  apply (slow_hop_skipped_and_last slowHop (sampleConfig 15) 80%Q);
    [reflexivity | vm_compute; reflexivity].
Defined.

End ConfigProps.

(** ** Latency discrepancy *)

Module DiscrepancyProps.
Import Js HopProcessor HopOps HopAnalysis.
Import Notions Samples MoreNotions MoreSamples StatisticsFacts.

Lemma Qltb_reflect (x c : Q) : reflect (x < c)%Q (Qltb x c).
Proof.
  destruct (Qlt_le_dec x c) as [H|H].
  - rewrite (Qltb_true _ _ H). constructor. exact H.
  - rewrite (Qltb_false _ _ H). constructor. lra.
Qed.

Lemma truthyQ_Some (o : option Q) (q : Q) :
  truthyQ o = Some q -> o = Some q /\ ~ (q == 0)%Q.
Proof.
  unfold truthyQ. destruct o as [x|]; [|discriminate].
  destruct (Qzerob x) eqn:E; [discriminate|]. intros H. inversion H; subst.
  split; [reflexivity|]. intros Hz. unfold Qzerob in E.
  apply Qeq_bool_iff in Hz. congruence.
Qed.

(** [maxOf x l] is one of the samples and bounds them all. *)
Lemma maxOf_spec (l : list Q) (x : Q) :
  (maxOf x l = x \/ In (maxOf x l) l) /\
  (x <= maxOf x l)%Q /\ Forall (fun y => (y <= maxOf x l)%Q) l.
Proof.
  unfold maxOf. revert x. induction l as [|y l IH]; intros x; cbn.
  - split; [left; reflexivity|]. split; [lra | constructor].
  - destruct (Qltb_reflect x y) as [H|H].
    + destruct (IH y) as ([E|E] & Hx & Hall).
      * split; [right; left; symmetry; exact E|]. split; [lra|].
        constructor; assumption.
      * split; [right; right; exact E|]. split; [lra|].
        constructor; assumption.
    + destruct (IH x) as ([E|E] & Hx & Hall).
      * split; [left; exact E|]. split; [exact Hx|]. constructor; [lra | exact Hall].
      * split; [right; right; exact E|]. split; [exact Hx|].
        constructor; [lra | exact Hall].
Qed.


(** The discrepancy the source computes, for two positive latencies. *)
Lemma discrepancy_percent_bounds (t p : Q) :
  (0 < t)%Q -> (0 < p)%Q ->
  (0 <= Qabs (t - p) / maxOf t [p] * 100)%Q /\
  (Qabs (t - p) / maxOf t [p] * 100 <= 100)%Q.
Proof.
  intros Ht Hp.
  assert (Hm : (0 < maxOf t [p])%Q /\ (Qabs (t - p) <= maxOf t [p])%Q).
  { unfold maxOf. cbn [fold_left]. destruct (Qltb_reflect t p) as [H|H].
    - split; [exact Hp|]. apply Qabs_case; intros; lra.
    - split; [exact Ht|]. apply Qabs_case; intros; lra. }
  destruct Hm as [Hpos Hle].
  assert (Habs : (0 <= Qabs (t - p))%Q) by apply Qabs_nonneg.
  set (d := Qabs (t - p)) in *. set (m := maxOf t [p]) in *.
  assert (H0 : (0 <= d / m)%Q) by (apply Qle_shift_div_l; [exact Hpos | lra]).
  assert (H1 : (d / m <= 1)%Q) by (apply Qle_shift_div_r; [exact Hpos | lra]).
  split; lra.
Qed.

Lemma analyzeLatencyDiscrepancy_percent (h : Hop) (d : Discrepancy) :
  nonnegLatencies h ->
  analyzeLatencyDiscrepancy h = Some d ->
  (0 <= discrepancyPercent d)%Q /\ (discrepancyPercent d <= 100)%Q /\
  d_analysis d = getDiscrepancyAnalysis (discrepancyPercent d).
Proof.
  intros [Htimes Hping]. unfold analyzeLatencyDiscrepancy.
  destruct (truthyQ (tracerouteLatency h)) as [t|] eqn:Et; [|discriminate].
  destruct (truthyQ (avgLatency h)) as [p|] eqn:Ep; [|discriminate].
  intros E. inversion E; subst d; clear E. cbn.
  apply truthyQ_Some in Et as [Et Htz], Ep as [Ep Hpz].
  assert (Ht : (0 < t)%Q).
  { unfold tracerouteLatency in Et. destruct (times h) as [|x rest]; [discriminate|].
    inversion Et; subst t. apply Forall_cons in Htimes as [Hx Hrest].
    destruct (maxOf_spec rest x) as (_ & Hge & _).
    destruct (Qlt_le_dec 0 (maxOf x rest)) as [H|H]; [exact H|].
    exfalso. apply Htz. lra. }
  assert (Hp : (0 < p)%Q).
  { pose proof (Hping p Ep).
    destruct (Qlt_le_dec 0 p) as [H'|H']; [exact H'|]. exfalso. apply Hpz. lra. }
  destruct (discrepancy_percent_bounds t p Ht Hp) as [H0 H1].
  split; [exact H0|]. split; [exact H1 | reflexivity].
Qed.

(** X3.  For a hop whose latencies are not negative the discrepancy between
    discovery and probe latency is between 0% and 100%: the analysis is never
    [SEVERE_DISCREPANCY] nor [HIGH_DISCREPANCY], and
    [getNetworkBehaviorAnalysis] never answers [PROTOCOL_FILTERING] nor
    [RATE_LIMITING]. *)
Theorem discrepancy_never_high (h : Hop) :
  nonnegLatencies h ->
  (forall d, analyzeLatencyDiscrepancy h = Some d ->
     (0 <= discrepancyPercent d)%Q /\ (discrepancyPercent d <= 100)%Q /\
     d_analysis d <> SEVERE_DISCREPANCY /\ d_analysis d <> HIGH_DISCREPANCY) /\
  getNetworkBehaviorAnalysis h <> PROTOCOL_FILTERING /\
  getNetworkBehaviorAnalysis h <> RATE_LIMITING.
Proof.
  intros Hnn.
  assert (Hd : forall d, analyzeLatencyDiscrepancy h = Some d ->
     (0 <= discrepancyPercent d)%Q /\ (discrepancyPercent d <= 100)%Q /\
     d_analysis d <> SEVERE_DISCREPANCY /\ d_analysis d <> HIGH_DISCREPANCY).
  { intros d Ed.
    destruct (analyzeLatencyDiscrepancy_percent h d Hnn Ed) as (H0 & H1 & ->).
    split; [exact H0|]. split; [exact H1|].
    unfold getDiscrepancyAnalysis.
    rewrite (Qgtb_false _ 200) by lra. rewrite (Qgtb_false _ 100) by lra.
    split; repeat destruct (Qgtb _ _); discriminate. }
  split; [exact Hd|].
  unfold getNetworkBehaviorAnalysis.
  destruct (isSlow (analyzeSlowHop h)); [split; discriminate|].
  destruct (analyzeLatencyDiscrepancy h) as [d|] eqn:Ed; [|split; discriminate].
  destruct (Hd d eq_refl) as (_ & _ & Hs & Hh).
  destruct (d_analysis d); try congruence; split; discriminate.
Qed.

Lemma discrepancy_never_high_witness :
  getNetworkBehaviorAnalysis divergingHop <> PROTOCOL_FILTERING /\
  getNetworkBehaviorAnalysis divergingHop <> RATE_LIMITING.
Proof.
  apply (discrepancy_never_high divergingHop). split.
  - repeat constructor. discriminate.
  - intros p E. inversion E. discriminate.
Defined.

End DiscrepancyProps.

(** ** Ping history of the single run *)

Module PingHistoryProps.
Import Js Async HopProcessor HopOps HopBuild TracerouteService.
Import Notions Samples MoreNotions MoreSamples ProbeFacts.

(** X4.  The three writers of the ping history, [addRecentPing],
    [addTimeoutPing] and [populatePingHistory], keep a history of at most 20
    entries within 20 entries. *)
Theorem pingHistory_stays_bounded (h : Hop) (r : PingResult) (timeout : Z)
    (pn : option Z) (now : Z) :
  (length (pingHistoryOf h) <= 20)%nat ->
  (length (pingHistoryOf (addRecentPing h r timeout pn now)) <= 20)%nat /\
  (length (pingHistoryOf (addTimeoutPing h timeout pn now)) <= 20)%nat /\
  (length (pingHistoryOf (populatePingHistory h now)) <= 20)%nat.
Proof.
  intros Hlen. split; [|split].
  - apply length_pushBounded, Hlen.
  - apply length_pushBounded, Hlen.
  - unfold populatePingHistory.
    destruct (truthyQ (avgLatency h)); [|exact Hlen].
    destruct (find _ _); [exact Hlen|]. apply length_pushBounded, Hlen.
Qed.

Lemma pingHistory_stays_bounded_witness :
  (length (pingHistoryOf (addTimeoutPing degradingHop 1000%Z (Some 1%Z) 0%Z)) <= 20)%nat.
Proof.
  destruct (pingHistory_stays_bounded degradingHop (errorResult "x") 1000 (Some 1) 0)
    as (_ & H & _); [vm_compute; lia | exact H].
Defined.






Lemma populatePingHistory_fields (h : Hop) (now : Z) :
  ip (populatePingHistory h now) = ip h /\
  isReachable (populatePingHistory h now) = isReachable h /\
  hop (populatePingHistory h now) = hop h.
Proof.
  unfold populatePingHistory. destruct (truthyQ _); [destruct (find _ _)|];
    repeat split.
Qed.

Lemma backfill_fields (now : Z) (h : Hop) :
  ip (backfill now h) = ip h /\ isReachable (backfill now h) = isReachable h /\
  hop (backfill now h) = hop h.
Proof.
  unfold backfill.
  set (h1 := match pingHistory h with Some (_ :: _) => h | _ => populatePingHistory h now end).
  assert (H1 : ip h1 = ip h /\ isReachable h1 = isReachable h /\ hop h1 = hop h).
  { unfold h1. destruct (pingHistory h) as [[|e l]|];
      try apply populatePingHistory_fields; repeat split. }
  destruct H1 as (Hip & Hr & Hh).
  destruct (truthyS (ip h1)); [destruct (_ && _)|]; cbn; repeat split; assumption.
Qed.

(** X6.  After the back-fill of [trace], every hop that has a usable
    address and is not reachable, probed or not, has a ping history whose
    last entry is a timeout entry. *)
Theorem backfill_marks_unreachable (now : Z) (h : Hop) :
  usableIp h -> isReachable h = false ->
  exists e, last (pingHistoryOf (backfill now h)) = Some e /\ timeoutEntry e.
Proof.
  intros (Hip & Hrt & Hstar) Hr. unfold backfill.
  set (h1 := match pingHistory h with Some (_ :: _) => h | _ => populatePingHistory h now end).
  assert (H1 : ip h1 = ip h /\ isReachable h1 = isReachable h).
  { unfold h1. destruct (pingHistory h) as [[|e l]|];
      try (destruct (populatePingHistory_fields h now) as (? & ? & _));
      split; try assumption; reflexivity. }
  destruct H1 as [Hip1 Hr1]. rewrite Hip1.
  destruct (truthyS (ip h)) as [a|]; [|congruence].
  unfold ipIs in *. rewrite Hip1, Hrt, Hstar, Hr1, Hr. cbn [negb andb].
  eexists. split; [apply last_pushBounded; lia|].
  split; [reflexivity|]. eexists. split; reflexivity.
Qed.

Lemma backfill_marks_unreachable_witness :
  exists e, last (pingHistoryOf (backfill 9 silentHop)) = Some e /\ timeoutEntry e.
Proof.
  apply (backfill_marks_unreachable 9 silentHop); [|reflexivity].
  repeat split. discriminate.
Defined.

(** X7.  A hop with a usable address and an empty ping history whose probe
    fails ends the run with two timeout entries: the one its probe callback
    wrote and the one the back-fill adds. *)
Theorem failed_probe_recorded_twice (b : ProbeBehaviour) (t0 t : nat) (now : Z)
    (h h' : Hop) :
  usableIp h -> pingHistoryOf h = [] -> probeFailed b 1000 ->
  pingItem b t0 h = Some (t, Fulfilled h') ->
  exists e1 e2,
    pingHistoryOf (backfill now h') = [e1; e2] /\ timeoutEntry e1 /\ timeoutEntry e2.
Proof.
  intros (Hip & Hrt & Hstar) Hph Hfail. unfold pingItem.
  destruct (pingHopWithRetry_cases b t0 1000) as (t1 & r & -> & _ & Hlost & Hans).
  assert (Hdead : alive r = false).
  { destruct b as [msg|after r0|after msg|]; try (apply Hlost; exact I).
    destruct (Nat.lt_ge_cases after 1000) as [Hlt|Hge].
    - rewrite (Hans after r0 eq_refl Hlt). destruct Hfail as [Hf|Hf]; [lia|exact Hf].
    - apply Hlost. exact Hge. }
  intros E. inversion E; subst t h'; clear E.
  unfold addRecentPing, pingHistoryOf at 2. cbn [pingHistory set_ping].
  fold (pingHistoryOf h). rewrite Hph, Hdead. cbn [pushBounded app length Nat.ltb Nat.leb].
  unfold backfill. cbn [pingHistory set_pingHistory].
  cbn [ip set_pingHistory set_ping isReachable].
  destruct (truthyS (ip h)) as [a|]; [|congruence].
  unfold ipIs in *. cbn [ip set_pingHistory set_ping].
  rewrite Hrt, Hstar. cbn [negb andb].
  unfold addTimeoutPing, pingHistoryOf. cbn [pingHistory set_pingHistory].
  eexists _, _. split; [reflexivity|].
  split; (split; [reflexivity|]; eexists; split; reflexivity).
Qed.

Lemma failed_probe_recorded_twice_witness :
  exists e1 e2,
    pingHistoryOf
      (backfill 9 (addRecentPing
                     (set_ping silentHop (Some [errorResult "Ping timeout"]) false None
                               (Some 100%Q) (Some 1) (Some 0))
                     (errorResult "Ping timeout") 1000 (Some 1) 1000))
    = [e1; e2] /\ timeoutEntry e1 /\ timeoutEntry e2.
Proof.
  apply (failed_probe_recorded_twice ProbeHangs 0 1000 9 silentHop).
  - repeat split. discriminate.
  - reflexivity.
  - exact I.
  - reflexivity.
Defined.

End PingHistoryProps.

(** ** The enrichment step of the single run *)

Module EnrichProps.
Import Js Async HopProcessor HopOps HopBuild TracerouteExecutor TracerouteConfig
       TracerouteService.
Import Notions Samples MoreNotions MoreSamples ClassifyFacts ProbeFacts PingHistoryProps.

Lemma final_in_items (config : Config) (items : list Item) (it : Item) :
  it ∈ finalHopsToPing (classify config items) -> it ∈ items.
Proof.
  unfold classify. destruct (_ && _); cbn; intros Hin.
  - apply elem_of_take in Hin as (i & Hi & _).
    apply list_elem_of_lookup_2 in Hi. rewrite sortByPriority_perm in Hi.
    apply list_elem_of_filter in Hi. tauto.
  - apply list_elem_of_filter in Hin. tauto.
Qed.

(** An analysed item names the hop object at its position in [hops]. *)
Lemma item_lookup (config : Config) (hops : list Hop) (it : Item) :
  it ∈ map (analyze config) (validHops hops) ->
  hops !! idx it = Some (item_hop it).
Proof.
  intros Hin. apply list_elem_of_fmap in Hin as ([i h] & -> & Hp).
  unfold validHops in Hp. apply list_elem_of_filter in Hp as [_ Hp].
  apply elem_of_lookup_imap in Hp as (j & y & E & Hj). inversion E; subst. exact Hj.
Qed.

(** What the probe step hands back for the [j]-th hop is that hop, probed. *)
Lemma probeBatch_pointwise (probe : nat -> ProbeBehaviour) (t0 t : nat)
    (final : list Item) (outs : list (Outcome Hop)) :
  probeBatch probe t0 final = Some (t, Fulfilled outs) ->
  forall j it o, final !! j = Some it -> outs !! j = Some o ->
    exists h', o = Fulfilled h' /\ hopId h' = hopId (item_hop it).
Proof.
  unfold probeBatch, pingPromises. intros E j it o Hj Ho.
  destruct (allSettled_all t0 (t0 + 1000)
              (imap (fun j it => pingItem (probe j) t0 (item_hop it)) final))
    as (t' & outs' & E' & _ & _ & Hpt).
  - intros i p Hi. rewrite list_lookup_imap in Hi.
    destruct (final !! i) as [it'|]; [|discriminate Hi]. cbn in Hi. inversion Hi.
    destruct (pingItem_cases (probe i) t0 (item_hop it')) as (ti & h' & -> & Hti & _).
    exists ti, (Fulfilled h'). split; [reflexivity | exact Hti].
  - lia.
  - rewrite E in E'. inversion E'; subst t' outs'; clear E'.
    destruct (Hpt j (pingItem (probe j) t0 (item_hop it))) as (tj & o' & Ep & Ho').
    { rewrite list_lookup_imap, Hj. reflexivity. }
    rewrite Ho in Ho'. inversion Ho'; subst o'; clear Ho'.
    destruct (pingItem_cases (probe j) t0 (item_hop it))
      as (tj' & h' & Ep' & _ & Hh & Hi & _).
    rewrite Ep in Ep'. inversion Ep'; subst. exists h'. split; [reflexivity|].
    unfold hopId. rewrite Hh, Hi. reflexivity.
Qed.

(** Writing the probed hops back changes no index and no address. *)
Lemma writeBack_hopIds (final : list Item) :
  forall (outs : list (Outcome Hop)) (hops : list Hop),
    (forall j it h', final !! j = Some it -> outs !! j = Some (Fulfilled h') ->
       exists h0, hops !! idx it = Some h0 /\ hopId h' = hopId h0) ->
    hopId <$> writeBack hops final outs = hopId <$> hops.
Proof.
  induction final as [|it final IH]; intros outs hops Hall; [reflexivity|].
  destruct outs as [|[h|msg] outs]; cbn [writeBack]; [reflexivity| |].
  - destruct (Hall 0%nat it h eq_refl eq_refl) as (h0 & Hh0 & Hid).
    rewrite IH.
    + rewrite list_fmap_insert. apply list_insert_id.
      rewrite list_lookup_fmap, Hh0. cbn. rewrite Hid. reflexivity.
    + intros j it' h' Hj Ho.
      destruct (Hall (S j) it' h' Hj Ho) as (h1 & Hh1 & Hid1).
      destruct (decide (idx it = idx it')) as [Ei|Ei].
      * exists h. rewrite <- Ei.
        rewrite list_lookup_insert_eq by (apply lookup_lt_Some in Hh0; exact Hh0).
        split; [reflexivity|]. rewrite Hid1, Hid. rewrite <- Ei in Hh1. congruence.
      * exists h1. rewrite list_lookup_insert_ne by exact Ei. split; assumption.
  - apply IH. intros j it' h' Hj Ho. apply (Hall (S j) it' h' Hj Ho).
Qed.

Lemma enrich_hopIds (config : Config) (probe : nat -> ProbeBehaviour) (t0 : nat)
    (hops hops' : list Hop) :
  enrich config probe t0 hops = Some hops' -> hopId <$> hops' = hopId <$> hops.
Proof.
  unfold enrich. destruct (_ && _); [|intros E; inversion E; reflexivity].
  set (final := finalHopsToPing _).
  destruct (probeBatch probe t0 final) as [[t [outs|msg]]|] eqn:Eb; try discriminate.
  intros E. inversion E; subst hops'; clear E.
  rewrite <- list_fmap_compose.
  rewrite (list_fmap_ext (hopId ∘ backfill (Z.of_nat t)) hopId).
  - apply writeBack_hopIds. intros j it h' Hj Ho.
    destruct (probeBatch_pointwise probe t0 t final outs Eb j it _ Hj Ho)
      as (h'' & Eh & Hid). inversion Eh; subst h''.
    exists (item_hop it). split; [|exact Hid].
    apply (item_lookup config). apply (final_in_items config).
    apply list_elem_of_lookup_2 with j. exact Hj.
  - intros i h _. unfold hopId. cbn.
    destruct (backfill_fields (Z.of_nat t) h) as (-> & _ & ->). reflexivity.
Qed.

(** X8.  The enrichment step of [trace] hands back every hop it was given,
    probed, skipped or limited, in the same order and with the same index
    and address. *)
Theorem enrich_keeps_every_hop (config : Config) (probe : nat -> ProbeBehaviour)
    (t0 : nat) (hops hops' : list Hop) :
  enrich config probe t0 hops = Some hops' ->
  length hops' = length hops /\ map hop hops' = map hop hops /\ map ip hops' = map ip hops.
Proof.
  intros E. pose proof (enrich_hopIds config probe t0 hops hops' E) as Hid.
  split; [|split].
  - apply (f_equal length) in Hid. rewrite !length_fmap in Hid. exact Hid.
  - apply (f_equal (fmap fst)) in Hid. rewrite <- !list_fmap_compose in Hid. exact Hid.
  - apply (f_equal (fmap snd)) in Hid. rewrite <- !list_fmap_compose in Hid. exact Hid.
Qed.

Lemma enrich_keeps_every_hop_witness :
  exists hops',
    enrich (sampleConfig 1) (fun _ => ProbeHangs) 0 [hop30; hop3; hop12] = Some hops' /\
    map hop hops' = [1; 2; 3].
Proof.
  destruct (enrich (sampleConfig 1) (fun _ => ProbeHangs) 0 [hop30; hop3; hop12])
    as [hops'|] eqn:E; [|vm_compute in E; discriminate E].
  exists hops'. split; [reflexivity|].
  destruct (enrich_keeps_every_hop _ _ _ _ _ E) as (_ & H & _). exact H.
Defined.

End EnrichProps.

(** ** The skip filter inside a single run *)

Module UnprobedProps.
Import Js Async HopProcessor HopOps HopBuild TracerouteExecutor TracerouteConfig
       TracerouteService.
Import Notions Samples MoreNotions MoreSamples ClassifyFacts EnrichProps.

Lemma filter_all {A} (P : A -> Prop) `{forall x, Decision (P x)} (l : list A) :
  (forall x, x ∈ l -> P x) -> filter P l = l.
Proof.
  induction l as [|x l IH]; intros Hall; [reflexivity|].
  rewrite filter_cons. rewrite decide_True by (apply Hall; left).
  rewrite IH; [reflexivity|]. intros y Hy. apply Hall. right. exact Hy.
Qed.

Lemma filter_none {A} (P : A -> Prop) `{forall x, Decision (P x)} (l : list A) :
  (forall x, x ∈ l -> ~ P x) -> filter P l = [].
Proof.
  induction l as [|x l IH]; intros Hall; [reflexivity|].
  rewrite filter_cons. rewrite decide_False by (apply Hall; left).
  apply IH. intros y Hy. apply Hall. right. exact Hy.
Qed.

(** The sort leaves a list of items of one priority as it is. *)
Lemma sortByPriority_constant (p : Z) (l : list Item) :
  (forall it, it ∈ l -> priority it = p) -> sortByPriority l = l.
Proof.
  induction l as [|x l IH]; intros Hall; [reflexivity|].
  cbn [sortByPriority]. rewrite IH by (intros y Hy; apply Hall; right; exact Hy).
  destruct l as [|y l]; [reflexivity|]. cbn [insertByPriority].
  rewrite (Hall x) by left. rewrite (Hall y) by (right; left).
  rewrite Z.leb_refl. reflexivity.
Qed.

(** X9.  When no hop carries probe data, which is how [trace] meets them,
    the skip filter keeps every valid hop, and the limit keeps the first
    [maxHopsToProcess] valid hops in discovery order and limits the others. *)
Theorem unprobed_hops_never_skipped (config : Config) (hops : list Hop) :
  Forall unprobed hops ->
  0 < maxHopsToProcess config ->
  let hopAnalysis := map (analyze config) (validHops hops) in
  let c := classify config hopAnalysis in
  skippedHops c = [] /\
  finalHopsToPing c = take (Z.to_nat (maxHopsToProcess config)) hopAnalysis /\
  limitedHops c = drop (Z.to_nat (maxHopsToProcess config)) hopAnalysis.
Proof.
  intros Hun Hpos hopAnalysis c.
  assert (Hitem : forall it, it ∈ hopAnalysis -> skipped it = false /\ priority it = 1).
  { intros it Hin. pose proof (item_lookup config hops it Hin) as Hl.
    destruct (hopAnalysis_fields config hops it Hin) as (-> & -> & _).
    apply list_elem_of_lookup_2 in Hl.
    rewrite Forall_forall in Hun. destruct (Hun (item_hop it) Hl) as [E1 E2].
    apply ClassifyClaims.unprobed_hop_kept; assumption. }
  assert (Hkeep : filter (fun it => skipped it = false) hopAnalysis = hopAnalysis).
  { apply filter_all. intros it Hin. apply (Hitem it Hin). }
  assert (Hskip : filter (fun it => skipped it = true) hopAnalysis = []).
  { apply filter_none. intros it Hin. destruct (Hitem it Hin) as [-> _]. discriminate. }
  unfold c, classify. rewrite Hkeep, Hskip.
  destruct (_ && _) eqn:E; cbn.
  - rewrite (sortByPriority_constant 1) by (intros it Hin; apply (Hitem it Hin)).
    repeat split.
  - apply andb_false_iff in E as [E|E].
    + apply negb_false_iff, Z.eqb_eq in E. lia.
    + apply Z.ltb_ge in E.
      rewrite take_ge by lia. rewrite drop_ge by lia. repeat split.
Qed.

Lemma unprobed_hops_never_skipped_witness :
  map item_hop
      (finalHopsToPing
         (classify (sampleConfig 1)
                   (map (analyze (sampleConfig 1)) (validHops [silentHop; silentHop]))))
  = [silentHop].
Proof.
  destruct (unprobed_hops_never_skipped (sampleConfig 1) [silentHop; silentHop])
    as (_ & -> & _).
  - repeat constructor.
  - reflexivity.
  - reflexivity.
Defined.

End UnprobedProps.

(** ** The executor *)

Module ExecutorProps.
Import Js Async HopProcessor HopOps HopBuild TracerouteExecutor.
Import Notions Samples MoreNotions MoreSamples.

Lemma execStart_inv : execInv execStart.
Proof.
  repeat split; cbn; try discriminate.
  intros [x H]. discriminate H.
Qed.

(** One event: the invariant is kept, a completed call stays completed, a
    [complete] update is sent only by the event that completes the call, and
    an event that ends the discovery completes it. *)
Lemma execStep_facts (config : Config) (st : ExecState) (ev : TracerEvent) :
  execInv st ->
  execInv (fst (execStep config st ev)) /\
  (ex_isCompleted st = true -> ex_isCompleted (fst (execStep config st ev)) = true) /\
  (length (List.filter isCompleteUpdate (snd (execStep config st ev)))
   <= (if ex_isCompleted st then 0 else 1))%nat /\
  (ex_isCompleted (fst (execStep config st ev)) = true \/
   List.filter isCompleteUpdate (snd (execStep config st ev)) = []) /\
  (endsDiscovery ev -> ex_isCompleted (fst (execStep config st ev)) = true).
Proof.
  intros Hinv. pose proof Hinv as (Hreg & Hset & Hrej).
  assert (Hnone : ex_settled st = None \/ ex_isCompleted st = true).
  { destruct (ex_settled st) eqn:Es; [right|left; reflexivity]. apply Hset. eauto. }
  assert (Hsame : forall hops dest pid,
            execInv (mkExecState hops dest pid (ex_isCompleted st) (ex_registered st)
                                 (ex_settled st))).
  { intros. split; [exact Hreg|]. split; [exact Hset | exact Hrej]. }
  assert (Hdone : forall hops dest pid r,
            execInv (mkExecState hops dest pid true false (Some (Fulfilled r)))).
  { intros. split; [reflexivity|]. split; [split; eauto | discriminate]. }
  assert (Hcount : (0 <= (if ex_isCompleted st then 0 else 1))%nat)
    by (destruct (ex_isCompleted st); lia).
  destruct ev as [p|dest|payload|code|msg|]; cbn [execStep].
  - cbn. split; [apply Hsame|]. repeat split; tauto.
  - cbn. split; [apply Hsame|]. repeat split; tauto.
  - cbn. split; [apply Hsame|]. repeat split; tauto.
  - destruct (ex_isCompleted st) eqn:Ec.
    + cbn. split; [exact Hinv|]. repeat split; tauto.
    + destruct Hnone as [->|Hc]; [|discriminate Hc].
      destruct (_ || _); cbn; (split; [apply Hdone|]); repeat split; eauto; lia.
  - destruct (ex_isCompleted st) eqn:Ec.
    + cbn. split; [exact Hinv|]. repeat split; tauto.
    + destruct Hnone as [->|Hc]; [|discriminate Hc]. cbn. split; [apply Hdone|]. repeat split; eauto; lia.
  - destruct (ex_isCompleted st) eqn:Ec; cbn [orb].
    + cbn. split; [exact Hinv|]. repeat split; tauto.
    + destruct (0 <? timeout config); cbn [negb].
      * destruct Hnone as [->|Hc]; [|discriminate Hc]. cbn. split; [apply Hdone|].
        repeat split; eauto; try lia; try (intros []).
      * cbn. split; [exact Hinv|]. split; [intros Hc; congruence|].
        split; [lia|]. split; [right; reflexivity | intros []].
Qed.

Lemma execRun_facts (config : Config) (events : list TracerEvent) :
  forall st, execInv st ->
    execInv (fst (execRun config st events)) /\
    (ex_isCompleted st = true -> ex_isCompleted (fst (execRun config st events)) = true) /\
    (length (List.filter isCompleteUpdate (snd (execRun config st events)))
     <= (if ex_isCompleted st then 0 else 1))%nat /\
    (Exists endsDiscovery events ->
     ex_isCompleted (fst (execRun config st events)) = true).
Proof.
  induction events as [|ev events IH]; intros st Hinv.
  - cbn. split; [exact Hinv|]. split; [tauto|]. split.
    + destruct (ex_isCompleted st); lia.
    + intros H. inversion H.
  - cbn [execRun].
    destruct (execStep_facts config st ev Hinv) as (Hinv1 & Hmono1 & Hcnt1 & Hor1 & Hend1).
    destruct (execStep config st ev) as [st1 us1]. cbn [fst snd] in *.
    destruct (IH st1 Hinv1) as (Hinv2 & Hmono2 & Hcnt2 & Hend2).
    destruct (execRun config st1 events) as [st2 us2]. cbn [fst snd] in *.
    split; [exact Hinv2|]. split; [tauto|]. split.
    + rewrite List.filter_app, length_app.
      destruct Hor1 as [Hc|Hn].
      * rewrite Hc in Hcnt2. lia.
      * rewrite Hn. cbn [length]. destruct (ex_isCompleted st) eqn:Ec.
        -- rewrite (Hmono1 eq_refl) in Hcnt2. lia.
        -- destruct (ex_isCompleted st1); lia.
    + intros Hex. apply Exists_cons in Hex as [Hev|Hex]; [|apply Hend2, Hex].
      apply Hmono2, Hend1, Hev.
Qed.



End ExecutorProps.

(** ** Runs of [trace] that end well, and failures before discovery *)

Module TraceProps.
Import Js Async HopProcessor HopOps HopBuild TracerouteExecutor TracerouteConfig
       TracerouteService.
Import Notions Samples MoreNotions MoreSamples EnrichProps TraceClaims.






(** X12.  A request that fails validation, a target that does not resolve
    and a discovery process that cannot be started each make [trace] resolve
    with [{success: false, error}], the error being the message of the
    failure. *)
Theorem trace_reports_early_failures (config : RawConfig) (dns : string -> DnsBehaviour)
    (probe : nat -> ProbeBehaviour) (t0 : nat) (msg : string) :
  (validateConfig config = inl msg ->
   forall resolved discovery,
     trace config resolved discovery dns probe t0 = Some (Fulfilled (traceFailure msg))) /\
  (forall c, validateConfig config = inr c ->
     (forall discovery,
        trace config (Rejected msg) discovery dns probe t0
          = Some (Fulfilled (traceFailure msg))) /\
     (target c <> "" ->
      forall resolved,
        trace config (Fulfilled resolved) (StartThrows msg) dns probe t0
          = Some (Fulfilled (traceFailure (orFailed msg))))).
Proof.
  split.
  - intros E resolved discovery. unfold trace. rewrite E. reflexivity.
  - intros c E. split.
    + intros discovery. unfold trace. rewrite E. reflexivity.
    + intros Ht resolved. unfold trace, execute. rewrite E.
      assert (Et : String.eqb (target c) "" = false) by (apply String.eqb_neq; exact Ht).
      rewrite Et. reflexivity.
Qed.

Lemma trace_reports_early_failures_witness :
  trace request resolvedOk (StartThrows "spawn ENOENT") (fun _ => DnsHangs)
        (fun _ => ProbeHangs) 0
  = Some (Fulfilled (traceFailure "spawn ENOENT")).
Proof.
  destruct (trace_reports_early_failures request (fun _ => DnsHangs) (fun _ => ProbeHangs)
              0 "spawn ENOENT") as [_ H].
  destruct (H requestValidated eq_refl) as [_ H2].
  apply H2. discriminate.
Defined.

End TraceProps.

(** ** processHop: soft failures and ping counters *)

Module ProcessHopProps.
Import Js Async HopProcessor HopOps HopBuild HopAnalysis.
Import Notions Samples MoreNotions MoreSamples ProbeFacts HistoryFacts.

Lemma pingHop_cases (b : ProbeBehaviour) (t0 : nat) (hopInfo : Hop) :
  exists h,
    pingHop b t0 hopInfo = Some h /\
    hop h = hop hopInfo /\ ip h = ip hopInfo /\ hostname h = hostname hopInfo /\
    (probeLost b 300 -> isReachable h = false /\ avgLatency h = None).
Proof.
  unfold pingHop.
  destruct (pingHopWithRetry_cases b t0 300) as (t & r & -> & _ & Hlost & _).
  eexists. split; [reflexivity|]. repeat split.
  - cbn. destruct (Hlost H) as (-> & _). reflexivity.
  - cbn. destruct (Hlost H) as (_ & -> & _). reflexivity.
Qed.

(** X13.  [processHop] reads every raw hop, whatever the reverse lookup and
    the probe do: the lookup and the probe fail soft.  The host name stays
    [null] when resolution is switched off or the lookup gives no name before
    its time-out, and the hop is unreachable with no latency when the probe
    gives no answer within 300 ms. *)
Theorem processHop_fails_soft (raw : RawHop) (config : Config) (rn : option Z)
    (sid : option string) (now : bool) (dns : string -> DnsBehaviour)
    (probe : string -> ProbeBehaviour) (t0 : nat) (counters : gmap string Z) :
  exists counters' h,
    processHop (Payload raw) config rn sid now dns probe t0 counters
      = (counters', Some (Fulfilled h)) /\
    hop h = raw_hop raw /\
    (resolveHosts config = false -> hostname h = None) /\
    (forall addr, ip h = Some addr ->
       noTimelyName (dns addr) (Z.to_nat (orZ (Some (hostnameTimeout config)) 5000)) ->
       hostname h = None) /\
    (forall addr, ip h = Some addr -> probeLost (probe addr) 300 ->
       isReachable h = false /\ avgLatency h = None).
Proof.
  unfold processHop. cbv zeta.
  set (h0 := mkHop _ _ _ _ _ _ _ _ _ _ _ _ _ _ _ _).
  set (h1 := match truthyS (ip h0) with Some _ => _ | None => _ end).
  assert (H1 : hop h1 = raw_hop raw /\ ip h1 = ip h0 /\
               (resolveHosts config = false -> hostname h1 = None) /\
               (forall addr, ip h1 = Some addr ->
                  noTimelyName (dns addr)
                    (Z.to_nat (orZ (Some (hostnameTimeout config)) 5000)) ->
                  hostname h1 = None) /\
               isReachable h1 = false /\ avgLatency h1 = None).
  { unfold h1. destruct (truthyS (ip h0)) as [a|] eqn:Ea.
    - destruct (resolveHosts config) eqn:Er.
      + cbn [hop ip hostname isReachable avgLatency set_hostname].
        split; [reflexivity|]. split; [reflexivity|]. split; [discriminate|].
        split; [|split; reflexivity].
        intros addr Haddr Hdns. unfold truthyS in Ea.
        change (ip h0 = Some addr) in Haddr. rewrite Haddr in Ea.
        destruct (String.eqb addr ""); [discriminate|]. inversion Ea; subst a.
        unfold resolvedHostname. destruct (dns addr) as [after names| |]; try reflexivity.
        cbn in Hdns.
        assert (E : (after <? Z.to_nat (orZ (Some (hostnameTimeout config)) 5000))%nat
                    = false) by (apply Nat.ltb_ge; exact Hdns).
        rewrite E. reflexivity.
      + repeat split.
    - repeat split. }
  destruct H1 as (Hh & Hip & Hres & Hdns & Hr & Ha).
  destruct (truthyS (ip h1)) as [a|] eqn:Ea.
  - destruct (now && pingHops config).
    + destruct (pingHop_cases (probe a) t0 h1) as (h & -> & Hh' & Hip' & Hn' & Hlost).
      exists (<[keyOf (raw_hop raw) (raw_ip raw) :=
                 (default 0 (counters !! keyOf (raw_hop raw) (raw_ip raw)) + 1)%Z]> counters), h.
      split; [reflexivity|]. rewrite Hh', Hn'. split; [exact Hh|]. split; [exact Hres|].
      split.
      * intros addr Haddr. apply Hdns. rewrite <- Hip'. exact Haddr.
      * intros addr Haddr Hl. rewrite Hip' in Haddr.
        unfold truthyS in Ea. rewrite Haddr in Ea.
        destruct (String.eqb addr ""); [discriminate|]. inversion Ea; subst a.
        apply Hlost, Hl.
    + eexists _, h1. split; [reflexivity|]. repeat split; auto.
  - eexists _, h1. split; [reflexivity|]. repeat split; auto.
Qed.

Lemma processHop_fails_soft_witness :
  exists counters' h,
    processHop (Payload rawHop1) sessionConfig (Some 1) (Some "s1") true noDns noProbe 0 ∅
      = (counters', Some (Fulfilled h)) /\
    hop h = 1 /\ hostname h = None /\ isReachable h = false.
Proof.
  destruct (processHop_fails_soft rawHop1 sessionConfig (Some 1) (Some "s1") true
              noDns noProbe 0 ∅) as (c' & h & E & Hh & Hres & _ & Hp).
  exists c', h. split; [exact E|]. split; [exact Hh|]. split; [apply Hres; reflexivity|].
  assert (Hip : ip h = Some "10.0.0.1").
  { vm_compute in E. inversion E. reflexivity. }
  apply (Hp "10.0.0.1" Hip). exact I.
Defined.

Lemma processHop_counters (raw : RawHop) (config : Config) (rn : option Z)
    (sid : option string) (now : bool) (dns : string -> DnsBehaviour)
    (probe : string -> ProbeBehaviour) (t0 : nat) (counters : gmap string Z) :
  fst (processHop (Payload raw) config rn sid now dns probe t0 counters)
  = <[keyOf (raw_hop raw) (raw_ip raw) :=
        (default 0 (counters !! keyOf (raw_hop raw) (raw_ip raw)) + 1)%Z]> counters.
Proof.
  unfold processHop. cbv zeta.
  repeat match goal with
         | |- context [match ?x with _ => _ end] => destruct x
         end; reflexivity.
Qed.

(** X14.  Every readable hop event raises the ping counter of its hop key
    by one and leaves the counters of the other keys alone; an unreadable
    event changes no counter; and [resetPingCounters] brings the counter of
    the key it is given, or every counter when it is given none, back to 0. *)
Theorem ping_counters_count_hop_events (raw : RawHop) (config : Config) (rn : option Z)
    (sid : option string) (now : bool) (dns : string -> DnsBehaviour)
    (probe : string -> ProbeBehaviour) (t0 : nat) (counters : gmap string Z) :
  let key := keyOf (raw_hop raw) (raw_ip raw) in
  let counters' := fst (processHop (Payload raw) config rn sid now dns probe t0 counters) in
  getHopPingStatistics key counters' = getHopPingStatistics key counters + 1 /\
  (forall k, k <> key ->
     getHopPingStatistics k counters' = getHopPingStatistics k counters) /\
  (forall msg,
     fst (processHop (Malformed msg) config rn sid now dns probe t0 counters) = counters) /\
  getHopPingStatistics key (resetPingCounters (Some key) counters') = 0 /\
  (forall k, k <> key ->
     getHopPingStatistics k (resetPingCounters (Some key) counters')
     = getHopPingStatistics k counters) /\
  (forall k, getHopPingStatistics k (resetPingCounters None counters') = 0).
Proof.
  intros key counters'. unfold counters'. rewrite processHop_counters. fold key.
  unfold getHopPingStatistics, resetPingCounters. rewrite (keyOf_nonempty _ _ : String.eqb key "" = false).
  split; [|split; [|split; [|split; [|split]]]].
  - rewrite lookup_insert_eq. unfold orZ.
    destruct (counters !! key) as [v|]; cbn.
    + destruct (v =? 0) eqn:E0; [apply Z.eqb_eq in E0; subst; reflexivity|].
      destruct (v + 1 =? 0) eqn:E1; [apply Z.eqb_eq in E1; lia | reflexivity].
    + reflexivity.
  - intros k Hk. rewrite lookup_insert_ne by congruence. reflexivity.
  - intros msg. reflexivity.
  - rewrite lookup_delete_eq. reflexivity.
  - intros k Hk. rewrite lookup_delete_ne, lookup_insert_ne by congruence. reflexivity.
  - intros k. rewrite lookup_empty. reflexivity.
Qed.

Lemma ping_counters_count_hop_events_witness :
  getHopPingStatistics "1_10.0.0.1"
    (fst (processHop (Payload rawHop1) sessionConfig None None false noDns noProbe 0
            {["1_10.0.0.1" := 4]}))
  = 5.
Proof.
  destruct (ping_counters_count_hop_events rawHop1 sessionConfig None None false
              noDns noProbe 0 {["1_10.0.0.1" := 4]}) as [H _].
  exact H.
Defined.

End ProcessHopProps.

(** ** Statistics *)

Module StatisticsProps.
Import Js HopProcessor HopOps HopAnalysis StatisticsCalc.
Import Notions Samples MoreNotions MoreSamples StatisticsFacts DiscrepancyProps.

Lemma filter_split_length {A} (f : A -> bool) (l : list A) :
  (length (List.filter f l) + length (List.filter (fun x => negb (f x)) l))%nat = length l.
Proof.
  induction l as [|x l IH]; [reflexivity|]. cbn. destruct (f x); cbn; lia.
Qed.

Lemma filter_length_le {A} (f : A -> bool) (l : list A) :
  (length (List.filter f l) <= length l)%nat.
Proof. pose proof (filter_split_length f l). lia. Qed.

(** Probed and reachable hops, counted as [calculateStatistics] does. *)
Lemma pinged_vs_reachable (hops : list Hop) :
  reachableOnlyIfPinged hops ->
  (length (List.filter isReachable hops) <= length (List.filter wasPinged hops))%nat /\
  (length (List.filter isReachable hops) = length (List.filter wasPinged hops) <->
   Forall (fun h => wasPinged h = true -> isReachable h = true) hops).
Proof.
  induction 1 as [|h hops Hh _ [IHle IHiff]]; cbn [List.filter].
  - split; [reflexivity|]. split; [constructor | reflexivity].
  - rewrite Forall_cons.
    destruct (isReachable h) eqn:Er, (wasPinged h) eqn:Ep; cbn [length].
    + split; [lia|]. rewrite <- IHiff. split; [intros; split; [reflexivity | lia] | lia].
    + specialize (Hh eq_refl). discriminate Hh.
    + split; [lia|]. split; [lia|]. intros [Hc _].
      specialize (Hc eq_refl). discriminate Hc.
    + split; [lia|]. rewrite <- IHiff.
      split; [intros; split; [discriminate | assumption] | tauto].
Qed.

Lemma loss_rate_bounds (total succ : nat) :
  (0 < total)%nat -> (succ <= total)%nat ->
  let rate := (inject_Z (Z.of_nat total - Z.of_nat succ) / inject_Z (Z.of_nat total) * 100)%Q in
  (0 <= rate)%Q /\ (rate <= 100)%Q /\ ((rate == 0)%Q <-> succ = total).
Proof.
  intros Hpos Hle rate.
  assert (Ht : (0 < inject_Z (Z.of_nat total))%Q).
  { change 0%Q with (inject_Z 0). rewrite <- Zlt_Qlt. lia. }
  assert (Hd0 : (0 <= inject_Z (Z.of_nat total - Z.of_nat succ))%Q).
  { change 0%Q with (inject_Z 0). rewrite <- Zle_Qle. lia. }
  assert (Hd1 : (inject_Z (Z.of_nat total - Z.of_nat succ) <= inject_Z (Z.of_nat total))%Q).
  { rewrite <- Zle_Qle. lia. }
  set (d := inject_Z (Z.of_nat total - Z.of_nat succ)) in *.
  set (t := inject_Z (Z.of_nat total)) in *.
  assert (H0 : (0 <= d / t)%Q) by (apply Qle_shift_div_l; [exact Ht | lra]).
  assert (H1 : (d / t <= 1)%Q) by (apply Qle_shift_div_r; [exact Ht | lra]).
  split; [unfold rate; lra|]. split; [unfold rate; lra|].
  split.
  - intros Hz.
    assert (Hdz : (d == 0)%Q).
    { assert (E : (d == d / t * t)%Q) by (field; lra).
      assert (Hq : (d / t == 0)%Q) by (unfold rate in Hz; lra).
      rewrite E, Hq. ring. }
    unfold d in Hdz. change 0%Q with (inject_Z 0) in Hdz.
    apply (proj1 (inject_Z_injective _ _)) in Hdz. lia.
  - intros ->. unfold rate, d. rewrite Z.sub_diag. change (inject_Z 0) with 0%Q.
    unfold Qdiv. ring.
Qed.

(** X15.  In the statistics of a hop list every hop is counted reachable or
    unreachable, never both; no more hops are counted probed than there are
    hops.  When no hop is marked reachable without having been probed, the
    packet-loss rate lies between 0 and 100 and is 0 exactly when every
    probed hop is reachable. *)
Theorem calculateStatistics_counts (hops : list Hop) :
  let s := calculateStatistics hops in
  st_totalHops s = length hops /\
  (st_reachableHops s + st_unreachableHops s)%nat = st_totalHops s /\
  (st_pingedHops s <= st_totalHops s)%nat /\
  length (dist_reachable s) = st_reachableHops s /\
  (reachableOnlyIfPinged hops ->
   (0 <= st_packetLossRate s)%Q /\ (st_packetLossRate s <= 100)%Q /\
   ((st_packetLossRate s == 0)%Q <->
    Forall (fun h => wasPinged h = true -> isReachable h = true) hops)).
Proof.
  unfold calculateStatistics.
  destruct (summarize (flat_map times hops)) as [[avgL maxL] minL].
  destruct (summarize (omap avgLatency hops)) as [[avgP maxP] minP].
  cbn [st_totalHops st_reachableHops st_unreachableHops st_pingedHops dist_reachable
       st_packetLossRate].
  split; [reflexivity|]. split; [apply filter_split_length|].
  split; [apply filter_length_le|]. split; [apply length_map|].
  intros Hwf. destruct (pinged_vs_reachable hops Hwf) as [Hle Hiff].
  destruct (0 <? length (List.filter wasPinged hops))%nat eqn:E.
  - apply Nat.ltb_lt in E.
    destruct (loss_rate_bounds _ _ E Hle) as (H0 & H1 & Hz).
    split; [exact H0|]. split; [exact H1|]. rewrite Hz. exact Hiff.
  - apply Nat.ltb_ge in E. split; [lra|]. split; [lra|].
    split; [intros _; apply Hiff; lia | reflexivity].
Qed.

Lemma calculateStatistics_counts_witness :
  (0 <= st_packetLossRate (calculateStatistics [probedHop; silentHop]))%Q /\
  (st_packetLossRate (calculateStatistics [probedHop; silentHop]) <= 100)%Q.
Proof.
  destruct (calculateStatistics_counts [probedHop; silentHop]) as (_ & _ & _ & _ & H).
  destruct H as (H0 & H1 & _); [|split; assumption].
  repeat constructor; discriminate.
Defined.

End StatisticsProps.

Module SummaryProps.
Import Js HopProcessor HopOps HopAnalysis StatisticsCalc.
Import Notions Samples MoreNotions MoreSamples StatisticsFacts DiscrepancyProps.

Lemma len_cons {A} (x : A) (l : list A) : (len (x :: l) == len l + 1)%Q.
Proof.
  unfold len. cbn [length]. rewrite Nat2Z.inj_succ. unfold Z.succ.
  rewrite inject_Z_plus. reflexivity.
Qed.

Lemma len_nonneg {A} (l : list A) : (0 <= len l)%Q.
Proof. unfold len. change 0%Q with (inject_Z 0). rewrite <- Zle_Qle. lia. Qed.





Lemma Qsquare_nonneg (x : Q) : (0 <= x * x)%Q.
Proof.
  destruct (Qlt_le_dec x 0) as [H|H].
  - assert (E : (x * x == (- x) * (- x))%Q) by ring. rewrite E.
    apply Qmult_le_0_compat; lra.
  - apply Qmult_le_0_compat; assumption.
Qed.

(** X17.  The variance [calculateVariance] returns is never negative, and
    is 0 for fewer than two samples. *)
Theorem calculateVariance_nonneg (data : list Q) :
  (0 <= calculateVariance data)%Q /\
  ((length data < 2)%nat -> calculateVariance data = 0%Q).
Proof.
  unfold calculateVariance. destruct (length data <? 2)%nat eqn:E.
  - split; [lra | reflexivity].
  - apply Nat.ltb_ge in E. split; [|lia].
    set (mean := (sum data / len data)%Q).
    assert (Hall : Forall (fun y => (0 <= y)%Q /\ (y <= y)%Q)
                     (map (fun x => ((x - mean) * (x - mean))%Q) data)).
    { apply Forall_forall. intros y Hy. apply list_elem_of_fmap in Hy as (x & -> & _).
      split; [apply Qsquare_nonneg | lra]. }
    assert (Hsum : (0 <= sum (map (fun x => ((x - mean) * (x - mean))%Q) data))%Q).
    { unfold sum. generalize (map (fun x => ((x - mean) * (x - mean))%Q) data) Hall.
      intros l Hl. assert (G : forall a, (0 <= a)%Q -> (0 <= fold_left Qplus l a)%Q).
      { induction Hl as [|y l [Hy _] _ IH]; intros a Ha; [exact Ha|].
        cbn. apply IH. lra. }
      apply G. lra. }
    assert (Hpos : (0 < len data)%Q).
    { destruct data as [|x rest]; [cbn in E; lia|].
      rewrite len_cons. pose proof (len_nonneg rest). lra. }
    apply Qle_shift_div_l; [exact Hpos | lra].
Qed.

Lemma calculateVariance_nonneg_witness : calculateVariance [4%Q] = 0%Q.
Proof.
  destruct (calculateVariance_nonneg [4%Q]) as [_ H]. apply H. cbn. lia.
Defined.

Lemma Qgtb_reflect (x c : Q) : reflect (c < x)%Q (Qgtb x c).
Proof. apply Qltb_reflect. Qed.

(** X18.  The performance summary is coherent: an excellent overall grade
    comes with a latency grade and a reliability grade of at least good; no
    packet-loss or latency recommendation is made when the overall grade is
    excellent or good; a packet-loss recommendation comes with a poor
    reliability grade and a latency recommendation with a poor latency grade;
    and the overall grade is poor exactly when the packet-loss rate reaches
    20 or the average latency reaches 200. *)
Theorem summary_is_coherent (stats : Statistics) :
  let s := generatePerformanceSummary stats in
  (overall s = excellent ->
   (sm_latency s = excellent \/ sm_latency s = good) /\
   (reliability s = excellent \/ reliability s = good)) /\
  (overall s = excellent \/ overall s = good ->
   ~ In HighPacketLoss (recommendations s) /\ ~ In HighLatency (recommendations s)) /\
  (In HighPacketLoss (recommendations s) -> reliability s = poor) /\
  (In HighLatency (recommendations s) -> sm_latency s = poor) /\
  (overall s = poor <->
   (20 <= st_packetLossRate stats)%Q \/ (200 <= st_avgLatency stats)%Q).
Proof.
  unfold generatePerformanceSummary.
  set (loss := st_packetLossRate stats). set (avg := st_avgLatency stats).
  cbn [overall sm_latency reliability recommendations].
  destruct (Qgtb_reflect (inject_Z (Z.of_nat (st_unreachableHops stats)))
              (inject_Z (Z.of_nat (st_totalHops stats)) * (3 # 10))) as [_|_];
  destruct (Qltb_reflect loss 1), (Qltb_reflect loss 5), (Qltb_reflect loss 10),
           (Qltb_reflect loss 20), (Qgtb_reflect loss 10); try lra;
  destruct (Qltb_reflect avg 20), (Qltb_reflect avg 50), (Qltb_reflect avg 100),
           (Qltb_reflect avg 200), (Qgtb_reflect avg 100); try lra;
  cbn; intuition (try congruence; try lra).
Qed.

Lemma summary_is_coherent_witness :
  reliability (generatePerformanceSummary (calculateStatistics [probedHop])) = excellent \/
  reliability (generatePerformanceSummary (calculateStatistics [probedHop])) = good.
Proof.
  destruct (summary_is_coherent (calculateStatistics [probedHop])) as [H _].
  apply H. vm_compute. reflexivity.
Defined.

End SummaryProps.

(** ** What the stored record of a hop keeps, and its stability entry *)

Module StabilityProps.
Import Js HopProcessor HopOps StatisticsCalc HistoryFacts.
Import Notions Samples MoreNotions MoreSamples.

(** Later observations of a hop feed the two histories of its record and
    leave every other field of the record as it is. *)
Lemma updateAll_keeps_record (n : Z) (addr : option string) (obs : list Hop) :
  Forall (observes n addr) obs ->
  forall (m : gmap string Hop) (stored : Hop) (rh : list RunEntry) (ph : list PingEntry),
    m !! keyOf n addr = Some stored ->
    history stored = Some rh -> pingHistory stored = Some ph ->
    exists m' stored' rh' ph',
      updateAll obs m = Some m' /\ m' !! keyOf n addr = Some stored' /\
      history stored' = Some rh' /\ pingHistory stored' = Some ph' /\
      set_histories stored' [] [] = set_histories stored [] [].
Proof.
  induction 1 as [|o obs Ho _ IH]; intros m stored rh ph Hm Hrh Hph.
  - exists m, stored, rh, ph. repeat split; assumption.
  - cbn [updateAll].
    rewrite (updateHopHistory_present n addr o stored m rh ph Ho Hm Hrh Hph).
    set (stored1 := set_histories stored _ _).
    destruct (IH (<[keyOf n addr := stored1]> m) stored1 _ _
                 (lookup_insert_eq _ _ _) eq_refl eq_refl)
      as (m' & stored' & rh' & ph' & Hall & Hk & Hrh' & Hph' & Hsame).
    exists m', stored', rh', ph'. repeat split; assumption.
Qed.

(** The map after the observations of a hop it had no record of. *)
Lemma updateAll_fresh (n : Z) (addr : option string) (o : Hop) (rest : list Hop)
    (m0 : gmap string Hop) :
  Forall (observes n addr) (o :: rest) ->
  m0 !! keyOf n addr = None ->
  exists m stored rh ph,
    updateAll (o :: rest) m0 = Some m /\ m !! keyOf n addr = Some stored /\
    history stored = Some rh /\ pingHistory stored = Some ph /\
    set_histories stored [] [] = set_histories o [] [] /\
    rh = slice_last 10 (map runEntryOf (o :: rest)).
Proof.
  intros Hobs Hm0. apply Forall_cons in Hobs as [Ho Hrest].
  cbn [updateAll]. rewrite (updateHopHistory_absent n addr o m0 Ho Hm0).
  set (stored1 := set_histories o _ _).
  destruct (updateAll_keeps_record n addr rest Hrest (<[keyOf n addr := stored1]> m0)
              stored1 _ _ (lookup_insert_eq _ _ _) eq_refl eq_refl)
    as (m & stored & rh & ph & Hall & Hk & Hrh & Hph & Hsame).
  destruct (updateAll_present n addr rest Hrest (<[keyOf n addr := stored1]> m0) stored1
              [runEntryOf o] (option_list (pingEntryOf o)))
    as (m2 & stored2 & Hall2 & Hk2 & _ & _ & Hh2 & _);
    [apply lookup_insert_eq | reflexivity | reflexivity |].
  rewrite Hall in Hall2. inversion Hall2; subst m2.
  rewrite Hk in Hk2. inversion Hk2; subst stored2.
  exists m, stored, rh, ph. repeat split; try assumption.
  rewrite Hrh in Hh2. inversion Hh2. reflexivity.
Qed.

(** X19.  The record a session keeps of a hop is the first observation of
    the hop: every later observation of the same index and address is added
    to the two histories only, so the latency, the reachability, the
    discovery times, the run number and the time stamp of the record, which
    is also the record [updateHopHistory] returns, stay those of the first
    observation. *)
Theorem stored_record_is_first_observation (n : Z) (addr : option string)
    (o : Hop) (rest : list Hop) (m0 : gmap string Hop) :
  Forall (observes n addr) (o :: rest) ->
  m0 !! keyOf n addr = None ->
  exists (m : gmap string Hop) (stored : Hop),
    updateAll (o :: rest) m0 = Some m /\
    m !! keyOf n addr = Some stored /\
    avgLatency stored = avgLatency o /\ isReachable stored = isReachable o /\
    times stored = times o /\ runNumber stored = runNumber o /\
    timestamp stored = timestamp o /\
    forall o', observes n addr o' ->
      exists returned m',
        updateHopHistory o' m = Some (returned, m') /\
        avgLatency returned = avgLatency o /\ isReachable returned = isReachable o /\
        runNumber returned = runNumber o.
Proof.
  intros Hobs Hm0.
  destruct (updateAll_fresh n addr o rest m0 Hobs Hm0)
    as (m & stored & rh & ph & Hall & Hk & Hrh & Hph & Hsame & _).
  exists m, stored. split; [exact Hall|]. split; [exact Hk|].
  split; [exact (f_equal avgLatency Hsame)|].
  split; [exact (f_equal isReachable Hsame)|].
  split; [exact (f_equal times Hsame)|].
  split; [exact (f_equal runNumber Hsame)|].
  split; [exact (f_equal timestamp Hsame)|].
  intros o' Ho'.
  rewrite (updateHopHistory_present n addr o' stored m rh ph Ho' Hk Hrh Hph).
  eexists _, _. split; [reflexivity|]. cbn [avgLatency isReachable runNumber set_histories].
  split; [exact (f_equal avgLatency Hsame)|].
  split; [exact (f_equal isReachable Hsame) | exact (f_equal runNumber Hsame)].
Qed.

Lemma stored_record_is_first_observation_witness :
  exists (m : gmap string Hop) (stored : Hop),
    updateAll [seenOnce; seenTwice] ∅ = Some m /\
    m !! keyOf 3 (Some "10.0.0.3") = Some stored /\
    avgLatency stored = None /\ isReachable stored = false.
Proof.
  destruct (stored_record_is_first_observation 3 (Some "10.0.0.3") seenOnce [seenTwice] ∅)
    as (m & stored & H1 & H2 & H3 & H4 & _).
  - repeat constructor.
  - apply lookup_empty.
  - exists m, stored. repeat split; assumption.
Defined.

Lemma last_map {A B} (f : A -> B) (l : list A) : last (map f l) = f <$> last l.
Proof.
  induction l as [|x [|y l] IH]; [reflexivity | reflexivity |].
  change (last (map f (x :: y :: l))) with (last (map f (y :: l))).
  change (last (x :: y :: l)) with (last (y :: l)). exact IH.
Qed.

Lemma last_slice_last {A} (k : nat) (l : list A) :
  (0 < k)%nat -> last (slice_last k l) = last l.
Proof.
  intros Hk. unfold slice_last. rewrite !last_lookup, lookup_drop, length_drop.
  destruct l as [|x l]; [reflexivity|]. f_equal. cbn [length]. lia.
Qed.

Lemma rate_bounds (total part : nat) :
  (0 < total)%nat -> (part <= total)%nat ->
  let rate := (inject_Z (Z.of_nat part) / inject_Z (Z.of_nat total) * 100)%Q in
  (0 <= rate)%Q /\ (rate <= 100)%Q.
Proof.
  intros Hpos Hle rate.
  assert (Ht : (0 < inject_Z (Z.of_nat total))%Q).
  { change 0%Q with (inject_Z 0). rewrite <- Zlt_Qlt. lia. }
  assert (Hd0 : (0 <= inject_Z (Z.of_nat part))%Q).
  { change 0%Q with (inject_Z 0). rewrite <- Zle_Qle. lia. }
  assert (Hd1 : (inject_Z (Z.of_nat part) <= inject_Z (Z.of_nat total))%Q).
  { rewrite <- Zle_Qle. lia. }
  set (d := inject_Z (Z.of_nat part)) in *.
  set (t := inject_Z (Z.of_nat total)) in *.
  assert (H0 : (0 <= d / t)%Q) by (apply Qle_shift_div_l; [exact Ht | lra]).
  assert (H1 : (d / t <= 1)%Q) by (apply Qle_shift_div_r; [exact Ht | lra]).
  split; unfold rate; lra.
Qed.

(** X20.  After the observations of a hop a session had no record of,
    [calculateHopStability] has an entry for the hop exactly when the hop
    was observed at least twice; the entry counts the last min(N, 10)
    observations, no more reachable ones than that, its rate lies between 0
    and 100, and [lastSeen] is the run number of the last observation. *)
Theorem stability_after_observations (n : Z) (addr : option string)
    (obs : list Hop) (m0 : gmap string Hop) :
  Forall (observes n addr) obs ->
  obs <> [] ->
  m0 !! keyOf n addr = None ->
  exists m : gmap string Hop,
    updateAll obs m0 = Some m /\
    match calculateHopStability m !! keyOf n addr with
    | Some s =>
        (2 <= length obs)%nat /\
        totalRuns s = Nat.min (length obs) 10 /\
        (reachableRuns s <= totalRuns s)%nat /\
        (0 <= stabilityRate s)%Q /\ (stabilityRate s <= 100)%Q /\
        lastSeen s = last obs ≫= runNumber
    | None => length obs = 1%nat
    end.
Proof.
  intros Hobs Hne Hm0. destruct obs as [|o rest]; [congruence|].
  destruct (updateAll_fresh n addr o rest m0 Hobs Hm0)
    as (m & stored & rh & ph & Hall & Hk & Hrh & _ & _ & Erh).
  exists m. split; [exact Hall|].
  unfold calculateHopStability. rewrite lookup_omap, Hk. cbn [mbind option_bind].
  unfold stabilityOf. rewrite Hrh.
  assert (Hlen : length rh = Nat.min (length (o :: rest)) 10).
  { rewrite Erh, length_slice_last, length_map. reflexivity. }
  destruct (1 <? length rh)%nat eqn:E.
  - apply Nat.ltb_lt in E. cbn [totalRuns reachableRuns stabilityRate lastSeen].
    assert (Hf : (length (List.filter re_isReachable rh) <= length rh)%nat)
      by apply List.filter_length_le.
    destruct (rate_bounds (length rh) (length (List.filter re_isReachable rh)))
      as [Hr0 Hr1]; [lia | exact Hf |].
    split; [lia|]. split; [exact Hlen|]. split; [exact Hf|].
    split; [exact Hr0|]. split; [exact Hr1|].
    rewrite Erh, last_slice_last by lia. rewrite last_map.
    destruct (last (o :: rest)); reflexivity.
  - apply Nat.ltb_ge in E. cbn [length] in *. lia.
Qed.

Lemma stability_after_observations_witness :
  exists m : gmap string Hop,
    updateAll [seenOnce; seenTwice] ∅ = Some m /\
    (totalRuns <$> calculateHopStability m !! keyOf 3 (Some "10.0.0.3")) = Some 2%nat.
Proof.
  destruct (stability_after_observations 3 (Some "10.0.0.3") [seenOnce; seenTwice] ∅)
    as (m & H1 & H2).
  - repeat constructor.
  - discriminate.
  - apply lookup_empty.
  - exists m. split; [exact H1|].
    destruct (calculateHopStability m !! keyOf 3 (Some "10.0.0.3")) as [s|].
    + destruct H2 as (_ & H2 & _). cbn. rewrite H2. reflexivity.
    + discriminate H2.
Defined.

End StabilityProps.

(** ** The life of a session: start, runs, stop, shutdown *)

Module SessionProps.
Import Js Async HopProcessor HopOps HopBuild TracerouteExecutor
       ContinuousTracerouteManager Shutdown.
Import Notions Samples MoreNotions MoreSamples SessionClaims SessionRunClaims ExecutorProps.

Lemma runTracerouteBegin_inv (sid pid : string) (m : Manager) :
  runningIsRegistered m -> runningIsRegistered (runTracerouteBegin sid pid m).
Proof.
  intros Hinv. unfold runTracerouteBegin.
  destruct (closures m !! sid) as [vs|] eqn:E; [|exact Hinv].
  destruct (v_isRunning vs) eqn:Er; [|exact Hinv].
  intros k vs' Hk Hrun. cbn [closures activeSessions] in *.
  destruct (decide (sid = k)) as [<-|Hne].
  - apply (Hinv sid vs E Er).
  - rewrite lookup_insert_ne in Hk by exact Hne. apply (Hinv k vs' Hk Hrun).
Qed.

Lemma startContinuousSession_inv (config : Config) (sid pid : string) (now : Z)
    (m : Manager) :
  runningIsRegistered m ->
  runningIsRegistered (fst (startContinuousSession config sid pid now m)).
Proof.
  intros Hinv. unfold startContinuousSession.
  destruct (String.eqb _ _); [exact Hinv|]. cbn [fst].
  apply runTracerouteBegin_inv. intros k vs Hk Hrun. cbn [closures activeSessions] in *.
  destruct (decide (sid = k)) as [<-|Hne].
  - rewrite lookup_insert_eq. eauto.
  - rewrite lookup_insert_ne in Hk by exact Hne.
    rewrite lookup_insert_ne by exact Hne. apply (Hinv k vs Hk Hrun).
Qed.

Lemma runTracerouteEnd_inv sid d dns probe t0 config (m : Manager) :
  runningIsRegistered m ->
  runningIsRegistered (runTracerouteEnd sid d dns probe t0 config m).
Proof.
  intros Hinv. unfold runTracerouteEnd.
  destruct (closures m !! sid) as [vs|] eqn:E; [|exact Hinv].
  destruct (execute config d) as [updates executed].
  destruct (fold_left _ updates _) as [[allHops counters] hopEvents].
  assert (G : forall proc k vs',
            <[sid := mkSessionVars (v_isRunning vs) (v_runCount vs) allHops
                       (v_startTime vs) proc]> (closures m) !! k = Some vs' ->
            v_isRunning vs' = true -> is_Some (activeSessions m !! k)).
  { intros proc k vs' Hk Hrun. destruct (decide (sid = k)) as [<-|Hne].
    - rewrite lookup_insert_eq in Hk. inversion Hk; subst vs'. cbn in Hrun.
      apply (Hinv sid vs E Hrun).
    - rewrite lookup_insert_ne in Hk by exact Hne. apply (Hinv k vs' Hk Hrun). }
  destruct executed; intros k vs' Hk Hrun; cbn [closures activeSessions] in *;
    eapply G; eauto.
Qed.

Lemma timerFires_inv (sid pid : string) (m : Manager) :
  runningIsRegistered m -> runningIsRegistered (timerFires sid pid m).
Proof.
  intros Hinv. unfold timerFires. destruct (list_find _ _) as [[i p]|]; [|exact Hinv].
  apply runTracerouteBegin_inv. exact Hinv.
Qed.

Lemma stopContinuousSession_sessions (sid : string) (m : Manager) :
  activeSessions (fst (stopContinuousSession sid m)) = delete sid (activeSessions m).
Proof.
  unfold stopContinuousSession, sessionStop.
  destruct (activeSessions m !! sid); cbn; [apply delete_delete_eq | reflexivity].
Qed.

Lemma stopContinuousSession_inv (sid : string) (m : Manager) :
  runningIsRegistered m -> runningIsRegistered (fst (stopContinuousSession sid m)).
Proof.
  intros Hinv k vs' Hk Hrun. rewrite stopContinuousSession_sessions.
  unfold stopContinuousSession, sessionStop in Hk.
  destruct (activeSessions m !! sid) as [info|] eqn:Es; cbn [fst closures] in Hk.
  - destruct (decide (sid = k)) as [<-|Hne].
    + destruct (closures m !! sid) as [vs|] eqn:Ec.
      * rewrite lookup_insert_eq in Hk. inversion Hk; subst vs'. discriminate Hrun.
      * congruence.
    + rewrite lookup_delete_ne by exact Hne.
      apply (Hinv k vs'); [|exact Hrun].
      destruct (closures m !! sid); [rewrite lookup_insert_ne in Hk by exact Hne|]; exact Hk.
  - destruct (decide (sid = k)) as [<-|Hne].
    + destruct (Hinv sid vs' Hk Hrun) as [x Hx]. congruence.
    + rewrite lookup_delete_ne by exact Hne. apply (Hinv k vs' Hk Hrun).
Qed.

(** In every state of the manager a running closure belongs to a
    registered session. *)
Lemma reachable_runningIsRegistered (m : Manager) :
  reachable m -> runningIsRegistered m.
Proof.
  induction 1.
  - intros k vs Hk. unfold empty in Hk. cbn in Hk. rewrite lookup_empty in Hk.
    discriminate Hk.
  - apply startContinuousSession_inv. assumption.
  - apply runTracerouteEnd_inv. assumption.
  - apply timerFires_inv. assumption.
  - apply stopContinuousSession_inv. assumption.
Qed.

(** Once a session is stopped its closure, if any, is not running. *)
Lemma stopped_not_running (sid : string) (m : Manager) (vs : SessionVars) :
  runningIsRegistered m ->
  closures (fst (stopContinuousSession sid m)) !! sid = Some vs ->
  v_isRunning vs = false.
Proof.
  intros Hinv Hk. destruct (v_isRunning vs) eqn:Er; [|reflexivity].
  destruct (stopContinuousSession_inv sid m Hinv sid vs Hk Er) as [x Hx].
  rewrite stopContinuousSession_sessions, lookup_delete_eq in Hx. discriminate Hx.
Qed.

(** X21.  Stopping a session ends its loop: afterwards the closure of the
    session is not running, so a pending timer of the session that fires
    starts no run (no process is registered, no run is counted, nothing
    is emitted), and a run that was in flight schedules no further run
    when it ends. *)
Theorem stop_ends_the_loop (sid : string) (m : Manager) :
  reachable m ->
  let m' := fst (stopContinuousSession sid m) in
  isRunningOf sid m' <> Some true /\
  (forall pid,
     closures (timerFires sid pid m') = closures m' /\
     activeProcesses (timerFires sid pid m') = activeProcesses m' /\
     emitted (timerFires sid pid m') = emitted m') /\
  (forall d dns probe t0 config,
     timers (runTracerouteEnd sid d dns probe t0 config m') = timers m').
Proof.
  intros Hreach m'. apply reachable_runningIsRegistered in Hreach.
  pose proof (stopped_not_running sid m) as Hstop. fold m' in Hstop.
  split; [|split].
  - unfold isRunningOf. destruct (closures m' !! sid) as [vs|] eqn:E; [|discriminate].
    cbn. rewrite (Hstop vs Hreach eq_refl). discriminate.
  - intros pid. unfold timerFires. destruct (list_find _ _) as [[i p]|]; [|repeat split].
    unfold runTracerouteBegin. cbn [closures].
    destruct (closures m' !! sid) as [vs|] eqn:E; [|repeat split].
    rewrite (Hstop vs Hreach eq_refl). repeat split.
  - intros d dns probe t0 config. unfold runTracerouteEnd.
    destruct (closures m' !! sid) as [vs|] eqn:E; [|reflexivity].
    rewrite (Hstop vs Hreach eq_refl).
    destruct (execute config d) as [updates executed].
    destruct (fold_left _ updates _) as [[allHops counters] hopEvents].
    destruct executed; reflexivity.
Qed.

Lemma stop_ends_the_loop_witness :
  isRunningOf "s1" (fst (stopContinuousSession "s1" started)) <> Some true.
Proof.
  apply (stop_ends_the_loop "s1" started).
  unfold started. apply reach_start, reach_empty.
Defined.

(** X22.  Starting a session with a target registers it under the
    generated identifier and starts its first run at once: the reply names
    the session, the session is active, its closure is running and counts
    one run, and the discovery is registered with the executor; the other
    sessions are left as they are, and the number of active sessions grows
    by one when the identifier is new.  Without a target nothing changes
    and the reply is a failure. *)
Theorem start_registers_session (config : Config) (sid pid : string) (now : Z)
    (m : Manager) :
  let m' := fst (startContinuousSession config sid pid now m) in
  let reply := snd (startContinuousSession config sid pid now m) in
  (target config <> "" ->
   r_success reply = true /\ r_sessionId reply = Some sid /\
   isSessionActive sid m' = true /\
   isRunningOf sid m' = Some true /\ runCountOf sid m' = Some 1 /\
   pid ∈ activeProcesses m' /\
   (forall k, k <> sid ->
      activeSessions m' !! k = activeSessions m !! k /\
      closures m' !! k = closures m !! k) /\
   (isSessionActive sid m = false ->
    getActiveSessionCount m' = S (getActiveSessionCount m))) /\
  (target config = "" -> m' = m /\ r_success reply = false).
Proof.
  intros m' reply. subst m' reply. unfold startContinuousSession.
  destruct (String.eqb (target config) "") eqn:Et.
  - apply String.eqb_eq in Et. split; [congruence|]. intros _. split; reflexivity.
  - apply String.eqb_neq in Et. split; [|congruence]. intros _.
    cbn [fst snd r_success r_sessionId].
    unfold runTracerouteBegin. cbn [closures]. rewrite lookup_insert_eq.
    cbn [v_isRunning v_runCount v_allHops v_startTime activeSessions activeProcesses
         hopPingCounters timers emitted].
    split; [reflexivity|]. split; [reflexivity|].
    split; [|split; [|split; [|split; [|split]]]].
    + unfold isSessionActive. cbn [activeSessions]. rewrite lookup_insert_eq.
      apply bool_decide_eq_true. eauto.
    + unfold isRunningOf. cbn [closures]. rewrite lookup_insert_eq. reflexivity.
    + unfold runCountOf. cbn [closures]. rewrite lookup_insert_eq. reflexivity.
    + cbn [activeProcesses]. apply elem_of_union_l, elem_of_singleton. reflexivity.
    + intros k Hne. cbn [activeSessions closures].
      rewrite !lookup_insert_ne by congruence. split; reflexivity.
    + intros Hfresh. unfold getActiveSessionCount. cbn [activeSessions].
      apply map_size_insert_None.
      unfold isSessionActive in Hfresh. apply bool_decide_eq_false in Hfresh.
      destruct (activeSessions m !! sid); [exfalso; apply Hfresh; eauto | reflexivity].
Qed.

Lemma start_registers_session_witness :
  runCountOf "s1" started = Some 1 /\ "p1" ∈ activeProcesses started.
Proof.
  destruct (start_registers_session sessionConfig "s1" "p1" 0 empty) as [H _].
  destruct H as (_ & _ & _ & _ & H5 & H6 & _); [discriminate|].
  split; [exact H5 | exact H6].
Defined.

(** Sessions stopped one after the other. *)
Lemma stop_each_facts (ks : list string) :
  forall m : Manager,
    let m' := fold_left (fun acc k => fst (stopContinuousSession k acc)) ks m in
    activeProcesses m' = activeProcesses m /\
    timers m' = timers m /\ emitted m' = emitted m /\
    (forall k x, activeSessions m' !! k = Some x ->
       activeSessions m !! k = Some x /\ k ∉ ks) /\
    (runningIsRegistered m -> runningIsRegistered m').
Proof.
  induction ks as [|k0 ks IH]; intros m; cbn [fold_left].
  - repeat split; auto. apply not_elem_of_nil.
  - destruct (IH (fst (stopContinuousSession k0 m))) as (Hp & Ht & He & Hs & Hi).
    split; [rewrite Hp; apply stopContinuousSession_processes|].
    split; [rewrite Ht; unfold stopContinuousSession;
            destruct (activeSessions m !! k0); reflexivity|].
    split; [rewrite He; unfold stopContinuousSession;
            destruct (activeSessions m !! k0); reflexivity|].
    split.
    + intros k x Hk. destruct (Hs k x Hk) as [Hk1 Hnot].
      rewrite stopContinuousSession_sessions in Hk1.
      apply lookup_delete_Some in Hk1 as [Hne Hk1]. split; [exact Hk1|].
      apply not_elem_of_cons. split; [congruence | exact Hnot].
    + intros Hinv. apply Hi, stopContinuousSession_inv, Hinv.
Qed.

(** X23.  [stopAll] of the service, unlike the stop of one session, reaches
    the executor: it runs the clean-up on every registered discovery and
    empties [activeProcesses]; it removes every session, and no closure is
    left running, so no pending timer can start a run. *)
Theorem stopAll_clears_everything (m : Manager) :
  reachable m ->
  fst (stopAll m) = activeProcesses m /\
  activeProcesses (snd (stopAll m)) = ∅ /\
  activeSessions (snd (stopAll m)) = ∅ /\
  getActiveSessionCount (snd (stopAll m)) = 0%nat /\
  (forall sid, isRunningOf sid (snd (stopAll m)) <> Some true) /\
  timers (snd (stopAll m)) = timers m.
Proof.
  intros Hreach. apply reachable_runningIsRegistered in Hreach.
  unfold stopAll, stopAllProcesses, stopAllSessions. cbn [fst snd activeSessions].
  set (m1 := mkManager _ _ _ _ _ _).
  destruct (stop_each_facts (fst <$> map_to_list (activeSessions m)) m1)
    as (Hp & Ht & _ & Hs & Hi).
  set (m' := fold_left _ _ m1) in *.
  assert (Hempty : activeSessions m' = ∅).
  { apply map_empty. intros k. destruct (activeSessions m' !! k) as [x|] eqn:E; [|reflexivity].
    destruct (Hs k x E) as [Hk Hnot]. exfalso. apply Hnot.
    apply list_elem_of_fmap. exists (k, x). split; [reflexivity|].
    apply elem_of_map_to_list. exact Hk. }
  split; [reflexivity|]. split; [exact Hp|]. split; [exact Hempty|].
  split; [unfold getActiveSessionCount; rewrite Hempty; apply map_size_empty|].
  split; [|exact Ht].
  intros sid. unfold isRunningOf.
  destruct (closures m' !! sid) as [vs|] eqn:E; [|discriminate]. cbn.
  destruct (v_isRunning vs) eqn:Er; [|discriminate].
  destruct (Hi Hreach sid vs E Er) as [x Hx]. rewrite Hempty, lookup_empty in Hx.
  discriminate Hx.
Qed.

Lemma stopAll_clears_everything_witness :
  fst (stopAll started) = activeProcesses started /\
  activeProcesses (snd (stopAll started)) = ∅.
Proof.
  destruct (stopAll_clears_everything started) as (H1 & H2 & _).
  - unfold started. apply reach_start, reach_empty.
  - split; [exact H1 | exact H2].
Defined.

(** A discovery that ends settles the promise of [execute] with a result
    and leaves no process registered. *)
Lemma execute_ends (config : Config) (events : list TracerEvent) :
  Exists endsDiscovery events ->
  (exists result, snd (execute config (Runs events)) = Some (Fulfilled result)) /\
  stillRegistered config (Runs events) = false.
Proof.
  intros Hex. unfold execute, stillRegistered.
  destruct (String.eqb (target config) ""); [cbn; eauto|].
  destruct (execRun_facts config events execStart execStart_inv)
    as ((Hreg & Hset & Hrej) & _ & _ & Hend).
  destruct (execRun config execStart events) as [st us]. cbn [fst snd] in *.
  specialize (Hend Hex). split.
  - destruct (proj1 Hset Hend) as [[r|msg] Ho]; [eauto|]. exfalso. apply (Hrej msg Ho).
  - rewrite Hreg, Hend. reflexivity.
Qed.

(** X24.  A run of a running session whose discovery ends is reported by a
    [run_complete] event, its process is no longer registered, and the next
    run is scheduled after the interval; when that timer fires the next run
    starts: the run count of the closure grows by one and the new discovery
    is registered, the timer being consumed. *)
Theorem run_loop_advances (sid pid : string) (events : list TracerEvent)
    (dns : string -> DnsBehaviour) (probe : string -> ProbeBehaviour) (t0 : nat)
    (config : Config) (m : Manager) (vs : SessionVars) :
  closures m !! sid = Some vs ->
  v_isRunning vs = true ->
  Exists endsDiscovery events ->
  let m1 := runTracerouteEnd sid (Runs events) dns probe t0 config m in
  let m2 := timerFires sid pid m1 in
  (exists result, last (emitted m1) = Some (RunComplete sid (v_runCount vs) result)) /\
  (forall p, v_process vs = Some p -> p ∉ activeProcesses m1) /\
  timers m1 = timers m ++ [(sid, interval config)] /\
  runCountOf sid m2 = Some (v_runCount vs + 1) /\
  isRunningOf sid m2 = Some true /\
  pid ∈ activeProcesses m2 /\
  length (timers m2) = length (timers m).
Proof.
  intros Hvs Hrun Hex m1 m2.
  destruct (execute_ends config events Hex) as [[result Hres] Hstill].
  assert (Hm1 : exists allHops counters hopEvents,
            m1 = mkManager (activeSessions m)
                   (<[sid := mkSessionVars true (v_runCount vs) allHops
                               (v_startTime vs) None]> (closures m))
                   (match v_process vs with
                    | Some p => activeProcesses m ∖ {[p]}
                    | None => activeProcesses m
                    end)
                   counters (timers m ++ [(sid, interval config)])
                   (emitted m ++ hopEvents ++ [RunComplete sid (v_runCount vs) result])).
  { subst m1. unfold runTracerouteEnd. rewrite Hvs, Hstill, Hrun.
    destruct (execute config (Runs events)) as [updates executed]. cbn [snd] in Hres.
    subst executed.
    destruct (fold_left _ updates _) as [[allHops counters] hopEvents].
    exists allHops, counters, hopEvents. reflexivity. }
  destruct Hm1 as (allHops & counters & hopEvents & Hm1).
  assert (Hfind : is_Some (list_find (fun p : string * Z => fst p = sid) (timers m1))).
  { apply (list_find_elem_of _ _ (sid, interval config)); [|reflexivity].
    rewrite Hm1. cbn [timers]. apply elem_of_app. right. apply list_elem_of_singleton.
    reflexivity. }
  destruct Hfind as [[i p] Hfind].
  assert (Hi : is_Some (timers m1 !! i)).
  { apply list_find_Some in Hfind as (Hi & _). eauto. }
  assert (Hm2 : m2 = mkManager (activeSessions m1)
                  (<[sid := mkSessionVars true (v_runCount vs + 1) allHops
                              (v_startTime vs) (Some pid)]> (closures m1))
                  ({[pid]} ∪ activeProcesses m1) (hopPingCounters m1)
                  (delete i (timers m1)) (emitted m1)).
  { subst m2. unfold timerFires. rewrite Hfind. unfold runTracerouteBegin.
    cbn [closures]. rewrite Hm1 at 1. cbn [closures]. rewrite lookup_insert_eq.
    reflexivity. }
  split; [exists result; rewrite Hm1; cbn [emitted]; rewrite !app_assoc; apply last_snoc|].
  split.
  { intros p0 Hp0. rewrite Hm1. cbn [activeProcesses]. rewrite Hp0.
    intros Hin. apply elem_of_difference in Hin as [_ Hin]. apply Hin.
    apply elem_of_singleton. reflexivity. }
  split; [rewrite Hm1; reflexivity|].
  rewrite Hm2. unfold runCountOf, isRunningOf. cbn [closures activeProcesses timers].
  rewrite !lookup_insert_eq. split; [reflexivity|]. split; [reflexivity|].
  split; [apply elem_of_union_l, elem_of_singleton; reflexivity|].
  rewrite length_delete by exact Hi. rewrite Hm1. cbn [timers].
  rewrite length_app. cbn [length]. lia.
Qed.

Lemma run_loop_advances_witness :
  runCountOf "s1"
    (timerFires "s1" "p2"
       (runTracerouteEnd "s1" (Runs [EvClose 0]) noDns noProbe 0 sessionConfig started))
  = Some 2.
Proof.
  assert (E : closures started !! "s1"
              = Some (mkSessionVars true 1 ∅ 0 (Some "p1"))) by (vm_compute; reflexivity).
  destruct (run_loop_advances "s1" "p2" [EvClose 0] noDns noProbe 0 sessionConfig started
              _ E eq_refl) as (_ & _ & _ & H & _).
  - apply Exists_cons_hd. exact I.
  - exact H.
Defined.

(** The flags of a registered session object are never written after the
    object is built. *)
Lemma registered_flags_frozen (m : Manager) :
  reachable m ->
  forall sessionId info,
    activeSessions m !! sessionId = Some info ->
    s_isRunning info = true /\ s_currentRunPromise info = None.
Proof.
  induction 1 as [|config sid pid now m _ IH|sid d dns probe t0 config m _ IH
                  |sid pid m _ IH|sid m _ IH]; intros k info Hk.
  - unfold empty in Hk. cbn [activeSessions] in Hk.
    rewrite lookup_empty in Hk. discriminate Hk.
  - unfold startContinuousSession in Hk.
    destruct (String.eqb (target config) ""); cbn in Hk; [apply (IH k info Hk)|].
    rewrite runTracerouteBegin_sessions in Hk. cbn in Hk.
    destruct (decide (sid = k)) as [->|Hne].
    + rewrite lookup_insert_eq in Hk. inversion Hk. split; reflexivity.
    + rewrite lookup_insert_ne in Hk by exact Hne. apply (IH k info Hk).
  - rewrite runTracerouteEnd_sessions in Hk. apply (IH k info Hk).
  - unfold timerFires in Hk. destruct (list_find _ _) as [[i p]|].
    + rewrite runTracerouteBegin_sessions in Hk. apply (IH k info Hk).
    + apply (IH k info Hk).
  - rewrite stopContinuousSession_sessions in Hk.
    apply lookup_delete_Some in Hk as [_ Hk]. apply (IH k info Hk).
Qed.

(** X25.  [getActiveSessions] lists the registered sessions, each once:
    as many reports as [getActiveSessionCount] counts, every reported
    session being active and every active session being reported; each
    report gives the time since the start of the session as its duration,
    and always says the session is running. *)
Theorem getActiveSessions_lists_registered (now : Z) (m : Manager) :
  reachable m ->
  length (getActiveSessions now m) = getActiveSessionCount m /\
  NoDup (rep_sessionId <$> getActiveSessions now m) /\
  (forall sid, isSessionActive sid m = true
               <-> sid ∈ rep_sessionId <$> getActiveSessions now m) /\
  (forall r, r ∈ getActiveSessions now m ->
     rep_duration r = now - rep_startTime r /\ rep_isRunning r = true).
Proof.
  intros Hreach. unfold getActiveSessions, getActiveSessionCount.
  split; [rewrite length_fmap; apply length_map_to_list|].
  rewrite <- list_fmap_compose.
  assert (Hfst : forall l : list (string * SessionInfo),
            ((rep_sessionId
              ∘ (fun p : string * SessionInfo =>
                   mkReport (fst p) (s_target (snd p)) (s_runCount (snd p))
                            (s_startTime (snd p)) (now - s_startTime (snd p))
                            (s_isRunning (snd p)))) <$> l) = fst <$> l).
  { intros l. apply list_fmap_ext. intros i [k x] _. reflexivity. }
  rewrite Hfst.
  split; [apply NoDup_fst_map_to_list|]. split.
  - intros sid. unfold isSessionActive. rewrite bool_decide_eq_true.
    rewrite list_elem_of_fmap. split.
    + intros [x Hx]. exists (sid, x). split; [reflexivity|].
      apply elem_of_map_to_list. exact Hx.
    + intros [[k x] [-> Hx]]. apply elem_of_map_to_list in Hx. eauto.
  - intros r Hr. apply list_elem_of_fmap in Hr as [[k x] [-> Hx]].
    apply elem_of_map_to_list in Hx. cbn.
    split; [reflexivity|]. apply (registered_flags_frozen m Hreach k x Hx).
Qed.

Lemma getActiveSessions_lists_registered_witness :
  length (getActiveSessions 5 started) = getActiveSessionCount started.
Proof.
  apply (getActiveSessions_lists_registered 5 started).
  unfold started. apply reach_start, reach_empty.
Defined.

End SessionProps.
